(** * go-runestream: a buffered, backtrackable rune decoder

    Shallow embedding of [position.go], [decoder.go] and the stream engine
    (RuneStream with Options) of chronos-tachyon/go-runestream, followed by
    the properties of the natural-language specification that were checked
    against it.

    Conventions of the embedding.
    - Go's [int] and [uint] are the 64-bit ones (amd64, arm64); [uint64] and
      [uint] values are integers of [Z] kept in [0, 2^64) with the
      wrap-around written out ([u64]); [rune] is a signed 32-bit integer.
    - A Go panic is the outcome [Panic] carrying the message; a loop that
      never exits is the outcome [Diverge].
    - A byte slice is modelled by its contents ([list byte]); the backing
      buffer [bb] of the stream is kept as a list of the same length, and
      the pending view [b] as the window [(offset, length)] into it. *)

From Stdlib Require Import String ZArith List Bool Lia PeanoNat.
From Stdlib Require Import Strings.Byte.
From Stdlib Require Import Ascii DecimalString DecimalN DecimalPos.
Import ListNotations.

Local Open Scope Z_scope.

(** ** Machine integers *)

Definition u64 (z : Z) : Z := z mod 2 ^ 64.

Definition maxInt : Z := 2 ^ 63 - 1.

(** [int(x)] of a value that is computed in 64-bit signed arithmetic. *)
Definition int64 (z : Z) : Z := (z + 2 ^ 63) mod 2 ^ 64 - 2 ^ 63.

(** [int32(x)]: the representation of a [rune]. *)
Definition int32 (z : Z) : Z := (z + 2 ^ 31) mod 2 ^ 32 - 2 ^ 31.

Definition byteZ (c : byte) : Z := Z.of_N (Byte.to_N c).

(** ** Outcomes of a call *)

Inductive outcome (A : Type) : Type :=
| Ret (a : A)
| Panic (msg : string)
| Diverge.

Arguments Ret {A} a.
Arguments Panic {A} msg.
Arguments Diverge {A}.

Definition obind {A B} (m : outcome A) (k : A -> outcome B) : outcome B :=
  match m with
  | Ret a => k a
  | Panic msg => Panic msg
  | Diverge => Diverge
  end.

Definition returns {A} (m : outcome A) : bool :=
  match m with Ret _ => true | _ => false end.

(** ** position.go *)

Record Position : Type := mkPosition {
  Offset : Z;
  Line : Z;
  Column : Z;
  SkipNextLF : bool
}.

Definition MakePosition : Position :=
  {| Offset := 0; Line := 1; Column := 1; SkipNextLF := false |}.

Definition Position_Reset (pos : Position) : Position := MakePosition.

Definition rune_CR : Z := 13.
Definition rune_LF : Z := 10.
Definition rune_TAB : Z := 9.

Definition Position_Advance (pos : Position) (ch size : Z) : outcome Position :=
  if size <? 0 then Panic "negative size"
  else if size =? 0 then Ret pos
  else
    let off := u64 (Offset pos + u64 size) in
    if ch =? rune_CR then
      Ret {| Offset := off; Line := u64 (Line pos + 1); Column := 1;
             SkipNextLF := true |}
    else if (ch =? rune_LF) && SkipNextLF pos then
      Ret {| Offset := off; Line := Line pos; Column := Column pos;
             SkipNextLF := false |}
    else if ch =? rune_LF then
      Ret {| Offset := off; Line := u64 (Line pos + 1); Column := 1;
             SkipNextLF := SkipNextLF pos |}
    else if ch =? rune_TAB then
      let tabwidth := u64 (8 - (u64 (Column pos - 1)) mod 8) in
      Ret {| Offset := off; Line := Line pos;
             Column := u64 (Column pos + tabwidth); SkipNextLF := false |}
    else
      Ret {| Offset := off; Line := Line pos; Column := u64 (Column pos + 1);
             SkipNextLF := false |}.

(** ** unicode/utf8 (Go standard library)

    [decoder.go] delegates to [utf8.FullRune] and [utf8.DecodeRune]; the two
    functions, their constants and their tables are transcribed here from
    the standard library, which is not part of this repository. *)

Module utf8.

Definition RuneError : Z := 0xFFFD.
Definition UTFMax : Z := 4.

Definition maskx : Z := 0x3F.
Definition mask2 : Z := 0x1F.
Definition mask3 : Z := 0x0F.
Definition mask4 : Z := 0x07.

Definition locb : Z := 0x80.
Definition hicb : Z := 0xBF.

Definition xx : Z := 0xF1.
Definition as_ : Z := 0xF0.
Definition s1 : Z := 0x02.
Definition s2 : Z := 0x13.
Definition s3 : Z := 0x03.
Definition s4 : Z := 0x23.
Definition s5 : Z := 0x34.
Definition s6 : Z := 0x04.
Definition s7 : Z := 0x44.

Definition first : list Z :=
  [ as_; as_; as_; as_; as_; as_; as_; as_; as_; as_; as_; as_; as_; as_; as_; as_;
    as_; as_; as_; as_; as_; as_; as_; as_; as_; as_; as_; as_; as_; as_; as_; as_;
    as_; as_; as_; as_; as_; as_; as_; as_; as_; as_; as_; as_; as_; as_; as_; as_;
    as_; as_; as_; as_; as_; as_; as_; as_; as_; as_; as_; as_; as_; as_; as_; as_;
    as_; as_; as_; as_; as_; as_; as_; as_; as_; as_; as_; as_; as_; as_; as_; as_;
    as_; as_; as_; as_; as_; as_; as_; as_; as_; as_; as_; as_; as_; as_; as_; as_;
    as_; as_; as_; as_; as_; as_; as_; as_; as_; as_; as_; as_; as_; as_; as_; as_;
    as_; as_; as_; as_; as_; as_; as_; as_; as_; as_; as_; as_; as_; as_; as_; as_;
    xx; xx; xx; xx; xx; xx; xx; xx; xx; xx; xx; xx; xx; xx; xx; xx;
    xx; xx; xx; xx; xx; xx; xx; xx; xx; xx; xx; xx; xx; xx; xx; xx;
    xx; xx; xx; xx; xx; xx; xx; xx; xx; xx; xx; xx; xx; xx; xx; xx;
    xx; xx; xx; xx; xx; xx; xx; xx; xx; xx; xx; xx; xx; xx; xx; xx;
    xx; xx; s1; s1; s1; s1; s1; s1; s1; s1; s1; s1; s1; s1; s1; s1;
    s1; s1; s1; s1; s1; s1; s1; s1; s1; s1; s1; s1; s1; s1; s1; s1;
    s2; s3; s3; s3; s3; s3; s3; s3; s3; s3; s3; s3; s3; s4; s3; s3;
    s5; s6; s6; s6; s7; xx; xx; xx; xx; xx; xx; xx; xx; xx; xx; xx ].

Record acceptRange : Type := { lo : Z; hi : Z }.

Definition acceptRanges : list acceptRange :=
  [ {| lo := locb; hi := hicb |};
    {| lo := 0xA0; hi := hicb |};
    {| lo := locb; hi := 0x9F |};
    {| lo := 0x90; hi := hicb |};
    {| lo := locb; hi := 0x8F |};
    {| lo := 0; hi := 0 |}; {| lo := 0; hi := 0 |}; {| lo := 0; hi := 0 |};
    {| lo := 0; hi := 0 |}; {| lo := 0; hi := 0 |}; {| lo := 0; hi := 0 |};
    {| lo := 0; hi := 0 |}; {| lo := 0; hi := 0 |}; {| lo := 0; hi := 0 |};
    {| lo := 0; hi := 0 |}; {| lo := 0; hi := 0 |} ].

(** [p[i]] as an integer; every use below is guarded by the length of
    [p], as the indexing is in the Go code. *)
Definition at_ (p : list byte) (i : nat) : Z := byteZ (nth i p x00).

Definition first_of (c : Z) : Z := nth (Z.to_nat c) first xx.

Definition accept_of (x : Z) : acceptRange :=
  nth (Z.to_nat (Z.shiftr x 4)) acceptRanges {| lo := 0; hi := 0 |}.

Definition FullRune (p : list byte) : bool :=
  let n := Z.of_nat (length p) in
  if n =? 0 then false
  else
    let x := first_of (at_ p 0) in
    if n >=? Z.land x 7 then true
    else
      let accept := accept_of x in
      if (n >? 1) && ((at_ p 1 <? lo accept) || (hi accept <? at_ p 1))
      then true
      else if (n >? 2) && ((at_ p 2 <? locb) || (hicb <? at_ p 2))
      then true
      else false.

Definition DecodeRune (p : list byte) : Z * Z :=
  let n := Z.of_nat (length p) in
  if n <? 1 then (RuneError, 0)
  else
    let p0 := at_ p 0 in
    let x := first_of p0 in
    if x >=? as_ then
      let mask := Z.shiftr (int32 (Z.shiftl x 31)) 31 in
      (Z.lor (Z.land p0 (Z.lnot mask)) (Z.land RuneError mask), 1)
    else
      let sz := Z.land x 7 in
      let accept := accept_of x in
      if n <? sz then (RuneError, 1)
      else
        let b1 := at_ p 1 in
        if (b1 <? lo accept) || (hi accept <? b1) then (RuneError, 1)
        else if sz <=? 2 then
          (Z.lor (Z.shiftl (Z.land p0 mask2) 6) (Z.land b1 maskx), 2)
        else
          let b2 := at_ p 2 in
          if (b2 <? locb) || (hicb <? b2) then (RuneError, 1)
          else if sz <=? 3 then
            (Z.lor (Z.lor (Z.shiftl (Z.land p0 mask3) 12)
                          (Z.shiftl (Z.land b1 maskx) 6))
                   (Z.land b2 maskx), 3)
          else
            let b3 := at_ p 3 in
            if (b3 <? locb) || (hicb <? b3) then (RuneError, 1)
            else
              (Z.lor (Z.lor (Z.lor (Z.shiftl (Z.land p0 mask4) 18)
                                   (Z.shiftl (Z.land b1 maskx) 12))
                            (Z.shiftl (Z.land b2 maskx) 6))
                     (Z.land b3 maskx), 4).

End utf8.

(** ** decoder.go *)

Record Decoder : Type := mkDecoder {
  Name : string;
  Max : Z;
  FullRune : list byte -> bool;
  DecodeRune : list byte -> Z * Z
}.

Definition UTF8Decoder : Decoder :=
  {| Name := "utf-8";
     Max := utf8.UTFMax;
     FullRune := utf8.FullRune;
     DecodeRune := utf8.DecodeRune |}.

(** ** The byte source

    An [io.Reader] is a state machine: [Read st len] is the call
    [Read(p)] with [len(p) = len] in reader state [st]; it yields the bytes
    stored at the front of [p], the error value and the next state. The
    number [n] that Go's [Read] returns is the number of bytes stored, at
    most [len(p)]. The handle the stream holds counts the calls it makes. *)

Inductive error : Type :=
| EOF
| IOError (msg : string).

Module savedRune.
Record t : Type := mk {
  pos : Position;
  value : Z;
  size : Z;
  err : option error
}.
End savedRune.

Module SavePoint.
Record t : Type := mk { gen : Z; spec : Z }.
End SavePoint.

Definition is_terminal (u : savedRune.t) : bool :=
  match savedRune.err u with Some _ => true | None => false end.

(** [p[lo:lo+len]] of a byte buffer. *)
Definition window (bb : list byte) (w : nat * nat) : list byte :=
  firstn (snd w) (skipn (fst w) bb).

Declare Scope outcome_scope.
Delimit Scope outcome_scope with outcome.
Notation "x <- m ;; k" := (obind m (fun x => k))
  (at level 61, m at next level, right associativity) : outcome_scope.
Notation "' pat <- m ;; k" := (obind m (fun x => match x with pat => k end))
  (at level 61, pat pattern, m at next level, right associativity)
  : outcome_scope.

Section Stream.

Context {R : Type}.
Variable Read : R -> Z -> (list byte * option error) * R.

Record Reader : Type := mkReader {
  rd_state : R;
  rd_calls : nat
}.

Definition Reader_Read (rd : Reader) (len : Z)
  : list byte * option error * Reader :=
  let '(data, e, st) := Read (rd_state rd) len in
  (firstn (Z.to_nat len) data, e,
   {| rd_state := st; rd_calls := S (rd_calls rd) |}).

(** *** Options and RuneStream *)

(** [Decoder_] is the field [Decoder] of the Go struct ([None]: nil); the
    name without the underscore is the interface type. *)
Record Options : Type := mkOptions {
  BlockSize : Z;
  Decoder_ : option Decoder
}.

(** [r] and [d] are interface values ([None]: nil). [b] is the slice
    header of the pending view: offset into [bb] and length. [curr] points
    into [buf], whose elements are never overwritten: it is kept as the
    element it points at. *)
Record RuneStream : Type := mkRuneStream {
  r : option Reader;
  d : option Decoder;
  bs : Z;
  bb : list byte;
  b : nat * nat;
  pos : Position;
  buf : list savedRune.t;
  curr : option savedRune.t;
  gen : Z;
  spec : Z
}.

(** The zero-valued RuneStream that [New] allocates. *)
Definition zero_RuneStream : RuneStream :=
  {| r := None; d := None; bs := 0; bb := []; b := (0, 0)%nat;
     pos := {| Offset := 0; Line := 0; Column := 0; SkipNextLF := false |};
     buf := []; curr := None; gen := 0; spec := 0 |}.

Definition with_b (s : RuneStream) (v : nat * nat) : RuneStream :=
  {| r := r s; d := d s; bs := bs s; bb := bb s; b := v; pos := pos s;
     buf := buf s; curr := curr s; gen := gen s; spec := spec s |}.

Definition with_pos (s : RuneStream) (v : Position) : RuneStream :=
  {| r := r s; d := d s; bs := bs s; bb := bb s; b := b s; pos := v;
     buf := buf s; curr := curr s; gen := gen s; spec := spec s |}.

Definition with_buf (s : RuneStream) (v : list savedRune.t) : RuneStream :=
  {| r := r s; d := d s; bs := bs s; bb := bb s; b := b s; pos := pos s;
     buf := v; curr := curr s; gen := gen s; spec := spec s |}.

Definition with_curr (s : RuneStream) (v : option savedRune.t) : RuneStream :=
  {| r := r s; d := d s; bs := bs s; bb := bb s; b := b s; pos := pos s;
     buf := buf s; curr := v; gen := gen s; spec := spec s |}.

Definition with_gen (s : RuneStream) (v : Z) : RuneStream :=
  {| r := r s; d := d s; bs := bs s; bb := bb s; b := b s; pos := pos s;
     buf := buf s; curr := curr s; gen := v; spec := spec s |}.

Definition with_spec (s : RuneStream) (v : Z) : RuneStream :=
  {| r := r s; d := d s; bs := bs s; bb := bb s; b := b s; pos := pos s;
     buf := buf s; curr := curr s; gen := gen s; spec := v |}.

Definition with_io (s : RuneStream) (rd : Reader) (buffer : list byte)
  : RuneStream :=
  {| r := Some rd; d := d s; bs := bs s; bb := buffer; b := b s;
     pos := pos s; buf := buf s; curr := curr s; gen := gen s;
     spec := spec s |}.

(** The bytes of the pending view [stream.b]. *)
Definition pending (s : RuneStream) : list byte := window (bb s) (b s).

Local Open Scope outcome_scope.

(** [make([]byte, n)]: only the failure on a negative length is
    modelled, not the exhaustion of memory. *)
Definition make_bytes (n : Z) : outcome (list byte) :=
  if n <? 0 then Panic "makeslice: len out of range"
  else Ret (repeat x00 (Z.to_nat n)).

Definition RuneStream_Init (stream : RuneStream) (rd : option Reader)
           (o : Options) : outcome RuneStream :=
  let bs0 := BlockSize o in
  if bs0 <? 0 then Panic "BlockSize < 0"
  else
    let bs1 := if bs0 =? 0 then 4096 else bs0 in
    let d1 := match Decoder_ o with Some d0 => d0 | None => UTF8Decoder end in
    let max := Max d1 in
    if max <? 1 then Panic "Decoder returned Max() < 1"
    else
      let bbsz := int64 (bs1 + max) in
      bb1 <- (if Z.of_nat (length (bb stream)) =? bbsz
              then Ret (bb stream) else make_bytes bbsz) ;;
      Ret {| r := rd; d := Some d1; bs := bs1; bb := bb1; b := (0, 0)%nat;
             pos := Position_Reset (pos stream); buf := []; curr := None;
             gen := u64 (gen stream + 1); spec := 0 |}.

Definition New (rd : option Reader) (o : Options) : outcome RuneStream :=
  RuneStream_Init zero_RuneStream rd o.

Definition NewRuneStream (rd : option Reader) : outcome RuneStream :=
  New rd {| BlockSize := 0; Decoder_ := None |}.

Definition RuneStream_Reset (stream : RuneStream) (rd : option Reader)
  : outcome RuneStream :=
  RuneStream_Init stream rd {| BlockSize := 0; Decoder_ := None |}.

Definition RuneStream_BlockSize (stream : RuneStream) : Z := bs stream.

Definition RuneStream_Decoder (stream : RuneStream) : option Decoder :=
  d stream.

(** *** Save points *)

Definition RuneStream_Save (stream : RuneStream) : SavePoint.t :=
  {| SavePoint.gen := gen stream; SavePoint.spec := spec stream |}.

Definition RuneStream_Restore (stream : RuneStream) (sp : SavePoint.t)
  : outcome RuneStream :=
  if negb (SavePoint.gen sp =? gen stream) then Panic "save point is stale"
  else Ret (with_curr (with_spec stream (SavePoint.spec sp)) None).

Definition RuneStream_Rewind (stream : RuneStream) : RuneStream :=
  with_curr (with_spec stream 0) None.

Definition RuneStream_Commit (stream : RuneStream) : outcome RuneStream :=
  if spec stream >? Z.of_nat (length (buf stream))
  then Panic "slice bounds out of range"
  else
    Ret (with_curr
           (with_spec
              (with_gen
                 (with_buf stream (skipn (Z.to_nat (spec stream)) (buf stream)))
                 (u64 (gen stream + 1)))
              0)
           None).

(** *** load

    The decoding loop of [load]. Every iteration consumes [size] bytes of
    the pending view; an iteration with [size = 0] leaves the view and
    the position as they were, so that the Go loop never exits: the fuel
    [S (len(b))] that [load] passes runs out exactly then. *)

Fixpoint decode_loop (fuel : nat) (dcd : Decoder) (stream : RuneStream)
  : outcome RuneStream :=
  if FullRune dcd (pending stream) then
    match fuel with
    | O => Diverge
    | S fuel' =>
        let '(rn, sz) := DecodeRune dcd (pending stream) in
        if (sz <? 0) || (Z.of_nat (snd (b stream)) <? sz)
        then Panic "slice bounds out of range"
        else
          let s1 := with_b stream (fst (b stream) + Z.to_nat sz,
                                   snd (b stream) - Z.to_nat sz)%nat in
          let s2 := with_buf s1
                      (buf s1 ++ [savedRune.mk (pos s1) rn sz None]) in
          pos' <- Position_Advance (pos s2) rn sz ;;
          decode_loop fuel' dcd (with_pos s2 pos')
    end
  else Ret stream.

Definition load (stream : RuneStream) : outcome RuneStream :=
  if Z.of_nat (length (buf stream)) >=? 0x40000000
  then Panic "too many calls to Advance() without Commit()"
  else
    let x := snd (b stream) in
    let y := int64 (Z.of_nat x + bs stream) in
    let cap := Z.of_nat (length (bb stream)) in
    if Z.of_nat x >? cap then Panic "slice bounds out of range"
    else
      let bb1 := pending stream ++ skipn x (bb stream) in
      if (Z.of_nat x >? y) || (y >? cap)
      then Panic "slice bounds out of range"
      else
        match r stream with
        | None => Panic "invalid memory address or nil pointer dereference"
        | Some rd =>
            let '(data, e, rd') := Reader_Read rd (y - Z.of_nat x) in
            let n := length data in
            let bb2 := firstn x bb1 ++ data ++ skipn (x + n) bb1 in
            let s1 := with_b (with_io stream rd' bb2) (0, x + n)%nat in
            match d stream with
            | None =>
                Panic "invalid memory address or nil pointer dereference"
            | Some dcd =>
                s2 <- decode_loop (S (x + n)) dcd s1 ;;
                match e with
                | Some e' =>
                    Ret (with_buf s2
                           (buf s2 ++ [savedRune.mk (pos s2) 0 0 (Some e')]))
                | None => Ret s2
                end
            end
        end.

(** *** The cursor

    [curr] points at an element of [buf]; elements are written once, when
    they are appended, so the pointer is modelled by the element. *)

Definition RuneStream_Advance (stream : RuneStream)
  : outcome (bool * RuneStream) :=
  if match curr stream with
     | Some c => is_terminal c
     | None => false
     end
  then Ret (false, stream)
  else
    s1 <- (if spec stream >=? Z.of_nat (length (buf stream))
           then load stream else Ret stream) ;;
    match nth_error (buf s1) (Z.to_nat (spec s1)) with
    | None => Panic "index out of range"
    | Some c =>
        Ret (negb (is_terminal c),
             with_spec (with_curr s1 (Some c)) (u64 (spec s1 + 1)))
    end.

Definition deref (stream : RuneStream) : outcome savedRune.t :=
  match curr stream with
  | Some c => Ret c
  | None => Panic "invalid memory address or nil pointer dereference"
  end.

Definition RuneStream_Rune (stream : RuneStream) : outcome Z :=
  c <- deref stream ;; Ret (savedRune.value c).

Definition RuneStream_Size (stream : RuneStream) : outcome Z :=
  c <- deref stream ;; Ret (savedRune.size c).

Definition RuneStream_Position (stream : RuneStream) : outcome Position :=
  c <- deref stream ;; Ret (savedRune.pos c).

Definition RuneStream_Err (stream : RuneStream) : outcome (option error) :=
  c <- deref stream ;; Ret (savedRune.err c).

(** *** Predicate combinators *)

Definition RuneStream_Take (stream : RuneStream) (pred : Z -> bool)
  : outcome (Z * bool * RuneStream) :=
  let sp := RuneStream_Save stream in
  '(ok, s1) <- RuneStream_Advance stream ;;
  matched <- (if ok then c <- deref s1 ;; Ret (pred (savedRune.value c))
              else Ret false) ;;
  if matched then c <- deref s1 ;; Ret (savedRune.value c, true, s1)
  else
    s2 <- RuneStream_Restore s1 sp ;;
    Ret (0, false, s2).

(** The loop of [TakeWhile]; [fuel] bounds the number of iterations. *)
Fixpoint TakeWhile_loop (fuel : nat) (max count : Z) (out : list Z)
         (pred : Z -> bool) (sp : SavePoint.t) (stream : RuneStream)
  : outcome (list Z * SavePoint.t * RuneStream) :=
  if (max <? 0) || (count <? max) then
    match fuel with
    | O => Diverge
    | S fuel' =>
        '(ok, s1) <- RuneStream_Advance stream ;;
        if negb ok then Ret (out, sp, s1)
        else
          c <- deref s1 ;;
          if negb (pred (savedRune.value c)) then Ret (out, sp, s1)
          else
            TakeWhile_loop fuel' max (int64 (count + 1))
                           (out ++ [savedRune.value c]) pred
                           (RuneStream_Save s1) s1
    end
  else Ret (out, sp, stream).

Definition RuneStream_TakeWhile (fuel : nat) (stream : RuneStream)
           (max : Z) (out : list Z) (pred : Z -> bool)
  : outcome (list Z * RuneStream) :=
  let sp := RuneStream_Save stream in
  '(out', sp', s1) <- TakeWhile_loop fuel max 0 out pred sp stream ;;
  s2 <- RuneStream_Restore s1 sp' ;;
  Ret (out', s2).

Definition RuneStream_TakeUntil (fuel : nat) (stream : RuneStream)
           (max : Z) (out : list Z) (pred : Z -> bool)
  : outcome (list Z * RuneStream) :=
  RuneStream_TakeWhile fuel stream max out (fun rn => negb (pred rn)).

End Stream.

Arguments Reader R : clear implicits.
Arguments RuneStream R : clear implicits.

(** ** Drivers: sequences of calls on one stream *)

Inductive op : Type :=
| OpAdvance
| OpSave
| OpRestore (sp : SavePoint.t)
| OpRewind
| OpCommit.

Definition is_commit (o : op) : bool :=
  match o with OpCommit => true | _ => false end.

Section Drivers.

Context {R : Type}.
Variable Read : R -> Z -> (list byte * option error) * R.

Local Open Scope outcome_scope.

Definition step_op (o : op) (stream : RuneStream R)
  : outcome (RuneStream R) :=
  match o with
  | OpAdvance => '(_, s1) <- RuneStream_Advance Read stream ;; Ret s1
  | OpSave => let _ := RuneStream_Save stream in Ret stream
  | OpRestore sp => RuneStream_Restore stream sp
  | OpRewind => Ret (RuneStream_Rewind stream)
  | OpCommit => RuneStream_Commit stream
  end.

Fixpoint run_ops (ops : list op) (stream : RuneStream R)
  : outcome (RuneStream R) :=
  match ops with
  | [] => Ret stream
  | o :: rest => s1 <- step_op o stream ;; run_ops rest s1
  end.

(** The units that a call removes from the log ([Commit] drops
    [buf[0:spec]]). *)
Definition dropped_by (o : op) (stream : RuneStream R) : list savedRune.t :=
  match o with
  | OpCommit => firstn (Z.to_nat (spec stream)) (buf stream)
  | _ => []
  end.

(** [run_ops] that also collects, in order, the units dropped on the
    way. *)
Fixpoint run_hist (ops : list op) (stream : RuneStream R)
         (hist : list savedRune.t)
  : outcome (RuneStream R * list savedRune.t) :=
  match ops with
  | [] => Ret (stream, hist)
  | o :: rest =>
      s1 <- step_op o stream ;;
      run_hist rest s1 (hist ++ dropped_by o stream)
  end.

(** [n] calls of [Advance()], results discarded. *)
Fixpoint advances (n : nat) (stream : RuneStream R)
  : outcome (RuneStream R) :=
  match n with
  | O => Ret stream
  | S n' => '(_, s1) <- RuneStream_Advance Read stream ;; advances n' s1
  end.

(** What a caller sees of one step: the result of [Advance()] and then
    [Rune()], [Size()] and [Position()]. *)
Definition observe1 (stream : RuneStream R)
  : outcome (bool * Z * Z * Position * RuneStream R) :=
  '(ok, s1) <- RuneStream_Advance Read stream ;;
  rn <- RuneStream_Rune s1 ;;
  sz <- RuneStream_Size s1 ;;
  p <- RuneStream_Position s1 ;;
  Ret (ok, rn, sz, p, s1).

Inductive event : Type :=
| EvUnit (ok : bool) (rn sz : Z) (p : Position)
| EvPanic (msg : string)
| EvDiverge.

(** The observations of [k] further steps; a panic ends them. *)
Fixpoint observe (k : nat) (stream : RuneStream R) : list event :=
  match k with
  | O => []
  | S k' =>
      match observe1 stream with
      | Ret (ok, rn, sz, p, s1) => EvUnit ok rn sz p :: observe k' s1
      | Panic msg => [EvPanic msg]
      | Diverge => [EvDiverge]
      end
  end.

End Drivers.

(** ** Concrete byte sources *)

(** [strings.Reader] and [bytes.Reader]: the state is the unread rest. *)
Definition strings_Read (rest : list byte) (len : Z)
  : (list byte * option error) * list byte :=
  match rest with
  | [] => (([], Some EOF), [])
  | _ => ((firstn (Z.to_nat len) rest, None), skipn (Z.to_nat len) rest)
  end.

(** A source that answers its calls from a script, one entry per call, and
    reports the end of data once the script is used up: a file that another
    process appends to, a socket with short reads or a read deadline. *)
Definition script_Read (script : list (list byte * option error)) (len : Z)
  : (list byte * option error) * list (list byte * option error) :=
  match script with
  | [] => (([], Some EOF), [])
  | answer :: rest => (answer, rest)
  end.

Definition handle {R : Type} (st : R) : option (Reader R) :=
  Some {| rd_state := st; rd_calls := 0 |}.

(** ** Well-formed UTF-8 (Unicode Standard, table 3-7)

    The reference against which "invalid encoding" is read:
    [wellformed_len p] is the length of the well-formed byte sequence at
    the front of [p], if there is one. *)

Definition between (lo hi c : Z) : bool := (lo <=? c) && (c <=? hi).

Definition outside (lo hi c : Z) : bool := (c <? lo) || (hi <? c).

(** Length that the first byte announces (0: not a leading byte of a
    multi-byte sequence). *)
Definition wf_want (c0 : Z) : Z :=
  if between 0xC2 0xDF c0 then 2
  else if between 0xE0 0xEF c0 then 3
  else if between 0xF0 0xF4 c0 then 4
  else 0.

(** Bounds of the second byte, which depend on the first. *)
Definition wf_second_lo (c0 : Z) : Z :=
  if c0 =? 0xE0 then 0xA0 else if c0 =? 0xF0 then 0x90 else 0x80.

Definition wf_second_hi (c0 : Z) : Z :=
  if c0 =? 0xED then 0x9F else if c0 =? 0xF4 then 0x8F else 0xBF.

Definition wellformed_len (p : list byte) : option Z :=
  match map byteZ p with
  | [] => None
  | c0 :: rest =>
      if between 0x00 0x7F c0 then Some 1
      else if wf_want c0 =? 0 then None
      else
        match rest with
        | [] => None
        | c1 :: rest1 =>
            if outside (wf_second_lo c0) (wf_second_hi c0) c1 then None
            else if wf_want c0 <=? 2 then Some 2
            else
              match rest1 with
              | [] => None
              | c2 :: rest2 =>
                  if outside 0x80 0xBF c2 then None
                  else if wf_want c0 <=? 3 then Some 3
                  else
                    match rest2 with
                    | [] => None
                    | c3 :: _ =>
                        if outside 0x80 0xBF c3 then None else Some 4
                    end
              end
        end
  end.

Definition sum_sizes (l : list savedRune.t) : Z :=
  fold_right (fun u acc => savedRune.size u + acc) 0 l.

(** ** Predicates used in the statements *)

(** A decoder that keeps its contract: a full rune is decoded with a size
    between 1 and the number of bytes it was given. *)
Definition decoder_ok (dcd : Decoder) : Prop :=
  forall p, FullRune dcd p = true ->
            1 <= snd (DecodeRune dcd p) <= Z.of_nat (length p).

(** The units of [l] start at offset [o] and follow one another: each
    starts where the one before it ended. *)
Fixpoint offsets_from (o : Z) (l : list savedRune.t) : Prop :=
  match l with
  | [] => True
  | u :: rest =>
      Offset (savedRune.pos u) = o /\
      0 <= savedRune.size u /\
      (is_terminal u = false -> 1 <= savedRune.size u) /\
      offsets_from (u64 (o + savedRune.size u)) rest
  end.

(** The offset reached after the units of [l], in [uint64] arithmetic. *)
Definition end_offset (o : Z) (l : list savedRune.t) : Z :=
  fold_left (fun acc u => u64 (acc + savedRune.size u)) l o.

(** The state of a stream that decodes UTF-8, as [Init] leaves it and
    every operation keeps it. *)
Definition stream_wf {R : Type} (s : RuneStream R) : Prop :=
  d s = Some UTF8Decoder /\
  0 < bs s /\ bs s + utf8.UTFMax <= maxInt /\
  Z.of_nat (length (bb s)) = bs s + utf8.UTFMax /\
  (fst (b s) + snd (b s) <= length (bb s))%nat /\
  utf8.FullRune (pending s) = false.

(** The current unit is a terminal one. *)
Definition at_terminal {R : Type} (s : RuneStream R) : bool :=
  match curr s with
  | Some c => is_terminal c
  | None => false
  end.

(** What [Restore] and [Rewind] do to the cursor: [spec] is set and the
    current-unit pointer cleared. *)
Definition reset {R : Type} (s : RuneStream R) (k : Z) : RuneStream R :=
  with_curr (with_spec s k) None.

Definition commits (ops : list op) : Z :=
  Z.of_nat (length (filter is_commit ops)).

(** The calls under which a log that ends in a terminal unit keeps it as
    its last entry and is not extended: [Restore] only to a save point of
    the current generation before the end of the log, and [Commit] only
    with the cursor before the end of the log (a [Commit] with the cursor
    at the end drops the whole log, the terminal unit included). *)
Definition keeps_log {R : Type} (s : RuneStream R) (o : op) : bool :=
  match o with
  | OpAdvance | OpSave | OpRewind => true
  | OpRestore sp =>
      (SavePoint.gen sp =? gen s) && (0 <=? SavePoint.spec sp) &&
      (SavePoint.spec sp <? Z.of_nat (length (buf s)))
  | OpCommit => spec s <? Z.of_nat (length (buf s))
  end.

(** [keeps_log] of every call of a run, each in the state that the call is
    made in. *)
Fixpoint keeps_log_run {R : Type}
         (Read : R -> Z -> (list byte * option error) * R)
         (ops : list op) (s : RuneStream R) : bool :=
  match ops with
  | [] => true
  | o :: rest =>
      keeps_log s o &&
      match step_op Read o s with
      | Ret s1 => keeps_log_run Read rest s1
      | _ => true
      end
  end.

Definition advance_or_save (o : op) : bool :=
  match o with
  | OpAdvance | OpSave => true
  | _ => false
  end.

Definition reads_issued {R : Type} (s : RuneStream R) : nat :=
  match r s with
  | Some rd => rd_calls rd
  | None => O
  end.

(** The units saved since [Init] ([hist]: those already committed) have
    the offsets that their sizes give, and the stream decodes UTF-8. *)
Definition log_inv {R : Type} (hist : list savedRune.t) (s : RuneStream R)
  : Prop :=
  stream_wf s /\
  offsets_from 0 (hist ++ buf s) /\
  Offset (pos s) = end_offset 0 (hist ++ buf s).

Definition terminal_of (p : Position) (e : option error) : list savedRune.t :=
  match e with
  | Some e' => [savedRune.mk p 0 0 (Some e')]
  | None => []
  end.

Definition decoder_of (o_dec : option Decoder) : Decoder :=
  match o_dec with
  | Some d0 => d0
  | None => UTF8Decoder
  end.

Definition block_size_of (n : Z) : Z := if n =? 0 then 4096 else n.

(** ** The first byte of a UTF-8 sequence *)

(** What the table [first] says of a first byte, checked on all 256
    bytes. *)
Definition first_kindb (z x : Z) : bool :=
  if x =? utf8.as_ then between 0x00 0x7F z
  else if x =? utf8.xx then negb (between 0x00 0x7F z) && (wf_want z =? 0)
  else
    negb (between 0x00 0x7F z) && (x <? utf8.as_) &&
    (wf_want z =? Z.land x 7) && between 2 4 (Z.land x 7) &&
    (wf_second_lo z =? utf8.lo (utf8.accept_of x)) &&
    (wf_second_hi z =? utf8.hi (utf8.accept_of x)).

Inductive first_spec (z x : Z) : Prop :=
| first_ascii :
    x = utf8.as_ -> between 0x00 0x7F z = true -> first_spec z x
| first_invalid :
    x = utf8.xx -> between 0x00 0x7F z = false -> wf_want z = 0 ->
    first_spec z x
| first_lead :
    (x >=? utf8.as_) = false -> between 0x00 0x7F z = false ->
    wf_want z = Z.land x 7 -> 2 <= Z.land x 7 <= 4 ->
    wf_second_lo z = utf8.lo (utf8.accept_of x) ->
    wf_second_hi z = utf8.hi (utf8.accept_of x) -> first_spec z x.

(** ** Concrete streams *)

(** [New(r, Options{})] over a source in state [st]. *)
Definition stream_over {R : Type} (st : R) : RuneStream R :=
  match NewRuneStream (handle st) with
  | Ret s => s
  | _ => zero_RuneStream
  end.

(** The stream after the calls [ops], if they all return. *)
Definition after {R : Type} (Read : R -> Z -> (list byte * option error) * R)
           (ops : list op) (s : RuneStream R) : RuneStream R :=
  match run_ops Read ops s with
  | Ret s' => s'
  | _ => s
  end.

Definition At (offset line column : Z) : Position :=
  {| Offset := offset; Line := line; Column := column; SkipNextLF := false |}.

Definition AtSkip (offset line column : Z) : Position :=
  {| Offset := offset; Line := line; Column := column; SkipNextLF := true |}.

(** The smallest column of the form [8k+1] above [c]. *)
Definition next_tab_stop (c : Z) : Z := 8 * ((c - 1) / 8 + 1) + 1.

Definition unit_at (p : Position) (rn sz : Z) : savedRune.t :=
  savedRune.mk p rn sz None.

Definition eof_at (p : Position) : savedRune.t :=
  savedRune.mk p 0 0 (Some EOF).

(** A file that is at its end at the first read and has grown by the
    second. *)
Definition growing_file : list (list byte * option error) :=
  [ ([], Some EOF); ([x61], None) ].

(** The result of a call of [Advance], if it returns. *)
Definition advanced {R : Type} (m : outcome (bool * RuneStream R))
  : option bool :=
  match m with
  | Ret (ok, _) => Some ok
  | _ => None
  end.

(** The message of a panic. *)
Definition panic_of {A : Type} (m : outcome A) : option string :=
  match m with
  | Panic msg => Some msg
  | _ => None
  end.

(** The stream and the dropped units after the calls [ops]. *)
Definition after_hist {R : Type}
           (Read : R -> Z -> (list byte * option error) * R)
           (ops : list op) (s : RuneStream R)
  : RuneStream R * list savedRune.t :=
  match run_hist Read ops s [] with
  | Ret p => p
  | _ => (s, [])
  end.

Definition default_options : Options := {| BlockSize := 0; Decoder_ := None |}.

(** A decoder that breaks the contract of [Max]. *)
Definition null_decoder : Decoder :=
  {| Name := "null"; Max := 0; FullRune := fun _ => false;
     DecodeRune := fun _ => (0, 0) |}.

(** ** Decoding a byte sequence in one piece

    The reference for what a stream delivers: [decode_units] applies the
    decoder to [p] over and over, as the loop of [load] does to one block,
    and tracks the position with [Position.Advance]. It yields the units,
    the position after them and the bytes left over, which do not hold a
    full rune. The fuel [length p] is enough for a decoder that consumes
    at least one byte per rune. *)

Fixpoint decode_units (fuel : nat) (dcd : Decoder) (pos : Position)
         (p : list byte) : list savedRune.t * Position * list byte :=
  match fuel with
  | O => ([], pos, p)
  | S fuel' =>
      if FullRune dcd p then
        let '(rn, sz) := DecodeRune dcd p in
        match Position_Advance pos rn sz with
        | Ret pos' =>
            let '(units, pos'', rest) :=
              decode_units fuel' dcd pos' (skipn (Z.to_nat sz) p) in
            (savedRune.mk pos rn sz None :: units, pos'', rest)
        | _ => ([], pos, p)
        end
      else ([], pos, p)
  end.

Definition units_of (dcd : Decoder) (pos : Position) (p : list byte)
  : list savedRune.t :=
  fst (fst (decode_units (length p) dcd pos p)).

Definition pos_after (dcd : Decoder) (pos : Position) (p : list byte)
  : Position :=
  snd (fst (decode_units (length p) dcd pos p)).

Definition left_over (dcd : Decoder) (pos : Position) (p : list byte)
  : list byte :=
  snd (decode_units (length p) dcd pos p).

(** A decoder for which more input does not change the first rune: what
    is full stays full and decodes to the same rune. *)
Definition decoder_stable (dcd : Decoder) : Prop :=
  forall p q, FullRune dcd p = true ->
              FullRune dcd (p ++ q) = true /\
              DecodeRune dcd (p ++ q) = DecodeRune dcd p.

(** [b] is a slice of [bb]. *)
Definition window_ok {R : Type} (s : RuneStream R) : Prop :=
  (fst (b s) + snd (b s) <= length (bb s))%nat.

(** A decoder that is never short of input once it has [Max()] bytes. *)
Definition decoder_short (dcd : Decoder) : Prop :=
  forall p, FullRune dcd p = false -> Z.of_nat (length p) < Max dcd.

(** The state of a stream that decodes with [dcd], as [Init] leaves it
    and every operation keeps it ([stream_wf] is the case of
    [UTF8Decoder]). *)
Definition stream_ok {R : Type} (dcd : Decoder) (s : RuneStream R) : Prop :=
  d s = Some dcd /\
  0 < bs s /\ bs s + Max dcd <= maxInt /\
  Z.of_nat (length (bb s)) = bs s + Max dcd /\
  window_ok s /\
  FullRune dcd (pending s) = false.

(** ** The loop of the tests and of the README

    [Item] is the record of the tests; [StreamRunes_loop] is the loop

      for stream.Advance() { ...Rune(), Size(), Position()...; stream.Commit() }

    of [TestRuneStream_loop], [TestRuneStream_boundary] and [StreamRunes],
    which collects what it reads; [fuel] bounds the number of
    iterations. *)

Record Item : Type := mkItem {
  Rune : Z;
  Size : Z;
  Pos : Position
}.

Definition item_of (u : savedRune.t) : Item :=
  {| Rune := savedRune.value u; Size := savedRune.size u;
     Pos := savedRune.pos u |}.

Section Loops.

Context {R : Type}.
Variable Read : R -> Z -> (list byte * option error) * R.

Local Open Scope outcome_scope.

Fixpoint StreamRunes_loop (fuel : nat) (stream : RuneStream R)
         (actual : list Item) : outcome (list Item * RuneStream R) :=
  match fuel with
  | O => Diverge
  | S fuel' =>
      '(ok, s1) <- RuneStream_Advance Read stream ;;
      if ok then
        rn <- RuneStream_Rune s1 ;;
        sz <- RuneStream_Size s1 ;;
        p <- RuneStream_Position s1 ;;
        s2 <- RuneStream_Commit s1 ;;
        StreamRunes_loop fuel' s2 (actual ++ [mkItem rn sz p])
      else Ret (actual, s1)
  end.

(** [StreamRunes] from the point where the file is open: the arguments of
    the calls of [callback], in order, and the error returned. *)
Definition StreamRunes (fuel : nat) (f : option (Reader R))
  : outcome (list Item * option error) :=
  stream <- NewRuneStream f ;;
  '(calls, s1) <- StreamRunes_loop fuel stream [] ;;
  e <- RuneStream_Err s1 ;;
  Ret (calls, match e with Some EOF => None | _ => e end).

End Loops.

(** ** States that read alike

    [orel P] relates two calls that end alike: both return, with results
    related by [P], or both panic with the same message, or both loop.

    [same_view n s t]: the stream [t] is [s] with the first [n] units of
    the log dropped, as [Commit] drops them; the two may also differ in the
    generation and in the bytes of the buffer outside the pending view,
    which no operation reads. *)

Definition orel {A B : Type} (P : A -> B -> Prop)
           (m1 : outcome A) (m2 : outcome B) : Prop :=
  match m1, m2 with
  | Ret a, Ret b => P a b
  | Panic x, Panic y => x = y
  | Diverge, Diverge => True
  | _, _ => False
  end.

Definition io_same {R : Type} (s t : RuneStream R) : Prop :=
  r t = r s /\ d t = d s /\ bs t = bs s /\
  length (bb t) = length (bb s) /\ snd (b t) = snd (b s) /\
  window_ok s /\ window_ok t /\ pending t = pending s /\
  pos t = pos s.

Definition log_same {R : Type} (n : nat) (s t : RuneStream R) : Prop :=
  buf t = skipn n (buf s) /\ (n <= length (buf s))%nat.

Definition same_view {R : Type} (n : nat) (s t : RuneStream R) : Prop :=
  io_same s t /\ log_same n s t /\
  spec s = spec t + Z.of_nat n /\ (n = O \/ 0 <= spec t) /\
  at_terminal t = at_terminal s /\
  (at_terminal s = true -> curr t = curr s).

(** All the events are units read: no panic, no endless loop. *)
Definition clean (l : list event) : bool :=
  forallb (fun e => match e with EvUnit _ _ _ _ => true | _ => false end) l.

(** What the types of Go give of a stream: [spec] is a [uint], the
    lengths of the slices are [int]s and [b] is a slice of [bb]. *)
Definition representable {R : Type} (s : RuneStream R) : Prop :=
  0 <= spec s < 2 ^ 64 /\
  Z.of_nat (length (buf s)) <= maxInt /\
  Z.of_nat (length (bb s)) <= maxInt /\
  window_ok s.

(** ** Unicode scalar values

    A rune that stands for a character: a code point up to U+10FFFF that
    is not a surrogate. [rune_len] is the number of bytes of its UTF-8
    encoding, the shortest one. *)

Definition scalar_value (rn : Z) : Prop :=
  0 <= rn <= 0x10FFFF /\ ~ (0xD800 <= rn <= 0xDFFF).

Definition rune_len (rn : Z) : Z :=
  if rn <? 0x80 then 1
  else if rn <? 0x800 then 2
  else if rn <? 0x10000 then 3
  else 4.

(** The message of Go's nil-pointer panic. *)
Definition nil_dereference : string :=
  "invalid memory address or nil pointer dereference".

(** A terminal unit carries no rune: its value and its size are zero. *)
Definition terminal_is_zero (u : savedRune.t) : Prop :=
  is_terminal u = true -> savedRune.value u = 0 /\ savedRune.size u = 0.

(** [P] holds of every unit of the log and of the current one. *)
Definition log_all {R : Type} (P : savedRune.t -> Prop) (s : RuneStream R)
  : Prop :=
  Forall P (buf s) /\ forall c, curr s = Some c -> P c.

(** [P] holds of the units that the decoder of the stream and an error of
    the reader give rise to. *)
Definition made_units {R : Type} (P : savedRune.t -> Prop)
           (s : RuneStream R) : Prop :=
  (forall dcd q p,
      d s = Some dcd -> FullRune dcd q = true ->
      P (savedRune.mk p (fst (DecodeRune dcd q)) (snd (DecodeRune dcd q))
                      None)) /\
  (forall p e, P (savedRune.mk p 0 0 (Some e))).

(** What a rune decoded from UTF-8 is like. *)
Definition utf8_unit (u : savedRune.t) : Prop :=
  is_terminal u = false ->
  scalar_value (savedRune.value u) /\
  (savedRune.size u = rune_len (savedRune.value u) \/
   (savedRune.value u = utf8.RuneError /\ savedRune.size u = 1)).

(** ** position.go: String and runs of Advance *)

(** [%d] of [fmt.Sprintf] on a [uint64]: the decimal digits, with no sign
    and no leading zero. The formatting is the standard library's; the
    digits are those of [N.to_uint]. *)
Definition decimal (n : Z) : string :=
  NilZero.string_of_uint (N.to_uint (Z.to_N n)).

Definition Position_String (pos : Position) : string :=
  ("line " ++ decimal (Line pos) ++ " column " ++ decimal (Column pos)
   ++ " (byte offset " ++ decimal (Offset pos) ++ ")")%string.

(** The fields of a [Position] are [uint64]s. *)
Definition Position_ok (pos : Position) : Prop :=
  0 <= Offset pos < 2 ^ 64 /\ 0 <= Line pos < 2 ^ 64 /\
  0 <= Column pos < 2 ^ 64.

(** [pos.Advance(ch, size)] for each rune of a text in turn. *)
Fixpoint Position_Advance_all (pos : Position) (text : list (Z * Z))
  : outcome Position :=
  match text with
  | [] => Ret pos
  | (ch, size) :: rest =>
      obind (Position_Advance pos ch size)
            (fun pos' => Position_Advance_all pos' rest)
  end.

(** The line breaks of a text: every CR, and every LF that does not
    follow a CR. [after_cr] tells whether the rune before the text was a
    CR. *)
Fixpoint line_breaks (after_cr : bool) (text : list Z) : Z :=
  match text with
  | [] => 0
  | ch :: rest =>
      (if (ch =? rune_CR) || ((ch =? rune_LF) && negb after_cr)
       then 1 else 0)
      + line_breaks (ch =? rune_CR) rest
  end.

Definition is_digit (c : ascii) : bool :=
  (48 <=? nat_of_ascii c)%nat && (nat_of_ascii c <=? 57)%nat.

Fixpoint all_digits (s : string) : bool :=
  match s with
  | EmptyString => true
  | String c rest => is_digit c && all_digits rest
  end.

(** ** The tests' byte source: ZeroReader

    [copy dst src] is the contents of [dst] after Go's [copy(dst, src)].
    [ZeroReader_fill] is the contents of [p] after the loop of [Read] and
    the copy that follows it; the loop runs at most [len(p) / 4096]
    times. *)

Record ZeroReader : Type := mkZeroReader { zeroes : list byte }.

(** [new(ZeroReader)]. *)
Definition new_ZeroReader : ZeroReader :=
  {| zeroes := repeat x00 4096 |}.

Definition copy (dst src : list byte) : list byte :=
  firstn (Nat.min (length dst) (length src)) src
  ++ skipn (Nat.min (length dst) (length src)) dst.

Fixpoint ZeroReader_fill (fuel : nat) (rdr : ZeroReader) (p : list byte)
  : list byte :=
  if (4096 <? length p)%nat then
    match fuel with
    | O => p
    | S fuel' =>
        copy (firstn 4096 p) (zeroes rdr)
        ++ ZeroReader_fill fuel' rdr (skipn 4096 p)
    end
  else copy p (firstn (length p) (zeroes rdr)).

(** [Read(p)]: the contents of [p] afterwards, and the two results. *)
Definition ZeroReader_Read (rdr : ZeroReader) (p : list byte)
  : list byte * Z * option error :=
  (ZeroReader_fill (length p) rdr p, Z.of_nat (length p), None).

(** The reader as the stream sees it: it is handed a slice of the
    buffer, of which only the length matters. *)
Definition ZeroReader_source (rdr : ZeroReader) (len : Z)
  : (list byte * option error) * ZeroReader :=
  let '(data, n, e) := ZeroReader_Read rdr (repeat x01 (Z.to_nat len)) in
  ((firstn (Z.to_nat n) data, e), rdr).

(** The loop of [BenchmarkRuneStream_advance]: [n] times [Advance()] and
    [Commit()]. *)
Definition benchmark_ops (n : nat) : list op :=
  concat (repeat [OpAdvance; OpCommit] n).

(** A unit for the rune U+0000, one byte long. *)
Definition zero_unit (u : savedRune.t) : Prop :=
  savedRune.value u = 0 /\ savedRune.size u = 1 /\ savedRune.err u = None.

(** ** The first version of the stream

    [RuneStream] before it had [Options]: the block size is the constant
    [BlockSize] and the decoding is that of [unicode/utf8]. The other
    methods are those of the later version, on a struct without the fields
    [d] and [bs]. *)

Module v0.

Definition BlockSize : Z := 4096.

Section Stream.

Context {R : Type}.
Variable Read : R -> Z -> (list byte * option error) * R.

Record RuneStream : Type := mkRuneStream {
  r : option (Reader R);
  bb : list byte;
  b : nat * nat;
  pos : Position;
  buf : list savedRune.t;
  curr : option savedRune.t;
  gen : Z;
  spec : Z
}.

Definition pending (s : RuneStream) : list byte := window (bb s) (b s).

Local Open Scope outcome_scope.

Definition NewRuneStream (rd : option (Reader R)) : outcome RuneStream :=
  bb0 <- make_bytes (int64 (BlockSize + utf8.UTFMax)) ;;
  Ret {| r := rd; bb := bb0; b := (0, 0)%nat; pos := MakePosition;
         buf := []; curr := None; gen := 0; spec := 0 |}.

Definition Reset (stream : RuneStream) (rd : option (Reader R))
  : RuneStream :=
  {| r := rd; bb := bb stream; b := (0, 0)%nat;
     pos := Position_Reset (pos stream); buf := []; curr := None;
     gen := u64 (gen stream + 1); spec := 0 |}.

Definition Save (stream : RuneStream) : SavePoint.t :=
  {| SavePoint.gen := gen stream; SavePoint.spec := spec stream |}.

Definition Restore (stream : RuneStream) (sp : SavePoint.t)
  : outcome RuneStream :=
  if negb (SavePoint.gen sp =? gen stream) then Panic "save point is stale"
  else Ret {| r := r stream; bb := bb stream; b := b stream;
              pos := pos stream; buf := buf stream; curr := None;
              gen := gen stream; spec := SavePoint.spec sp |}.

Definition Rewind (stream : RuneStream) : RuneStream :=
  {| r := r stream; bb := bb stream; b := b stream; pos := pos stream;
     buf := buf stream; curr := None; gen := gen stream; spec := 0 |}.

Definition Commit (stream : RuneStream) : outcome RuneStream :=
  if spec stream >? Z.of_nat (length (buf stream))
  then Panic "slice bounds out of range"
  else
    Ret {| r := r stream; bb := bb stream; b := b stream; pos := pos stream;
           buf := skipn (Z.to_nat (spec stream)) (buf stream); curr := None;
           gen := u64 (gen stream + 1); spec := 0 |}.

Fixpoint decode_loop (fuel : nat) (stream : RuneStream)
  : outcome RuneStream :=
  if utf8.FullRune (pending stream) then
    match fuel with
    | O => Diverge
    | S fuel' =>
        let '(rn, sz) := utf8.DecodeRune (pending stream) in
        if (sz <? 0) || (Z.of_nat (snd (b stream)) <? sz)
        then Panic "slice bounds out of range"
        else
          let b1 := (fst (b stream) + Z.to_nat sz,
                     snd (b stream) - Z.to_nat sz)%nat in
          let buf1 := buf stream ++ [savedRune.mk (pos stream) rn sz None] in
          pos' <- Position_Advance (pos stream) rn sz ;;
          decode_loop fuel'
            {| r := r stream; bb := bb stream; b := b1; pos := pos';
               buf := buf1; curr := curr stream; gen := gen stream;
               spec := spec stream |}
    end
  else Ret stream.

Definition load (stream : RuneStream) : outcome RuneStream :=
  if Z.of_nat (length (buf stream)) >=? 0x40000000
  then Panic "too many calls to Advance() without Commit()"
  else
    let x := snd (b stream) in
    let y := int64 (Z.of_nat x + BlockSize) in
    let cap := Z.of_nat (length (bb stream)) in
    if Z.of_nat x >? cap then Panic "slice bounds out of range"
    else
      let bb1 := pending stream ++ skipn x (bb stream) in
      if (Z.of_nat x >? y) || (y >? cap)
      then Panic "slice bounds out of range"
      else
        match r stream with
        | None => Panic "invalid memory address or nil pointer dereference"
        | Some rd =>
            let '(data, e, rd') := Reader_Read Read rd (y - Z.of_nat x) in
            let n := length data in
            let bb2 := firstn x bb1 ++ data ++ skipn (x + n) bb1 in
            s2 <- decode_loop (S (x + n))
                    {| r := Some rd'; bb := bb2; b := (0, x + n)%nat;
                       pos := pos stream; buf := buf stream;
                       curr := curr stream; gen := gen stream;
                       spec := spec stream |} ;;
            match e with
            | Some e' =>
                Ret {| r := r s2; bb := bb s2; b := b s2; pos := pos s2;
                       buf := buf s2 ++ [savedRune.mk (pos s2) 0 0 (Some e')];
                       curr := curr s2; gen := gen s2; spec := spec s2 |}
            | None => Ret s2
            end
        end.

Definition Advance (stream : RuneStream) : outcome (bool * RuneStream) :=
  if match curr stream with
     | Some c => is_terminal c
     | None => false
     end
  then Ret (false, stream)
  else
    s1 <- (if spec stream >=? Z.of_nat (length (buf stream))
           then load stream else Ret stream) ;;
    match nth_error (buf s1) (Z.to_nat (spec s1)) with
    | None => Panic "index out of range"
    | Some c =>
        Ret (negb (is_terminal c),
             {| r := r s1; bb := bb s1; b := b s1; pos := pos s1;
                buf := buf s1; curr := Some c; gen := gen s1;
                spec := u64 (spec s1 + 1) |})
    end.

Definition deref (stream : RuneStream) : outcome savedRune.t :=
  match curr stream with
  | Some c => Ret c
  | None => Panic "invalid memory address or nil pointer dereference"
  end.

Definition Rune (stream : RuneStream) : outcome Z :=
  c <- deref stream ;; Ret (savedRune.value c).

Definition Size (stream : RuneStream) : outcome Z :=
  c <- deref stream ;; Ret (savedRune.size c).

Definition Position (stream : RuneStream) : outcome Position :=
  c <- deref stream ;; Ret (savedRune.pos c).

Definition Err (stream : RuneStream) : outcome (option error) :=
  c <- deref stream ;; Ret (savedRune.err c).

End Stream.

Arguments RuneStream R : clear implicits.

End v0.

(** The stream of the first version as one of the later version: the
    decoder is [UTF8Decoder] and the block size 4096. *)
Definition upgrade {R : Type} (s : v0.RuneStream R) : RuneStream R :=
  {| r := v0.r s; d := Some UTF8Decoder; bs := v0.BlockSize; bb := v0.bb s;
     b := v0.b s; pos := v0.pos s; buf := v0.buf s; curr := v0.curr s;
     gen := v0.gen s; spec := v0.spec s |}.

Definition upgrade_result {R : Type} (x : bool * v0.RuneStream R)
  : bool * RuneStream R :=
  (fst x, upgrade (snd x)).

Definition omap {A B : Type} (f : A -> B) (m : outcome A) : outcome B :=
  obind m (fun a => Ret (f a)).

(** ** Reading a [strings.Reader] to its end

    The state of the loop of [StreamRunes] between two iterations, with
    [rest] the bytes that the reader still holds, and the items that the
    loop has yet to yield from there. *)

Definition loop_inv (dcd : Decoder) (s : RuneStream (list byte))
           (rest : list byte) : Prop :=
  stream_ok dcd s /\ Max dcd <= bs s /\ spec s = 0 /\ curr s = None /\
  Forall (fun u => is_terminal u = false) (buf s) /\
  (exists rd, r s = Some rd /\ rd_state rd = rest) /\
  left_over dcd (pos s) (pending s ++ rest) = [].

Definition future (dcd : Decoder) (s : RuneStream (list byte))
           (rest : list byte) : list Item :=
  map item_of (buf s) ++
  map item_of (units_of dcd (pos s) (pending s ++ rest)).

(** The state of the benchmark loop between two iterations. *)

Definition bench_inv (s : RuneStream ZeroReader) : Prop :=
  stream_ok UTF8Decoder s /\ bs s = 4096 /\ spec s = 0 /\ curr s = None /\
  pending s = [] /\ Forall zero_unit (buf s) /\
  Z.of_nat (length (buf s)) < 0x40000000 /\
  exists rd, r s = Some rd /\ rd_state rd = new_ZeroReader.

(** * Properties *)

(** ** Examples of decoding *)

Example utf8_decode_ascii : utf8.DecodeRune [x61; x62] = (97, 1).
Proof. reflexivity. Qed.

Example utf8_decode_n_tilde : utf8.DecodeRune [xc3; xb1] = (0xF1, 2).
Proof. reflexivity. Qed.

Example utf8_decode_nihon : utf8.DecodeRune [xe6; x97; xa5] = (0x65E5, 3).
Proof. reflexivity. Qed.

Example utf8_decode_bad : utf8.DecodeRune [xff; x41] = (0xFFFD, 1).
Proof. reflexivity. Qed.

Example utf8_full_short : utf8.FullRune [xe6; x97] = false.
Proof. reflexivity. Qed.

Example utf8_full_bad_second : utf8.FullRune [xe6; x41] = true.
Proof. reflexivity. Qed.

(** The table of well-formed sequences on its boundary cases: overlong
    forms, surrogates and code points above U+10FFFF are not well formed. *)
Example wellformed_boundaries :
  map wellformed_len
      [ [x7f]; [x80]; [xc0; x80]; [xc1; xbf]; [xc2; x80]; [xdf; xbf];
        [xe0; x9f; xbf]; [xe0; xa0; x80]; [xed; x9f; xbf]; [xed; xa0; x80];
        [xef; xbf; xbf]; [xf0; x8f; xbf; xbf]; [xf0; x90; x80; x80];
        [xf4; x8f; xbf; xbf]; [xf4; x90; x80; x80]; [xf5; x80; x80; x80];
        [xe6; x97]; [xe6; x97; xa5; x41] ]
  = [ Some 1; None; None; None; Some 2; Some 2;
      None; Some 3; Some 3; None;
      Some 3; None; Some 4;
      Some 4; None; None;
      None; Some 3 ].
Proof. reflexivity. Qed.


(** ** Machine arithmetic *)

Lemma two64 : 2 ^ 64 = 18446744073709551616.
Proof. reflexivity. Qed.

Lemma u64_range (z : Z) : 0 <= u64 z < 2 ^ 64.
Proof. unfold u64. apply Z.mod_pos_bound. rewrite two64. lia. Qed.

Lemma u64_small (z : Z) : 0 <= z < 2 ^ 64 -> u64 z = z.
Proof. intros H. unfold u64. now apply Z.mod_small. Qed.

Lemma u64_add_r (a c : Z) : u64 (a + u64 c) = u64 (a + c).
Proof. unfold u64. rewrite Zplus_mod_idemp_r. reflexivity. Qed.

Lemma u64_add_l (a c : Z) : u64 (u64 a + c) = u64 (a + c).
Proof. unfold u64. rewrite Zplus_mod_idemp_l. reflexivity. Qed.

Lemma u64_succ_neq (g : Z) : 0 <= g < 2 ^ 64 -> u64 (g + 1) <> g.
Proof.
  intros Hg. unfold u64.
  destruct (Z.eq_dec g (2 ^ 64 - 1)) as [->|Hne].
  - vm_compute. discriminate.
  - rewrite Z.mod_small by lia. lia.
Qed.

Lemma int64_small (z : Z) : - 2 ^ 63 <= z < 2 ^ 63 -> int64 z = z.
Proof.
  intros H. unfold int64.
  change (2 ^ 63) with 9223372036854775808 in *.
  rewrite two64. rewrite Z.mod_small; lia.
Qed.

(** ** position.go *)

Lemma Position_Advance_zero (p : Position) (ch : Z) :
  Position_Advance p ch 0 = Ret p.
Proof. reflexivity. Qed.

Lemma Position_Advance_negative (p : Position) (ch size : Z) :
  size < 0 -> Position_Advance p ch size = Panic "negative size".
Proof.
  intros H. unfold Position_Advance.
  destruct (Z.ltb_spec size 0); [reflexivity | lia].
Qed.

Lemma Position_Advance_returns (p : Position) (ch size : Z) :
  0 <= size -> exists p', Position_Advance p ch size = Ret p'.
Proof.
  intros H. unfold Position_Advance.
  destruct (Z.ltb_spec size 0); [lia|].
  destruct (size =? 0); [eauto|].
  destruct (ch =? rune_CR); [eauto|].
  destruct ((ch =? rune_LF) && SkipNextLF p); [eauto|].
  destruct (ch =? rune_LF); [eauto|].
  destruct (ch =? rune_TAB); eauto.
Qed.

Lemma Position_Advance_offset (p p' : Position) (ch size : Z) :
  0 <= size -> Position_Advance p ch size = Ret p' ->
  u64 (Offset p') = u64 (Offset p + size).
Proof.
  intros Hs. unfold Position_Advance.
  destruct (Z.ltb_spec size 0); [lia|].
  destruct (Z.eqb_spec size 0) as [->|Hnz].
  - intros [= <-]. now rewrite Z.add_0_r.
  - assert (Hoff : u64 (u64 (Offset p + u64 size)) = u64 (Offset p + size)).
    { rewrite u64_add_r. apply u64_small. apply u64_range. }
    destruct (ch =? rune_CR); [intros [= <-]; exact Hoff|].
    destruct ((ch =? rune_LF) && SkipNextLF p); [intros [= <-]; exact Hoff|].
    destruct (ch =? rune_LF); [intros [= <-]; exact Hoff|].
    destruct (ch =? rune_TAB); intros [= <-]; exact Hoff.
Qed.

Lemma Position_Advance_CR (p : Position) (size : Z) :
  0 < size ->
  Position_Advance p rune_CR size =
  Ret {| Offset := u64 (Offset p + size); Line := u64 (Line p + 1);
         Column := 1; SkipNextLF := true |}.
Proof.
  intros H. unfold Position_Advance.
  destruct (Z.ltb_spec size 0); [lia|].
  destruct (Z.eqb_spec size 0); [lia|].
  rewrite u64_add_r. reflexivity.
Qed.

Lemma Position_Advance_LF_skipped (p : Position) (size : Z) :
  0 < size -> SkipNextLF p = true ->
  Position_Advance p rune_LF size =
  Ret {| Offset := u64 (Offset p + size); Line := Line p;
         Column := Column p; SkipNextLF := false |}.
Proof.
  intros H Hskip. unfold Position_Advance.
  destruct (Z.ltb_spec size 0); [lia|].
  destruct (Z.eqb_spec size 0); [lia|].
  rewrite u64_add_r, Hskip. reflexivity.
Qed.

Lemma Position_Advance_TAB (p : Position) (size : Z) :
  0 < size ->
  Position_Advance p rune_TAB size =
  Ret {| Offset := u64 (Offset p + size); Line := Line p;
         Column := u64 (Column p + u64 (8 - u64 (Column p - 1) mod 8));
         SkipNextLF := false |}.
Proof.
  intros H. unfold Position_Advance.
  destruct (Z.ltb_spec size 0); [lia|].
  destruct (Z.eqb_spec size 0); [lia|].
  rewrite u64_add_r. reflexivity.
Qed.

Lemma tab_column (c : Z) :
  1 <= c <= 2 ^ 64 - 8 ->
  u64 (c + u64 (8 - u64 (c - 1) mod 8)) = 8 * ((c - 1) / 8 + 1) + 1.
Proof.
  intros Hc. rewrite two64 in Hc.
  rewrite (u64_small (c - 1)) by (rewrite two64; lia).
  pose proof (Z.mod_pos_bound (c - 1) 8 ltac:(lia)) as Hm.
  pose proof (Z.div_mod (c - 1) 8 ltac:(lia)) as Hd.
  rewrite (u64_small (8 - _)) by (rewrite two64; lia).
  rewrite u64_small by (rewrite two64; lia).
  lia.
Qed.

(** ** unicode/utf8 *)

Lemma byteZ_range (c : byte) : 0 <= byteZ c <= 255.
Proof. unfold byteZ. pose proof (Byte.to_N_bounded c). lia. Qed.

Lemma first_kind (c : byte) :
  first_kindb (byteZ c) (utf8.first_of (byteZ c)) = true.
Proof. destruct c; vm_compute; reflexivity. Qed.

Lemma first_of_spec (c : byte) :
  first_spec (byteZ c) (utf8.first_of (byteZ c)).
Proof.
  pose proof (first_kind c) as H. unfold first_kindb in H.
  destruct (Z.eqb_spec (utf8.first_of (byteZ c)) utf8.as_) as [Ha|Ha].
  - now apply first_ascii.
  - destruct (Z.eqb_spec (utf8.first_of (byteZ c)) utf8.xx) as [Hx|Hx].
    + apply andb_true_iff in H as [H1 H2].
      apply first_invalid;
        [assumption | now apply negb_true_iff | now apply Z.eqb_eq].
    + repeat (apply andb_true_iff in H as [H ?]).
      apply negb_true_iff in H.
      apply first_lead; try (now apply Z.eqb_eq); try assumption.
      * rewrite Z.geb_leb. apply Z.leb_gt. now apply Z.ltb_lt.
      * unfold between in *. lia.
Qed.

Ltac to_props :=
  unfold between, outside in *;
  repeat match goal with
  | H : (_ || _) = true |- _ => apply orb_true_iff in H
  | H : (_ || _) = false |- _ => apply orb_false_iff in H; destruct H
  | H : (_ && _) = true |- _ => apply andb_true_iff in H; destruct H
  | H : (_ && _) = false |- _ => apply andb_false_iff in H
  | H : negb _ = true |- _ => apply negb_true_iff in H
  | H : negb _ = false |- _ => apply negb_false_iff in H
  | H : (_ <? _) = true |- _ => apply Z.ltb_lt in H
  | H : (_ <? _) = false |- _ => apply Z.ltb_ge in H
  | H : (_ <=? _) = true |- _ => apply Z.leb_le in H
  | H : (_ <=? _) = false |- _ => apply Z.leb_gt in H
  | H : (_ =? _) = true |- _ => apply Z.eqb_eq in H
  | H : (_ =? _) = false |- _ => apply Z.eqb_neq in H
  | H : (_ >? _) = _ |- _ => rewrite Z.gtb_ltb in H
  | H : (_ >=? _) = _ |- _ => rewrite Z.geb_leb in H
  end.

(** Case split on the outermost undecided condition of the goal. *)
Ltac split_if :=
  match goal with
  | |- context [if ?c then _ else _] =>
      lazymatch c with
      | context [if _ then _ else _] => fail
      | _ => let E := fresh "E" in destruct c eqn:E; cbv beta iota
      end
  end.

Ltac paths :=
  repeat split_if;
  try solve [to_props; repeat split; intros;
             (reflexivity || discriminate || lia)].

Lemma decode_invalid_rune (z : Z) :
  Z.lor (Z.land z (Z.lnot (-1))) (Z.land utf8.RuneError (-1)) = utf8.RuneError.
Proof. change (Z.lnot (-1)) with 0. rewrite Z.land_0_r. reflexivity. Qed.

(** [utf8.FullRune] and [utf8.DecodeRune] against the table of well-formed
    sequences: a well-formed sequence is full and decoded with its length;
    anything else that is full is decoded as [(RuneError, 1)]; what is not
    full is shorter than [UTFMax]. *)
Lemma utf8_decode_spec (p : list byte) :
  p <> [] ->
  match wellformed_len p with
  | Some n =>
      utf8.FullRune p = true /\ snd (utf8.DecodeRune p) = n /\
      1 <= n <= Z.of_nat (length p)
  | None =>
      (utf8.FullRune p = true -> utf8.DecodeRune p = (utf8.RuneError, 1)) /\
      (utf8.FullRune p = false -> Z.of_nat (length p) < 4)
  end.
Proof.
  destruct p as [|c0 rest]; [congruence|]. intros _.
  unfold wellformed_len, utf8.FullRune, utf8.DecodeRune, utf8.at_.
  cbn [map nth].
  destruct (first_of_spec c0) as [Hx Hb|Hx Hb Hw|Hx Hb Hw Hsz Hlo Hhi].
  - rewrite Hx, Hb.
    assert (Hn : 1 <= Z.of_nat (length (c0 :: rest))) by (cbn [length]; lia).
    generalize dependent (Z.of_nat (length (c0 :: rest))). intros n Hn.
    change (Z.land utf8.as_ 7) with 0.
    change (utf8.as_ >=? utf8.as_) with true.
    cbv beta iota. paths.
  - rewrite Hx, Hb, Hw.
    assert (Hn : 1 <= Z.of_nat (length (c0 :: rest))) by (cbn [length]; lia).
    generalize dependent (Z.of_nat (length (c0 :: rest))). intros n Hn.
    change (Z.land utf8.xx 7) with 1.
    change (utf8.xx >=? utf8.as_) with true.
    change (Z.shiftr (int32 (Z.shiftl utf8.xx 31)) 31) with (-1).
    rewrite decode_invalid_rune.
    change (0 =? 0) with true. cbv beta iota. paths.
  - rewrite Hx, Hb, Hw, Hlo, Hhi.
    generalize dependent (utf8.accept_of (utf8.first_of (byteZ c0))).
    intros acc _ _.
    generalize dependent (Z.land (utf8.first_of (byteZ c0)) 7).
    intros sz _ Hsz.
    clear Hx Hb.
    unfold outside, utf8.locb, utf8.hicb. cbv beta iota.
    destruct rest as [|c1 [|c2 [|c3 rest]]]; cbn [map nth length Z.of_nat];
      paths.
Qed.

Lemma utf8_FullRune_nil : utf8.FullRune [] = false.
Proof. reflexivity. Qed.

Lemma utf8_full_size (p : list byte) :
  utf8.FullRune p = true ->
  1 <= snd (utf8.DecodeRune p) <= Z.of_nat (length p).
Proof.
  intros Hf.
  assert (Hne : p <> []) by (intros ->; discriminate).
  pose proof (utf8_decode_spec p Hne) as H.
  destruct (wellformed_len p) as [n|].
  - destruct H as (_ & -> & Hn). exact Hn.
  - destruct H as [H _]. rewrite (H Hf). cbn [snd].
    destruct p; [congruence | cbn [length]; lia].
Qed.

Lemma utf8_not_full_short (p : list byte) :
  utf8.FullRune p = false -> Z.of_nat (length p) < 4.
Proof.
  intros Hf. destruct p as [|c rest]; [cbn; lia|].
  pose proof (utf8_decode_spec (c :: rest) ltac:(congruence)) as H.
  destruct (wellformed_len (c :: rest)) as [n|].
  - destruct H as (H & _). congruence.
  - destruct H as [_ H]. exact (H Hf).
Qed.

Lemma utf8_invalid_decode (p : list byte) :
  utf8.FullRune p = true -> wellformed_len p = None ->
  utf8.DecodeRune p = (utf8.RuneError, 1).
Proof.
  intros Hf Hw.
  assert (Hne : p <> []) by (intros ->; discriminate).
  pose proof (utf8_decode_spec p Hne) as H. rewrite Hw in H.
  now apply H.
Qed.

(** ** Byte windows *)

Lemma window_length (bb : list byte) (off len : nat) :
  (off + len <= length bb)%nat -> length (window bb (off, len)) = len.
Proof.
  intros H. unfold window. cbn [fst snd].
  rewrite length_firstn, length_skipn. lia.
Qed.

Lemma window_advance (bb : list byte) (off len k : nat) :
  (k <= len)%nat ->
  window bb (off + k, len - k)%nat = skipn k (window bb (off, len)).
Proof.
  intros H. unfold window. cbn [fst snd].
  rewrite skipn_firstn_comm, skipn_skipn.
  f_equal. f_equal. lia.
Qed.

Lemma window_whole (l rest : list byte) :
  window (l ++ rest) (0, length l)%nat = l.
Proof.
  unfold window. cbn [fst snd skipn].
  rewrite firstn_app, Nat.sub_diag, firstn_all. cbn. apply app_nil_r.
Qed.

(** The buffer after the copy and the read of [load]: the pending bytes,
    then the bytes read. *)
Lemma load_buffer (bb pend data : list byte) :
  let x := length pend in
  let n := length data in
  let bb1 := pend ++ skipn x bb in
  let bb2 := firstn x bb1 ++ data ++ skipn (x + n) bb1 in
  (x + n <= length bb)%nat ->
  length bb2 = length bb /\ window bb2 (0, x + n)%nat = pend ++ data.
Proof.
  intros x n bb1 bb2 H.
  assert (H1 : firstn x bb1 = pend).
  { unfold bb1, x. rewrite firstn_app, Nat.sub_diag, firstn_all. cbn.
    apply app_nil_r. }
  assert (Hl1 : length bb1 = length bb).
  { unfold bb1. rewrite length_app, length_skipn. lia. }
  split.
  - unfold bb2. rewrite H1, !length_app, length_skipn. lia.
  - unfold bb2. rewrite H1, app_assoc.
    replace (x + n)%nat with (length (pend ++ data))
      by (rewrite length_app; reflexivity).
    apply window_whole.
Qed.

(** ** Offsets of the saved units *)

Lemma offsets_from_app (o : Z) (l1 l2 : list savedRune.t) :
  offsets_from o (l1 ++ l2) <->
  offsets_from o l1 /\ offsets_from (end_offset o l1) l2.
Proof.
  revert o. induction l1 as [|u l1 IH]; intros o; cbn.
  - tauto.
  - rewrite IH. unfold end_offset. tauto.
Qed.

Lemma end_offset_app (o : Z) (l1 l2 : list savedRune.t) :
  end_offset o (l1 ++ l2) = end_offset (end_offset o l1) l2.
Proof. unfold end_offset. apply fold_left_app. Qed.

Lemma end_offset_sum (o : Z) (l : list savedRune.t) :
  u64 (end_offset o l) = u64 (o + sum_sizes l).
Proof.
  revert o. induction l as [|u l IH]; intros o; cbn.
  - now rewrite Z.add_0_r.
  - change (fold_left _ l ?a) with (end_offset a l).
    rewrite IH. rewrite u64_add_l. f_equal.
    change (fold_right _ 0 l) with (sum_sizes l). lia.
Qed.

Lemma end_offset_range (o : Z) (l : list savedRune.t) :
  0 <= o < 2 ^ 64 -> 0 <= end_offset o l < 2 ^ 64.
Proof.
  revert o. induction l as [|u l IH]; intros o Ho; cbn.
  - exact Ho.
  - apply IH. apply u64_range.
Qed.

Lemma offsets_from_nth (o : Z) (l : list savedRune.t) (i : nat)
      (u : savedRune.t) :
  offsets_from o l -> nth_error l i = Some u ->
  Offset (savedRune.pos u) = end_offset o (firstn i l) /\
  0 <= savedRune.size u /\
  (is_terminal u = false -> 1 <= savedRune.size u).
Proof.
  revert o i. induction l as [|v l IH]; intros o i Hl Hn.
  - destruct i; discriminate.
  - destruct i as [|i]; cbn in Hn, Hl |- *.
    + injection Hn as ->. tauto.
    + destruct Hl as (_ & _ & _ & Hl).
      exact (IH _ _ Hl Hn).
Qed.

(** ** The stream *)

Lemma Position_Advance_positive (p p' : Position) (ch size : Z) :
  0 < size -> Position_Advance p ch size = Ret p' ->
  Offset p' = u64 (Offset p + size).
Proof.
  intros Hs. unfold Position_Advance.
  destruct (Z.ltb_spec size 0); [lia|].
  destruct (Z.eqb_spec size 0); [lia|].
  rewrite u64_add_r.
  destruct (ch =? rune_CR); [now intros [= <-]|].
  destruct ((ch =? rune_LF) && SkipNextLF p); [now intros [= <-]|].
  destruct (ch =? rune_LF); [now intros [= <-]|].
  destruct (ch =? rune_TAB); now intros [= <-].
Qed.

Lemma UTF8Decoder_ok : decoder_ok UTF8Decoder.
Proof. intros p Hp. now apply utf8_full_size. Qed.

Section StreamFacts.

Context {R : Type}.
Variable Read : R -> Z -> (list byte * option error) * R.

Lemma decode_loop_eq (fuel : nat) (dcd : Decoder) (s : RuneStream R) :
  decode_loop fuel dcd s =
  if FullRune dcd (pending s) then
    match fuel with
    | O => Diverge
    | S fuel' =>
        let '(rn, sz) := DecodeRune dcd (pending s) in
        if (sz <? 0) || (Z.of_nat (snd (b s)) <? sz)
        then Panic "slice bounds out of range"
        else
          let s1 := with_b s (fst (b s) + Z.to_nat sz,
                              snd (b s) - Z.to_nat sz)%nat in
          let s2 := with_buf s1
                      (buf s1 ++ [savedRune.mk (pos s1) rn sz None]) in
          obind (Position_Advance (pos s2) rn sz)
                (fun pos' => decode_loop fuel' dcd (with_pos s2 pos'))
    end
  else Ret s.
Proof. destruct fuel; reflexivity. Qed.

Lemma decode_loop_spec (dcd : Decoder) :
  decoder_ok dcd ->
  forall (fuel : nat) (s : RuneStream R),
    (snd (b s) < fuel)%nat ->
    (fst (b s) + snd (b s) <= length (bb s))%nat ->
    exists s' units,
      decode_loop fuel dcd s = Ret s' /\
      (r s' = r s /\ d s' = d s /\ bs s' = bs s /\ bb s' = bb s /\
       curr s' = curr s /\ gen s' = gen s /\ spec s' = spec s) /\
      buf s' = buf s ++ units /\
      Forall (fun u => is_terminal u = false) units /\
      offsets_from (Offset (pos s)) units /\
      Offset (pos s') = end_offset (Offset (pos s)) units /\
      FullRune dcd (pending s') = false /\
      (fst (b s') + snd (b s') <= length (bb s'))%nat /\
      (FullRune dcd (pending s) = true ->
       exists rest,
         units = savedRune.mk (pos s) (fst (DecodeRune dcd (pending s)))
                              (snd (DecodeRune dcd (pending s))) None
                 :: rest).
Proof.
  intros Hd. induction fuel as [|fuel IH]; intros s Hfuel Hwin; [lia|].
  rewrite decode_loop_eq.
  destruct (FullRune dcd (pending s)) eqn:Hfull.
  - pose proof (Hd _ Hfull) as Hsz.
    assert (Hlen : length (pending s) = snd (b s)).
    { unfold pending. destruct (b s) as [off len]. now apply window_length. }
    destruct (DecodeRune dcd (pending s)) as [rn sz] eqn:Hdec.
    cbn [snd fst] in Hsz |- *.
    destruct (Z.ltb_spec sz 0) as [|H]; [lia|].
    destruct (Z.ltb_spec (Z.of_nat (snd (b s))) sz); [lia|].
    cbn [orb].
    cbv zeta. cbn [pos buf with_b with_buf].
    assert (Hpos : 0 < sz) by lia.
    destruct (Position_Advance_returns (pos s) rn sz H) as [p' Hp'].
    rewrite Hp'. cbn [obind].
    pose proof (Position_Advance_positive _ _ _ _ Hpos Hp') as Hoff.
    match goal with |- context [decode_loop fuel dcd ?s2] =>
      destruct (IH s2) as (s' & units & Hrun & Hframe & Hbuf & Hnt & Hoffs
                           & Hend & Hnf & Hwin' & _)
    end.
    { cbn. lia. }
    { cbn. lia. }
    cbn in Hframe, Hbuf, Hoffs, Hend.
    exists s', (savedRune.mk (pos s) rn sz None :: units).
    split; [exact Hrun|]. split; [exact Hframe|].
    split; [now rewrite Hbuf, <- app_assoc|].
    split; [constructor; [reflexivity|exact Hnt]|].
    split.
    { cbn. rewrite <- Hoff. repeat split; try lia. exact Hoffs. }
    split.
    { cbn. rewrite <- Hoff. exact Hend. }
    split; [exact Hnf|]. split; [exact Hwin'|].
    intros _. now exists units.
  - exists s, []. rewrite app_nil_r. cbn.
    repeat split; try assumption; try reflexivity.
    + constructor.
    + discriminate.
Qed.

(** *** What [load] leaves alone, for any decoder and reader *)

Lemma decode_loop_frame (dcd : Decoder) (fuel : nat) :
  forall s s' : RuneStream R,
    decode_loop fuel dcd s = Ret s' ->
    (r s' = r s /\ d s' = d s /\ bs s' = bs s /\ bb s' = bb s /\
     curr s' = curr s /\ gen s' = gen s /\ spec s' = spec s) /\
    exists units, buf s' = buf s ++ units.
Proof.
  induction fuel as [|fuel IH]; intros s s'; rewrite decode_loop_eq.
  - destruct (FullRune dcd (pending s)); [discriminate|].
    intros [= <-]. split; [tauto|]. exists []. now rewrite app_nil_r.
  - destruct (FullRune dcd (pending s)).
    + destruct (DecodeRune dcd (pending s)) as [rn sz].
      destruct ((sz <? 0) || (Z.of_nat (snd (b s)) <? sz)); [discriminate|].
      cbv zeta.
      destruct (Position_Advance _ rn sz) as [p'| |]; try discriminate.
      cbn [obind]. intros Hrun. apply IH in Hrun.
      destruct Hrun as [Hframe [units Hbuf]]. cbn in Hframe, Hbuf.
      split; [exact Hframe|].
      eexists. rewrite Hbuf, <- app_assoc. reflexivity.
    + intros [= <-]. split; [tauto|]. exists []. now rewrite app_nil_r.
Qed.

Lemma load_frame (s s' : RuneStream R) :
  load Read s = Ret s' ->
  (d s' = d s /\ bs s' = bs s /\ curr s' = curr s /\ gen s' = gen s /\
   spec s' = spec s) /\
  (exists units, buf s' = buf s ++ units) /\
  (exists rd rd', r s = Some rd /\ r s' = Some rd' /\
                  rd_calls rd' = S (rd_calls rd)).
Proof.
  unfold load.
  destruct (Z.of_nat (length (buf s)) >=? 1073741824); [discriminate|].
  destruct (Z.of_nat (snd (b s)) >? Z.of_nat (length (bb s)));
    [discriminate|].
  destruct ((Z.of_nat (snd (b s)) >? int64 (Z.of_nat (snd (b s)) + bs s))
            || (int64 (Z.of_nat (snd (b s)) + bs s)
                >? Z.of_nat (length (bb s)))); [discriminate|].
  destruct (r s) as [rd|] eqn:Hr; [|discriminate].
  unfold Reader_Read.
  destruct (Read (rd_state rd) _) as [[data e] st].
  destruct (d s) as [dcd|] eqn:Hd; [|discriminate].
  match goal with |- context [decode_loop ?f dcd ?s1] =>
    destruct (decode_loop f dcd s1) as [s2| |] eqn:Hloop; try discriminate
  end.
  apply decode_loop_frame in Hloop.
  destruct Hloop as [Hframe [units Hbuf]]. cbn in Hframe, Hbuf.
  destruct Hframe as (Hr2 & Hd2 & Hbs2 & Hbb2 & Hc2 & Hg2 & Hs2).
  cbn [obind].
  destruct e as [e'|]; intros [= <-]; cbn.
  - split; [rewrite Hd2; tauto|]. split.
    + eexists. rewrite Hbuf, <- app_assoc. reflexivity.
    + eexists _, _. split; [reflexivity|]. split; [exact Hr2|]. reflexivity.
  - split; [rewrite Hd2; tauto|]. split.
    + eexists. exact Hbuf.
    + eexists _, _. split; [reflexivity|]. split; [exact Hr2|]. reflexivity.
Qed.

Lemma decode_loop_with_curr (dcd : Decoder) (v : option savedRune.t)
      (fuel : nat) :
  forall s : RuneStream R,
    decode_loop fuel dcd (with_curr s v) =
    obind (decode_loop fuel dcd s) (fun s' => Ret (with_curr s' v)).
Proof.
  induction fuel as [|fuel IH]; intros s; rewrite !decode_loop_eq;
    change (pending (with_curr s v)) with (pending s);
    destruct (FullRune dcd (pending s)); try reflexivity.
  destruct (DecodeRune dcd (pending s)) as [rn sz].
  change (b (with_curr s v)) with (b s).
  destruct ((sz <? 0) || (Z.of_nat (snd (b s)) <? sz)); [reflexivity|].
  cbv zeta. cbn [pos buf with_b with_buf with_curr].
  destruct (Position_Advance (pos s) rn sz) as [p'| |]; try reflexivity.
  cbn [obind]. rewrite <- IH. reflexivity.
Qed.

Lemma load_with_curr (s : RuneStream R) (v : option savedRune.t) :
  load Read (with_curr s v) =
  obind (load Read s) (fun s' => Ret (with_curr s' v)).
Proof.
  unfold load.
  change (buf (with_curr s v)) with (buf s).
  change (b (with_curr s v)) with (b s).
  change (bb (with_curr s v)) with (bb s).
  change (bs (with_curr s v)) with (bs s).
  change (r (with_curr s v)) with (r s).
  change (d (with_curr s v)) with (d s).
  change (pending (with_curr s v)) with (pending s).
  destruct (Z.of_nat (length (buf s)) >=? 1073741824); [reflexivity|].
  destruct (Z.of_nat (snd (b s)) >? Z.of_nat (length (bb s)));
    [reflexivity|].
  destruct ((Z.of_nat (snd (b s)) >? int64 (Z.of_nat (snd (b s)) + bs s))
            || (int64 (Z.of_nat (snd (b s)) + bs s)
                >? Z.of_nat (length (bb s)))); [reflexivity|].
  destruct (r s) as [rd|]; [|reflexivity].
  destruct (Reader_Read Read rd _) as [[data e] rd'].
  destruct (d s) as [dcd|]; [|reflexivity].
  match goal with |- context [decode_loop ?f dcd (with_b (with_io (with_curr s v) ?a ?c) ?w)] =>
    change (with_b (with_io (with_curr s v) a c) w)
      with (with_curr (with_b (with_io s a c) w) v)
  end.
  rewrite decode_loop_with_curr.
  match goal with |- context [decode_loop ?f dcd ?s1] =>
    destruct (decode_loop f dcd s1) as [s2| |]; try reflexivity
  end.
  cbn [obind]. destruct e; reflexivity.
Qed.

(** *** The fuel of the decoding loop

    More fuel does not change a result, and the fuel that [load] passes is
    enough for every decoder: where it runs out, every amount of fuel runs
    out, that is, the Go loop does not exit. *)

Lemma decode_loop_more_fuel (dcd : Decoder) (n : nat) :
  forall (s : RuneStream R) (m : nat),
    decode_loop n dcd s <> Diverge -> (n <= m)%nat ->
    decode_loop m dcd s = decode_loop n dcd s.
Proof.
  induction n as [|n IH]; intros s m Hres Hle; rewrite !decode_loop_eq;
    rewrite decode_loop_eq in Hres;
    destruct (FullRune dcd (pending s)); try reflexivity; try congruence.
  destruct m as [|m]; [lia|].
  destruct (DecodeRune dcd (pending s)) as [rn sz].
  destruct ((sz <? 0) || (Z.of_nat (snd (b s)) <? sz)); [reflexivity|].
  cbv zeta in Hres |- *.
  destruct (Position_Advance _ rn sz) as [p'| |]; try reflexivity.
  cbn [obind] in Hres |- *. apply IH; [exact Hres|lia].
Qed.

Lemma decode_loop_diverge_buf (dcd : Decoder) (n : nat) :
  forall (s : RuneStream R) (l : list savedRune.t),
    decode_loop n dcd s = Diverge ->
    decode_loop n dcd (with_buf s l) = Diverge.
Proof.
  induction n as [|n IH]; intros s l; rewrite !decode_loop_eq;
    change (pending (with_buf s l)) with (pending s);
    destruct (FullRune dcd (pending s)); try discriminate; try reflexivity.
  destruct (DecodeRune dcd (pending s)) as [rn sz].
  change (b (with_buf s l)) with (b s).
  destruct ((sz <? 0) || (Z.of_nat (snd (b s)) <? sz)); [discriminate|].
  cbv zeta. cbn [pos buf with_b with_buf].
  destruct (Position_Advance (pos s) rn sz) as [p'| |]; try discriminate;
    try reflexivity.
  cbn [obind]. intros H.
  match goal with |- decode_loop n dcd ?t = _ =>
    match type of H with decode_loop n dcd ?t0 = _ =>
      change t with (with_buf t0 (l ++ [savedRune.mk (pos s) rn sz None]))
    end
  end.
  now apply IH.
Qed.

(** An iteration that consumes no byte is repeated for ever. *)
Lemma decode_loop_stuck (dcd : Decoder) (s : RuneStream R) (rn : Z) :
  FullRune dcd (pending s) = true ->
  DecodeRune dcd (pending s) = (rn, 0) ->
  forall m, decode_loop m dcd s = Diverge.
Proof.
  intros Hfull Hdec m. induction m as [|m IH]; rewrite decode_loop_eq, Hfull;
    [reflexivity|].
  rewrite Hdec. change (0 <? 0) with false.
  destruct (Z.ltb_spec (Z.of_nat (snd (b s))) 0); [lia|].
  cbn [orb]. cbv zeta. cbn [pos buf with_b with_buf obind Position_Advance].
  change (Position_Advance (pos s) rn 0) with (Ret (pos s)). cbn [obind].
  replace (with_pos _ (pos s))
    with (with_buf s (buf s ++ [savedRune.mk (pos s) rn 0 None])).
  - now apply decode_loop_diverge_buf.
  - destruct s as [r0 d0 bs0 bb0 [off len] p0 buf0 c0 g0 sp0]. cbn.
    now rewrite Nat.add_0_r, Nat.sub_0_r.
Qed.

Lemma decode_loop_diverges (dcd : Decoder) (n : nat) :
  forall s : RuneStream R,
    (snd (b s) < n)%nat ->
    decode_loop n dcd s = Diverge ->
    forall m, decode_loop m dcd s = Diverge.
Proof.
  induction n as [|n IH]; intros s Hlen; [lia|].
  rewrite decode_loop_eq.
  destruct (FullRune dcd (pending s)) eqn:Hfull; [|discriminate].
  destruct (DecodeRune dcd (pending s)) as [rn sz] eqn:Hdec.
  destruct (Z.eqb_spec sz 0) as [->|Hnz].
  { intros _. now apply decode_loop_stuck with rn. }
  destruct (Z.ltb_spec sz 0); [discriminate|].
  destruct (Z.ltb_spec (Z.of_nat (snd (b s))) sz); [discriminate|].
  cbn [orb]. cbv zeta.
  destruct (Position_Advance _ rn sz) as [p'| |] eqn:Hadv; try discriminate.
  - cbn [obind]. intros Hrun m.
    destruct m as [|m]; rewrite decode_loop_eq, Hfull; [reflexivity|].
    rewrite Hdec.
    destruct (Z.ltb_spec sz 0); [lia|].
    destruct (Z.ltb_spec (Z.of_nat (snd (b s))) sz); [lia|].
    cbn [orb]. cbv zeta. rewrite Hadv. cbn [obind].
    revert m. apply IH; [cbn; lia|exact Hrun].
  - destruct (Position_Advance_returns (pos s) rn sz ltac:(lia)) as [q Hq].
    cbn [pos buf with_b with_buf] in Hadv. congruence.
Qed.
(** *** Advance *)

Lemma Advance_terminal (s : RuneStream R) :
  at_terminal s = true -> RuneStream_Advance Read s = Ret (false, s).
Proof.
  unfold RuneStream_Advance, at_terminal. now intros ->.
Qed.

Lemma Advance_live (s : RuneStream R) :
  at_terminal s = false ->
  RuneStream_Advance Read s =
  obind (if spec s >=? Z.of_nat (length (buf s))
         then load Read s else Ret s)
        (fun s1 =>
           match nth_error (buf s1) (Z.to_nat (spec s1)) with
           | None => Panic "index out of range"
           | Some c =>
               Ret (negb (is_terminal c),
                    with_spec (with_curr s1 (Some c)) (u64 (spec s1 + 1)))
           end).
Proof.
  unfold RuneStream_Advance, at_terminal. now intros ->.
Qed.

Lemma Advance_in_log (s : RuneStream R) (c : savedRune.t) :
  at_terminal s = false ->
  spec s < Z.of_nat (length (buf s)) ->
  nth_error (buf s) (Z.to_nat (spec s)) = Some c ->
  RuneStream_Advance Read s =
  Ret (negb (is_terminal c),
       with_spec (with_curr s (Some c)) (u64 (spec s + 1))).
Proof.
  intros Hlive Hlt Hnth. rewrite (Advance_live _ Hlive).
  rewrite Z.geb_leb. destruct (Z.leb_spec (Z.of_nat (length (buf s))) (spec s));
    [lia|].
  cbn [obind]. now rewrite Hnth.
Qed.

(** Every way in which [Advance] returns. *)
Lemma Advance_inv (s s1 : RuneStream R) (ok : bool) :
  RuneStream_Advance Read s = Ret (ok, s1) ->
  (at_terminal s = true /\ ok = false /\ s1 = s) \/
  (at_terminal s = false /\
   exists s' c,
     (if spec s >=? Z.of_nat (length (buf s))
      then load Read s = Ret s' else s' = s) /\
     (d s' = d s /\ bs s' = bs s /\ curr s' = curr s /\ gen s' = gen s /\
      spec s' = spec s) /\
     (exists units, buf s' = buf s ++ units) /\
     nth_error (buf s') (Z.to_nat (spec s)) = Some c /\
     ok = negb (is_terminal c) /\
     s1 = with_spec (with_curr s' (Some c)) (u64 (spec s + 1))).
Proof.
  destruct (at_terminal s) eqn:Hterm.
  - rewrite (Advance_terminal _ Hterm). intros [= <- <-]. now left.
  - rewrite (Advance_live _ Hterm). intros Hrun. right. split; [reflexivity|].
    destruct (spec s >=? Z.of_nat (length (buf s))).
    + destruct (load Read s) as [s'| |] eqn:Hload; try discriminate.
      cbn [obind] in Hrun.
      destruct (load_frame _ _ Hload) as (Hframe & Hbuf & _).
      assert (Hspec : spec s' = spec s) by tauto.
      rewrite Hspec in Hrun.
      destruct (nth_error (buf s') (Z.to_nat (spec s))) as [c|] eqn:Hnth;
        [|discriminate].
      injection Hrun as <- <-.
      exists s', c. split; [reflexivity|]. split; [exact Hframe|].
      split; [exact Hbuf|]. auto.
    + cbn [obind] in Hrun.
      destruct (nth_error (buf s) (Z.to_nat (spec s))) as [c|] eqn:Hnth;
        [|discriminate].
      injection Hrun as <- <-.
      exists s, c. split; [reflexivity|]. split; [tauto|].
      split; [exists []; now rewrite app_nil_r|]. auto.
Qed.

Lemma Advance_curr (s s1 : RuneStream R) (ok : bool) :
  RuneStream_Advance Read s = Ret (ok, s1) ->
  exists c, curr s1 = Some c /\ ok = negb (is_terminal c).
Proof.
  intros H. destruct (Advance_inv _ _ _ H) as [(Ht & -> & ->)|(_ & s' & c & H')].
  - unfold at_terminal in Ht. destruct (curr s) as [c|]; [|discriminate].
    exists c. now rewrite Ht.
  - destruct H' as (_ & _ & _ & _ & -> & ->). now exists c.
Qed.

Lemma Advance_frame (s s1 : RuneStream R) (ok : bool) :
  RuneStream_Advance Read s = Ret (ok, s1) ->
  d s1 = d s /\ bs s1 = bs s /\ gen s1 = gen s /\
  exists units, buf s1 = buf s ++ units.
Proof.
  intros H. destruct (Advance_inv _ _ _ H) as [(Ht & -> & ->)|(_ & s' & c & H')].
  - repeat split. exists []. now rewrite app_nil_r.
  - destruct H' as (_ & Hf & Hb & _ & _ & ->). cbn. tauto.
Qed.

Lemma Advance_with_curr (s : RuneStream R) (v : option savedRune.t) :
  at_terminal s = false -> at_terminal (with_curr s v) = false ->
  RuneStream_Advance Read (with_curr s v) = RuneStream_Advance Read s.
Proof.
  intros H1 H2. rewrite (Advance_live _ H1), (Advance_live _ H2).
  change (spec (with_curr s v)) with (spec s).
  change (buf (with_curr s v)) with (buf s).
  destruct (spec s >=? Z.of_nat (length (buf s))).
  - rewrite load_with_curr. destruct (load Read s) as [s'| |]; reflexivity.
  - reflexivity.
Qed.

Lemma advances_terminal (n : nat) (s : RuneStream R) :
  at_terminal s = true -> advances Read n s = Ret s.
Proof.
  intros H. induction n as [|n IH]; [reflexivity|].
  cbn [advances]. rewrite (Advance_terminal _ H). exact IH.
Qed.

Lemma advances_frame (n : nat) :
  forall s s' : RuneStream R,
    advances Read n s = Ret s' ->
    d s' = d s /\ bs s' = bs s /\ gen s' = gen s /\
    exists units, buf s' = buf s ++ units.
Proof.
  induction n as [|n IH]; intros s s'; cbn [advances].
  - intros [= <-]. repeat split. exists []. now rewrite app_nil_r.
  - destruct (RuneStream_Advance Read s) as [[ok s1]| |] eqn:Hadv;
      try discriminate.
    cbn [obind]. intros Hrest.
    destruct (Advance_frame _ _ _ Hadv) as (Hd & Hbs & Hg & u1 & Hb1).
    destruct (IH _ _ Hrest) as (Hd' & Hbs' & Hg' & u2 & Hb2).
    repeat split; try congruence.
    exists (u1 ++ u2). now rewrite Hb2, Hb1, app_assoc.
Qed.

Lemma observe_step (k : nat) (s s' : RuneStream R) :
  RuneStream_Advance Read s = RuneStream_Advance Read s' ->
  observe Read (S k) s = observe Read (S k) s'.
Proof.
  intros H. cbn [observe]. unfold observe1. now rewrite H.
Qed.

Lemma observe_with_curr (k : nat) (s : RuneStream R)
      (v : option savedRune.t) :
  at_terminal s = false -> at_terminal (with_curr s v) = false ->
  observe Read k (with_curr s v) = observe Read k s.
Proof.
  intros H1 H2. destruct k as [|k]; [reflexivity|].
  cbn [observe]. unfold observe1. now rewrite Advance_with_curr.
Qed.

(** *** Save and Restore *)

Lemma nth_error_spec_lt (l : list savedRune.t) (k : Z) (c : savedRune.t) :
  nth_error l (Z.to_nat k) = Some c -> k < Z.of_nat (length l).
Proof.
  intros H. assert (Hlt : (Z.to_nat k < length l)%nat).
  { apply nth_error_Some. congruence. }
  lia.
Qed.

Lemma Advance_replay (s s1 : RuneStream R) (ok : bool) :
  at_terminal s = false ->
  RuneStream_Advance Read s = Ret (ok, s1) ->
  RuneStream_Advance Read (reset s1 (spec s)) = Ret (ok, s1).
Proof.
  intros Hlive Hadv.
  destruct (Advance_inv _ _ _ Hadv) as [(Ht & _)|(_ & s' & c & H')];
    [congruence|].
  destruct H' as (_ & _ & _ & Hnth & -> & ->).
  rewrite (Advance_in_log _ c).
  - destruct s'; reflexivity.
  - reflexivity.
  - cbn. now apply nth_error_spec_lt with c.
  - exact Hnth.
Qed.

Lemma replay_after_advances (m : nat) :
  forall (a sM : RuneStream R) (k : nat),
    at_terminal a = false ->
    advances Read m a = Ret sM ->
    observe Read k (reset sM (spec a)) = observe Read k a.
Proof.
  induction m as [|m IH]; intros a sM k Hlive; cbn [advances].
  - intros [= <-].
    replace (reset a (spec a)) with (with_curr a None)
      by (destruct a; reflexivity).
    now apply observe_with_curr.
  - destruct (RuneStream_Advance Read a) as [[ok a1]| |] eqn:Hadv;
      try discriminate.
    cbn [obind]. intros Hrest.
    destruct k as [|k]; [reflexivity|].
    destruct (Advance_inv _ _ _ Hadv) as [(Ht & _)|(_ & s' & c & H')];
      [congruence|].
    destruct H' as (_ & Hframe & _ & Hnth & Hok & Ha1).
    destruct (is_terminal c) eqn:Hc; cbn [negb] in Hok; subst ok.
    + (* the step reached the terminal unit: the [m] extra calls do
         nothing *)
      assert (Hterm : at_terminal a1 = true) by (subst a1; exact Hc).
      rewrite (advances_terminal _ _ Hterm) in Hrest.
      injection Hrest as <-.
      apply observe_step. rewrite Hadv.
      now apply Advance_replay.
    + assert (Hlive1 : at_terminal a1 = false) by (subst a1; exact Hc).
      destruct (advances_frame _ _ _ Hrest) as (_ & _ & _ & more & Hmore).
      assert (Hbuf1 : buf a1 = buf s') by (subst a1; reflexivity).
      assert (Hspec1 : spec a1 = u64 (spec a + 1)) by (subst a1; reflexivity).
      assert (Hcur1 : curr a1 = Some c) by (subst a1; reflexivity).
      assert (HnthM : nth_error (buf sM) (Z.to_nat (spec a)) = Some c).
      { rewrite Hmore, Hbuf1, nth_error_app1; [exact Hnth|].
        apply nth_error_Some. congruence. }
      assert (HadvB : RuneStream_Advance Read (reset sM (spec a)) =
                      Ret (true, with_curr (reset sM (spec a1)) (Some c))).
      { rewrite (Advance_in_log _ c).
        - rewrite Hc, Hspec1. destruct sM; reflexivity.
        - reflexivity.
        - cbn. now apply nth_error_spec_lt with c.
        - exact HnthM. }
      cbn [observe]. unfold observe1. rewrite HadvB, Hadv. cbn [obind].
      unfold RuneStream_Rune, RuneStream_Size, RuneStream_Position, deref.
      rewrite Hcur1. cbn [obind curr with_curr].
      f_equal.
      rewrite observe_with_curr; [|reflexivity|exact Hc].
      now apply IH.
Qed.

Lemma Restore_valid (s : RuneStream R) (sp : SavePoint.t) :
  SavePoint.gen sp = gen s ->
  RuneStream_Restore s sp = Ret (reset s (SavePoint.spec sp)).
Proof.
  intros H. unfold RuneStream_Restore. rewrite H, Z.eqb_refl. reflexivity.
Qed.

Lemma Restore_stale (s : RuneStream R) (sp : SavePoint.t) :
  SavePoint.gen sp <> gen s ->
  RuneStream_Restore s sp = Panic "save point is stale".
Proof.
  intros H. unfold RuneStream_Restore.
  destruct (Z.eqb_spec (SavePoint.gen sp) (gen s)); [contradiction|].
  reflexivity.
Qed.

(** C2 (as amended). N calls of Advance, a Save, M more calls of Advance
    and a Restore of the save point: provided the cursor is not on a
    terminal unit after the N calls, the Restore returns and every further
    sequence of Advance/Rune/Size/Position observations is the one of the
    run that stopped after the N calls. *)
Theorem save_restore_replays (s0 sN sM : RuneStream R) (n m k : nat) :
  advances Read n s0 = Ret sN ->
  at_terminal sN = false ->
  advances Read m sN = Ret sM ->
  exists sB,
    RuneStream_Restore sM (RuneStream_Save sN) = Ret sB /\
    observe Read k sB = observe Read k sN.
Proof.
  intros _ Hlive HM.
  destruct (advances_frame _ _ _ HM) as (_ & _ & Hgen & _).
  exists (reset sM (spec sN)). split.
  - now apply Restore_valid.
  - now apply replay_after_advances with m.
Qed.

(** *** Save, Rewind, Restore: the frame *)

(** C9. Save leaves the stream as it is; Rewind, and Restore to a save
    point of the current generation, change only [spec] and the
    current-unit pointer: the log, the byte buffer and its pending view,
    the position, the generation and the source (with its count of reads)
    are unchanged. *)
Theorem save_rewind_restore_frame (s : RuneStream R) (sp : SavePoint.t) :
  SavePoint.gen sp = gen s ->
  step_op Read OpSave s = Ret s /\
  RuneStream_Save s = SavePoint.mk (gen s) (spec s) /\
  RuneStream_Rewind s = with_curr (with_spec s 0) None /\
  RuneStream_Restore s sp =
    Ret (with_curr (with_spec s (SavePoint.spec sp)) None) /\
  forall k c,
    let s' := with_curr (with_spec s k) c in
    buf s' = buf s /\ bb s' = bb s /\ b s' = b s /\ pending s' = pending s /\
    pos s' = pos s /\ gen s' = gen s /\ r s' = r s /\
    d s' = d s /\ bs s' = bs s /\ spec s' = k /\ curr s' = c.
Proof.
  intros Hgen. split; [reflexivity|]. split; [reflexivity|].
  split; [reflexivity|]. split; [now apply Restore_valid|].
  intros k c. cbn. repeat split.
Qed.

(** *** Commit and the generation *)

Lemma Commit_inv (s s1 : RuneStream R) :
  RuneStream_Commit s = Ret s1 ->
  spec s <= Z.of_nat (length (buf s)) /\
  s1 = with_curr
         (with_spec
            (with_gen (with_buf s (skipn (Z.to_nat (spec s)) (buf s)))
                      (u64 (gen s + 1))) 0) None.
Proof.
  unfold RuneStream_Commit. rewrite Z.gtb_ltb.
  destruct (Z.ltb_spec (Z.of_nat (length (buf s))) (spec s));
    [discriminate|].
  intros [= <-]. split; [lia|reflexivity].
Qed.

Lemma step_op_gen (o : op) (s s1 : RuneStream R) :
  step_op Read o s = Ret s1 ->
  gen s1 = if is_commit o then u64 (gen s + 1) else gen s.
Proof.
  destruct o as [| |sp| |]; cbn [step_op is_commit].
  - destruct (RuneStream_Advance Read s) as [[ok s']| |] eqn:Hadv;
      try discriminate.
    cbn [obind]. intros [= <-].
    now destruct (Advance_frame _ _ _ Hadv) as (_ & _ & Hg & _).
  - now intros [= <-].
  - unfold RuneStream_Restore.
    destruct (negb _); [discriminate|]. now intros [= <-].
  - now intros [= <-].
  - intros H. apply Commit_inv in H. destruct H as [_ ->]. reflexivity.
Qed.

Lemma run_ops_gen (ops : list op) :
  forall s s' : RuneStream R,
    run_ops Read ops s = Ret s' ->
    u64 (gen s') = u64 (gen s + commits ops).
Proof.
  unfold commits.
  induction ops as [|o ops IH]; intros s s'; cbn [run_ops].
  - intros [= <-]. cbn. now rewrite Z.add_0_r.
  - destruct (step_op Read o s) as [s1| |] eqn:Hstep; try discriminate.
    cbn [obind]. intros Hrest. rewrite (IH _ _ Hrest).
    rewrite (step_op_gen _ _ _ Hstep). cbn [filter].
    destruct (is_commit o).
    + cbn [length]. rewrite u64_add_l. f_equal. lia.
    + reflexivity.
Qed.

Lemma run_ops_gen_range (ops : list op) :
  forall s s' : RuneStream R,
    0 <= gen s < 2 ^ 64 ->
    run_ops Read ops s = Ret s' ->
    0 <= gen s' < 2 ^ 64.
Proof.
  induction ops as [|o ops IH]; intros s s' Hg; cbn [run_ops].
  - now intros [= <-].
  - destruct (step_op Read o s) as [s1| |] eqn:Hstep; try discriminate.
    cbn [obind]. apply IH.
    rewrite (step_op_gen _ _ _ Hstep).
    destruct (is_commit o); [apply u64_range|exact Hg].
Qed.

(** What [Commit] does to save points, for fewer than 2^64 calls: a save
    point taken in state [s] is stale after any calls that return and
    contain at least one and fewer than 2^64 calls of Commit, and Restore
    panics with "save point is stale". Commit drops [buf[0:spec]], sets
    [spec] to 0, increments the generation (a wrapping [uint]) and clears
    the current-unit pointer. *)
Theorem commit_invalidates_save_points
        (s s' : RuneStream R) (ops : list op) :
  0 <= gen s < 2 ^ 64 ->
  run_ops Read ops s = Ret s' ->
  0 < commits ops < 2 ^ 64 ->
  RuneStream_Restore s' (RuneStream_Save s) = Panic "save point is stale" /\
  forall t t1 : RuneStream R,
    RuneStream_Commit t = Ret t1 ->
    buf t1 = skipn (Z.to_nat (spec t)) (buf t) /\ spec t1 = 0 /\
    gen t1 = u64 (gen t + 1) /\ curr t1 = None.
Proof.
  intros Hg Hrun Hk. split.
  - apply Restore_stale. cbn [RuneStream_Save SavePoint.gen].
    pose proof (run_ops_gen _ _ _ Hrun) as Hgen.
    pose proof (run_ops_gen_range _ _ _ Hg Hrun) as Hg'.
    rewrite (u64_small _ Hg') in Hgen.
    intros Heq. rewrite <- Heq in Hgen.
    unfold u64 in Hgen. rewrite two64 in *.
    assert (Hcases : gen s + commits ops < 18446744073709551616 \/
                     18446744073709551616 <= gen s + commits ops
                     < 2 * 18446744073709551616) by lia.
    destruct Hcases as [Hc|Hc].
    + rewrite Z.mod_small in Hgen by lia. lia.
    + replace (gen s + commits ops)
        with (gen s + commits ops - 18446744073709551616
              + 1 * 18446744073709551616) in Hgen by lia.
      rewrite Z.mod_add in Hgen by lia.
      rewrite Z.mod_small in Hgen by lia. lia.
  - intros t t1 H. apply Commit_inv in H. destruct H as [_ ->].
    cbn. repeat split.
Qed.

Lemma commits_repeat (n : nat) : commits (repeat OpCommit n) = Z.of_nat n.
Proof.
  unfold commits. induction n as [|n IH]; [reflexivity|].
  cbn [repeat filter is_commit length]. lia.
Qed.

Lemma run_commits (n : nat) :
  forall s : RuneStream R,
    spec s <= Z.of_nat (length (buf s)) ->
    exists s', run_ops Read (repeat OpCommit n) s = Ret s'.
Proof.
  induction n as [|n IH]; intros s Hs; cbn [repeat run_ops step_op].
  - now exists s.
  - unfold RuneStream_Commit. rewrite Z.gtb_ltb.
    destruct (Z.ltb_spec (Z.of_nat (length (buf s))) (spec s)); [lia|].
    cbn [obind]. apply IH. cbn. lia.
Qed.

(** *** The terminal unit *)

Lemma with_spec_curr_twice (s : RuneStream R) (k k' : Z)
      (c c' : option savedRune.t) :
  with_curr (with_spec (with_curr (with_spec s k) c) k') c' =
  with_curr (with_spec s k') c'.
Proof. reflexivity. Qed.

Lemma terminal_idle_run (ops : list op) (s : RuneStream R) :
  at_terminal s = true ->
  forallb advance_or_save ops = true ->
  run_ops Read ops s = Ret s.
Proof.
  intros Hterm. induction ops as [|o ops IH]; [reflexivity|].
  cbn [forallb]. intros H. apply andb_true_iff in H as [Ho Hops].
  cbn [run_ops].
  destruct o; try discriminate; cbn [step_op].
  - rewrite (Advance_terminal _ Hterm). cbn [obind]. now apply IH.
  - cbn [obind]. now apply IH.
Qed.

(** *** TakeWhile *)

Lemma TakeWhile_loop_more_fuel (max : Z) (pred : Z -> bool) (n : nat) :
  forall (count : Z) (out : list Z) (sp : SavePoint.t) (s : RuneStream R)
         (m : nat),
    TakeWhile_loop Read n max count out pred sp s <> Diverge ->
    (n <= m)%nat ->
    TakeWhile_loop Read m max count out pred sp s =
    TakeWhile_loop Read n max count out pred sp s.
Proof.
  induction n as [|n IH]; intros count out sp s m Hres Hle.
  - destruct m as [|m]; [reflexivity|].
    cbn [TakeWhile_loop] in Hres |- *.
    destruct ((max <? 0) || (count <? max)); [congruence|reflexivity].
  - destruct m as [|m]; [lia|].
    cbn [TakeWhile_loop] in Hres |- *.
    destruct ((max <? 0) || (count <? max)); [|reflexivity].
    destruct (RuneStream_Advance Read s) as [[ok s1]| |]; try reflexivity.
    cbn [obind] in Hres |- *.
    destruct (negb ok); [reflexivity|].
    destruct (deref s1) as [c| |]; try reflexivity.
    cbn [obind] in Hres |- *.
    destruct (negb (pred (savedRune.value c))); [reflexivity|].
    apply IH; [exact Hres|lia].
Qed.

(** C8 (as amended). With a predicate that is false on every rune,
    TakeWhile makes at most one call of Advance; whenever that call returns
    (and always when max is 0), TakeWhile returns the seed unchanged and
    leaves [spec] as it was before the call; when that call of Advance
    panics, TakeWhile panics with it, and this is the only way in which it
    does not return. *)
Theorem TakeWhile_never (fuel : nat) (s : RuneStream R) (max : Z)
        (seed : list Z) (p : Z -> bool) :
  (forall rn, p rn = false) ->
  RuneStream_TakeWhile Read (S fuel) s max seed p =
  (if (max <? 0) || (0 <? max)
   then obind (RuneStream_Advance Read s)
              (fun '(_, s1) => Ret (seed, reset s1 (spec s)))
   else Ret (seed, reset s (spec s))) /\
  forall out s',
    RuneStream_TakeWhile Read (S fuel) s max seed p = Ret (out, s') ->
    out = seed /\ spec s' = spec s.
Proof.
  intros Hp.
  assert (Heq :
    RuneStream_TakeWhile Read (S fuel) s max seed p =
    (if (max <? 0) || (0 <? max)
     then obind (RuneStream_Advance Read s)
                (fun '(_, s1) => Ret (seed, reset s1 (spec s)))
     else Ret (seed, reset s (spec s)))).
  { unfold RuneStream_TakeWhile. cbn [TakeWhile_loop].
    destruct ((max <? 0) || (0 <? max)).
    - destruct (RuneStream_Advance Read s) as [[ok s1]| |] eqn:Hadv;
        try reflexivity.
      cbn [obind].
      destruct (Advance_curr _ _ _ Hadv) as (c & Hc & _).
      destruct (Advance_frame _ _ _ Hadv) as (_ & _ & Hg & _).
      assert (Hres : RuneStream_Restore s1 (RuneStream_Save s) =
                     Ret (reset s1 (spec s))).
      { apply Restore_valid. cbn. congruence. }
      destruct ok; cbn [negb].
      + unfold deref. rewrite Hc. cbn [obind]. rewrite Hp. cbn [negb obind].
        now rewrite Hres.
      + cbn [obind]. now rewrite Hres.
    - cbn [obind]. rewrite Restore_valid by reflexivity. reflexivity. }
  split; [exact Heq|].
  intros out s'. rewrite Heq.
  destruct ((max <? 0) || (0 <? max)).
  - destruct (RuneStream_Advance Read s) as [[ok s1]| |]; try discriminate.
    cbn [obind]. intros [= <- <-]. now split.
  - intros [= <- <-]. now split.
Qed.
Lemma Reader_Read_length (rd rd' : Reader R) (len : Z) (data : list byte)
      (e : option error) :
  Reader_Read Read rd len = (data, e, rd') ->
  (length data <= Z.to_nat len)%nat /\ rd_calls rd' = S (rd_calls rd).
Proof.
  unfold Reader_Read. destruct (Read (rd_state rd) len) as [[data0 e0] st].
  intros [= <- <- <-]. split; [apply firstn_le_length|reflexivity].
Qed.

Lemma stream_wf_pending (s : RuneStream R) :
  stream_wf s ->
  length (pending s) = snd (b s) /\ Z.of_nat (snd (b s)) < 4.
Proof.
  intros (_ & _ & _ & _ & Hwin & Hnf).
  assert (Hlen : length (pending s) = snd (b s)).
  { unfold pending. destruct (b s) as [off len]. now apply window_length. }
  split; [exact Hlen|]. rewrite <- Hlen. now apply utf8_not_full_short.
Qed.

Lemma load_wf (s : RuneStream R) (rd rd' : Reader R) (data : list byte)
      (e : option error) :
  stream_wf s -> r s = Some rd ->
  Z.of_nat (length (buf s)) < 0x40000000 ->
  Reader_Read Read rd (bs s) = (data, e, rd') ->
  exists s2 units,
    load Read s = Ret (with_buf s2 (buf s2 ++ terminal_of (pos s2) e)) /\
    r s2 = Some rd' /\ curr s2 = curr s /\ gen s2 = gen s /\
    spec s2 = spec s /\ stream_wf s2 /\
    buf s2 = buf s ++ units /\
    Forall (fun u => is_terminal u = false) units /\
    offsets_from (Offset (pos s)) units /\
    Offset (pos s2) = end_offset (Offset (pos s)) units /\
    (utf8.FullRune (pending s ++ data) = true ->
     exists rest,
       units = savedRune.mk (pos s)
                            (fst (utf8.DecodeRune (pending s ++ data)))
                            (snd (utf8.DecodeRune (pending s ++ data))) None
               :: rest).
Proof.
  intros Hwf Hr Hceil Hread.
  destruct (stream_wf_pending _ Hwf) as [Hlen Hshort].
  destruct Hwf as (Hd & Hbs & Hmax & Hbb & Hwin & Hnf).
  destruct (Reader_Read_length _ _ _ _ _ Hread) as [Hn _].
  unfold maxInt in Hmax. change (2 ^ 63) with 9223372036854775808 in Hmax.
  change utf8.UTFMax with 4 in *.
  assert (Hy : int64 (Z.of_nat (snd (b s)) + bs s)
               = Z.of_nat (snd (b s)) + bs s).
  { apply int64_small. change (2 ^ 63) with 9223372036854775808. lia. }
  unfold load.
  rewrite Z.geb_leb.
  destruct (Z.leb_spec 1073741824 (Z.of_nat (length (buf s)))); [lia|].
  rewrite Hy, !Z.gtb_ltb.
  destruct (Z.ltb_spec (Z.of_nat (length (bb s))) (Z.of_nat (snd (b s))));
    [lia|].
  destruct (Z.ltb_spec (Z.of_nat (snd (b s)) + bs s) (Z.of_nat (snd (b s))));
    [lia|].
  destruct (Z.ltb_spec (Z.of_nat (length (bb s)))
                       (Z.of_nat (snd (b s)) + bs s)); [lia|].
  cbn [orb]. rewrite Hr.
  replace (Z.of_nat (snd (b s)) + bs s - Z.of_nat (snd (b s))) with (bs s)
    by lia.
  rewrite Hread, Hd.
  pose proof (load_buffer (bb s) (pending s) data) as Hbuf.
  cbv zeta in Hbuf. rewrite Hlen in Hbuf.
  destruct Hbuf as [Hbl Hbw]; [lia|].
  match goal with |- context [decode_loop ?f UTF8Decoder ?s1] =>
    destruct (decode_loop_spec UTF8Decoder UTF8Decoder_ok f s1)
      as (s2 & units & Hrun & Hframe & Hb2 & Hnt & Hoffs & Hend & Hnf2
          & Hwin2 & Hfirst)
  end.
  { cbn. lia. }
  { cbn [b bb with_b with_io fst snd]. rewrite Hbl. lia. }
  cbn [r d bs bb curr gen spec buf pos with_b with_io] in Hframe, Hb2, Hoffs,
    Hend.
  destruct Hframe as (Hr2 & Hd2 & Hbs2 & Hbb2 & Hc2 & Hg2 & Hs2).
  assert (Hpend1 : forall rd0 bb0,
             pending (with_b (with_io s rd0 bb0) (0, snd (b s) + length data)%nat)
             = window bb0 (0, snd (b s) + length data)%nat)
    by reflexivity.
  rewrite Hpend1, Hbw in Hfirst.
  rewrite Hrun. cbn [obind].
  exists s2, units.
  split; [destruct e; cbn [terminal_of]; [reflexivity|]|].
  { rewrite app_nil_r. destruct s2; reflexivity. }
  split; [exact Hr2|]. split; [exact Hc2|]. split; [exact Hg2|].
  split; [exact Hs2|].
  split.
  { unfold stream_wf. rewrite Hd2, Hbs2, Hbb2. cbn [d bs with_b with_io].
    change utf8.UTFMax with 4. unfold maxInt.
    change (2 ^ 63) with 9223372036854775808.
    rewrite Hbl. rewrite Hbb2 in Hwin2. cbn [bb with_b with_io] in Hwin2.
    rewrite Hbl in Hwin2. repeat split; try lia; try assumption. }
  repeat split; assumption.
Qed.

(** *** Init *)

Lemma Init_inv (stream s0 : RuneStream R) (rd : option (Reader R))
      (o : Options) :
  RuneStream_Init stream rd o = Ret s0 ->
  0 <= BlockSize o /\ 1 <= Max (decoder_of (Decoder_ o)) /\
  r s0 = rd /\ d s0 = Some (decoder_of (Decoder_ o)) /\
  bs s0 = block_size_of (BlockSize o) /\
  Z.of_nat (length (bb s0)) =
    int64 (block_size_of (BlockSize o) + Max (decoder_of (Decoder_ o))) /\
  b s0 = (0, 0)%nat /\ pos s0 = MakePosition /\ buf s0 = [] /\
  curr s0 = None /\ gen s0 = u64 (gen stream + 1) /\ spec s0 = 0.
Proof.
  unfold RuneStream_Init.
  change (match Decoder_ o with Some d0 => d0 | None => UTF8Decoder end)
    with (decoder_of (Decoder_ o)).
  change (if BlockSize o =? 0 then 4096 else BlockSize o)
    with (block_size_of (BlockSize o)).
  destruct (Z.ltb_spec (BlockSize o) 0); [discriminate|].
  destruct (Z.ltb_spec (Max (decoder_of (Decoder_ o))) 1); [discriminate|].
  set (bbsz := int64 _).
  destruct (Z.eqb_spec (Z.of_nat (length (bb stream))) bbsz) as [Heq|Hne].
  - cbn [obind]. intros [= <-]. cbn. repeat split; try lia; assumption.
  - unfold make_bytes. destruct (Z.ltb_spec bbsz 0); [discriminate|].
    cbn [obind]. intros [= <-]. cbn. rewrite repeat_length.
    repeat split; try lia.
Qed.

Lemma Init_returns (stream : RuneStream R) (rd : option (Reader R))
      (o : Options) :
  0 <= BlockSize o -> 1 <= Max (decoder_of (Decoder_ o)) ->
  block_size_of (BlockSize o) + Max (decoder_of (Decoder_ o)) <= maxInt ->
  exists s0, RuneStream_Init stream rd o = Ret s0.
Proof.
  intros Hbs Hmax Hfit. unfold RuneStream_Init.
  change (match Decoder_ o with Some d0 => d0 | None => UTF8Decoder end)
    with (decoder_of (Decoder_ o)).
  change (if BlockSize o =? 0 then 4096 else BlockSize o)
    with (block_size_of (BlockSize o)).
  destruct (Z.ltb_spec (BlockSize o) 0); [lia|].
  destruct (Z.ltb_spec (Max (decoder_of (Decoder_ o))) 1); [lia|].
  assert (Hb : 0 <= block_size_of (BlockSize o)).
  { unfold block_size_of. destruct (BlockSize o =? 0); lia. }
  rewrite int64_small
    by (unfold maxInt in Hfit; change (2 ^ 63) with 9223372036854775808 in *;
        lia).
  destruct (_ =? _); [cbn [obind]; eauto|].
  unfold make_bytes.
  destruct (Z.ltb_spec
              (block_size_of (BlockSize o) + Max (decoder_of (Decoder_ o))) 0);
    [lia|].
  cbn [obind]. eauto.
Qed.

Lemma Init_log_inv (stream s0 : RuneStream R) (rd : option (Reader R))
      (o : Options) :
  Decoder_ o = None -> BlockSize o <= maxInt ->
  RuneStream_Init stream rd o = Ret s0 ->
  log_inv [] s0.
Proof.
  intros Hdec Hint Hinit. apply Init_inv in Hinit.
  rewrite Hdec in Hinit. cbn [decoder_of] in Hinit.
  change (Max UTF8Decoder) with 4 in Hinit.
  destruct Hinit as (Hbs & _ & _ & Hd & Hbs0 & Hbb & Hb & Hpos & Hbuf & _).
  assert (Hblk : 0 < block_size_of (BlockSize o) <= maxInt).
  { unfold block_size_of, maxInt in *.
    change (2 ^ 63) with 9223372036854775808 in *.
    destruct (Z.eqb_spec (BlockSize o) 0); lia. }
  unfold maxInt in *. change (2 ^ 63) with 9223372036854775808 in *.
  assert (Hfit : block_size_of (BlockSize o) + 4 < 9223372036854775808).
  { destruct (Z_lt_le_dec (block_size_of (BlockSize o) + 4)
                          9223372036854775808) as [Hlt|Hge]; [exact Hlt|].
    exfalso. unfold int64 in Hbb.
    change (2 ^ 63) with 9223372036854775808 in Hbb. rewrite two64 in Hbb.
    replace (block_size_of (BlockSize o) + 4 + 9223372036854775808)
      with (block_size_of (BlockSize o) + 4 - 9223372036854775808
            + 1 * 18446744073709551616) in Hbb by lia.
    rewrite Z.mod_add, Z.mod_small in Hbb by lia. lia. }
  rewrite int64_small in Hbb
    by (change (2 ^ 63) with 9223372036854775808; lia).
  unfold log_inv, stream_wf, pending.
  rewrite Hd, Hbs0, Hbb, Hb, Hpos, Hbuf. change utf8.UTFMax with 4.
  unfold maxInt. change (2 ^ 63) with 9223372036854775808.
  cbn. repeat split; try lia.
Qed.

(** *** The offsets of the log *)

Lemma log_inv_cursor (hist : list savedRune.t) (s : RuneStream R) (k : Z)
      (c : option savedRune.t) :
  log_inv hist s -> log_inv hist (with_spec (with_curr s c) k).
Proof. intros H. exact H. Qed.

Lemma load_log_inv (hist : list savedRune.t) (s s' : RuneStream R) :
  log_inv hist s -> load Read s = Ret s' -> log_inv hist s'.
Proof.
  intros (Hwf & Hoffs & Hpos) Hload.
  assert (Hceil : Z.of_nat (length (buf s)) < 0x40000000).
  { unfold load in Hload. rewrite Z.geb_leb in Hload.
    destruct (Z.leb_spec 1073741824 (Z.of_nat (length (buf s))));
      [discriminate|lia]. }
  destruct (load_frame _ _ Hload) as (_ & _ & rd & rd0 & Hr & _).
  destruct (Reader_Read Read rd (bs s)) as [[data e] rd'] eqn:Hread.
  destruct (load_wf s rd rd' data e Hwf Hr Hceil Hread)
    as (s2 & units & Hrun & _ & _ & _ & _ & Hwf2 & Hbuf2 & _ & Hoffs2
        & Hend2 & _).
  rewrite Hrun in Hload. injection Hload as <-.
  assert (Hrange : 0 <= Offset (pos s2) < 2 ^ 64).
  { rewrite Hend2, Hpos, <- end_offset_app.
    apply end_offset_range. rewrite two64. lia. }
  unfold log_inv. cbn [buf pos with_buf].
  split; [exact Hwf2|].
  replace (hist ++ buf s2 ++ terminal_of (pos s2) e)
    with (((hist ++ buf s) ++ units) ++ terminal_of (pos s2) e)
    by (rewrite Hbuf2, <- !app_assoc; reflexivity).
  rewrite (offsets_from_app 0 ((hist ++ buf s) ++ units)),
    (offsets_from_app 0 (hist ++ buf s) units),
    (end_offset_app 0 ((hist ++ buf s) ++ units)),
    (end_offset_app 0 (hist ++ buf s) units), <- Hpos, <- Hend2.
  split.
  - split; [now split|].
    destruct e; cbn; auto. repeat split; try lia.
  - destruct e; cbn; [|reflexivity].
    rewrite Z.add_0_r. symmetry. now apply u64_small.
Qed.

Lemma step_log_inv (o : op) (hist : list savedRune.t)
      (s s1 : RuneStream R) :
  log_inv hist s -> step_op Read o s = Ret s1 ->
  log_inv (hist ++ dropped_by o s) s1.
Proof.
  intros Hinv. destruct o as [| |sp| |]; cbn [step_op dropped_by];
    rewrite ?app_nil_r.
  - destruct (RuneStream_Advance Read s) as [[ok s']| |] eqn:Hadv;
      try discriminate.
    cbn [obind]. intros [= <-].
    destruct (Advance_inv _ _ _ Hadv) as [(_ & _ & ->)|(_ & s2 & c & H')];
      [exact Hinv|].
    destruct H' as (Hload & _ & _ & _ & _ & ->).
    apply log_inv_cursor.
    destruct (spec s >=? Z.of_nat (length (buf s))).
    + now apply load_log_inv with s.
    + now subst s2.
  - now intros [= <-].
  - unfold RuneStream_Restore. destruct (negb _); [discriminate|].
    now intros [= <-].
  - now intros [= <-].
  - intros H. apply Commit_inv in H. destruct H as [_ ->].
    destruct Hinv as (Hwf & Hoffs & Hpos).
    unfold log_inv. cbn [buf pos with_buf with_gen with_spec with_curr].
    rewrite <- app_assoc, firstn_skipn. now split.
Qed.

Lemma run_hist_log_inv (ops : list op) :
  forall (s s' : RuneStream R) (hist hist' : list savedRune.t),
    log_inv hist s -> run_hist Read ops s hist = Ret (s', hist') ->
    log_inv hist' s'.
Proof.
  induction ops as [|o ops IH]; intros s s' hist hist' Hinv;
    cbn [run_hist].
  - now intros [= <- <-].
  - destruct (step_op Read o s) as [s1| |] eqn:Hstep; try discriminate.
    cbn [obind]. apply IH. now apply step_log_inv.
Qed.

Lemma offsets_from_sum_nonneg (l : list savedRune.t) :
  forall (o : Z) (i : nat),
    offsets_from o l -> 0 <= sum_sizes (firstn i l).
Proof.
  induction l as [|u l IH]; intros o i H.
  - destruct i; cbn; lia.
  - destruct i as [|i]; cbn; [lia|].
    destruct H as (_ & Hsz & _ & H).
    change (fold_right _ 0 (firstn i l)) with (sum_sizes (firstn i l)).
    specialize (IH _ i H). lia.
Qed.

(** C6 (as amended). In a stream initialised with the default UTF-8
    decoder, after any calls that return, every successfully decoded unit
    saved since Init (those dropped by Commit and those in the log) has
    size at least 1, and the offset of its position is the sum of the
    sizes of the units before it modulo 2^64, the offset being a
    [uint64]: it is that sum exactly while the sum is below 2^64. *)
Theorem offsets_are_size_sums
        (stream s0 s : RuneStream R) (rd : option (Reader R)) (o : Options)
        (ops : list op) (hist : list savedRune.t) (i : nat)
        (u : savedRune.t) :
  Decoder_ o = None -> BlockSize o <= maxInt ->
  RuneStream_Init stream rd o = Ret s0 ->
  run_hist Read ops s0 [] = Ret (s, hist) ->
  nth_error (hist ++ buf s) i = Some u ->
  is_terminal u = false ->
  1 <= savedRune.size u /\
  Offset (savedRune.pos u) = u64 (sum_sizes (firstn i (hist ++ buf s))) /\
  (sum_sizes (firstn i (hist ++ buf s)) < 2 ^ 64 ->
   Offset (savedRune.pos u) = sum_sizes (firstn i (hist ++ buf s))).
Proof.
  intros Hdec Hint Hinit Hrun Hnth Hu.
  pose proof (Init_log_inv _ _ _ _ Hdec Hint Hinit) as Hinv0.
  destruct (run_hist_log_inv _ _ _ _ _ Hinv0 Hrun) as (_ & Hoffs & _).
  destruct (offsets_from_nth _ _ _ _ Hoffs Hnth) as (Hoff & _ & Hsz).
  pose proof (offsets_from_sum_nonneg _ _ i Hoffs) as Hnn.
  assert (Heq : Offset (savedRune.pos u)
                = u64 (sum_sizes (firstn i (hist ++ buf s)))).
  { rewrite Hoff.
    rewrite <- (u64_small (end_offset 0 _))
      by (apply end_offset_range; rewrite two64; lia).
    now rewrite end_offset_sum. }
  split; [now apply Hsz|]. split; [exact Heq|].
  intros Hlt. rewrite Heq. apply u64_small. lia.
Qed.

(** C7. Init panics on a negative BlockSize and on a decoder whose Max() is
    below 1 (in either case it does not return); when it returns, the block
    size is 4096 for BlockSize 0 and the decoder is UTF8Decoder when none
    was given; with the zero Options it returns. New is Init on a
    zero-valued stream. *)
Theorem Init_checks_options (stream : RuneStream R)
        (rd : option (Reader R)) (o : Options) :
  (BlockSize o < 0 -> RuneStream_Init stream rd o = Panic "BlockSize < 0") /\
  (0 <= BlockSize o -> Max (decoder_of (Decoder_ o)) < 1 ->
   RuneStream_Init stream rd o = Panic "Decoder returned Max() < 1") /\
  (forall s0, RuneStream_Init stream rd o = Ret s0 ->
              bs s0 = block_size_of (BlockSize o) /\
              d s0 = Some (decoder_of (Decoder_ o))) /\
  block_size_of 0 = 4096 /\ decoder_of None = UTF8Decoder /\
  (BlockSize o = 0 -> Decoder_ o = None ->
   exists s0, RuneStream_Init stream rd o = Ret s0 /\
              bs s0 = 4096 /\ d s0 = Some UTF8Decoder) /\
  New rd o = RuneStream_Init zero_RuneStream rd o /\
  (BlockSize o < 0 \/ Max (decoder_of (Decoder_ o)) < 1 ->
   returns (RuneStream_Init stream rd o) = false).
Proof.
  split; [|split; [|split; [|split; [|split; [|split; [|split]]]]]].
  - intros H. unfold RuneStream_Init.
    destruct (Z.ltb_spec (BlockSize o) 0); [reflexivity|lia].
  - intros H1 H2. unfold RuneStream_Init.
    change (match Decoder_ o with Some d0 => d0 | None => UTF8Decoder end)
      with (decoder_of (Decoder_ o)).
    destruct (Z.ltb_spec (BlockSize o) 0); [lia|].
    destruct (Z.ltb_spec (Max (decoder_of (Decoder_ o))) 1);
      [reflexivity|lia].
  - intros s0 H. apply Init_inv in H. tauto.
  - reflexivity.
  - reflexivity.
  - intros Hb Hd.
    destruct (Init_returns stream rd o) as [s0 Hs0].
    + lia.
    + rewrite Hd. vm_compute. discriminate.
    + rewrite Hb, Hd. vm_compute. discriminate.
    + exists s0. split; [exact Hs0|]. apply Init_inv in Hs0.
      rewrite Hb, Hd in Hs0. tauto.
  - reflexivity.
  - intros Hbad.
    destruct (RuneStream_Init stream rd o) as [s0| |] eqn:Hinit;
      try reflexivity.
    apply Init_inv in Hinit. lia.
Qed.

End StreamFacts.

(** *** The terminal unit, with Commit *)

Section TerminalUnit.

Context {R : Type}.
Variable Read : R -> Z -> (list byte * option error) * R.

Lemma terminal_log_step (s : RuneStream R) (front : list savedRune.t)
      (T : savedRune.t) (o : op) :
  buf s = front ++ [T] -> is_terminal T = true ->
  Z.of_nat (length (buf s)) <= maxInt ->
  at_terminal s = true \/ 0 <= spec s < Z.of_nat (length (buf s)) ->
  keeps_log s o = true ->
  exists s1 kept,
    step_op Read o s = Ret s1 /\
    front = dropped_by o s ++ kept /\
    buf s1 = kept ++ [T] /\
    r s1 = r s /\ pos s1 = pos s /\ pending s1 = pending s /\
    (at_terminal s1 = true \/ 0 <= spec s1 < Z.of_nat (length (buf s1))).
Proof.
  intros Hbuf HT Hlen Hinv Hop.
  destruct o as [| |sp| |]; cbn [keeps_log] in Hop; cbn [step_op dropped_by].
  - (* Advance *)
    destruct (at_terminal s) eqn:Hterm.
    + rewrite (Advance_terminal _ _ Hterm). cbn [obind].
      exists s, front. rewrite Hterm. repeat split; auto.
    + destruct Hinv as [Hinv|Hinv]; [discriminate|].
      destruct (nth_error (buf s) (Z.to_nat (spec s))) as [c|] eqn:Hnth.
      2:{ apply nth_error_None in Hnth. lia. }
      rewrite (Advance_in_log _ _ c Hterm ltac:(lia) Hnth). cbn [obind].
      eexists _, front. split; [reflexivity|].
      split; [reflexivity|]. split; [exact Hbuf|].
      split; [reflexivity|]. split; [reflexivity|]. split; [reflexivity|].
      unfold at_terminal. cbn [curr with_spec with_curr spec buf].
      destruct (is_terminal c) eqn:Hc; [now left|right].
      assert (Hne : Z.to_nat (spec s) <> length front).
      { intros Heq. rewrite Hbuf, Heq, nth_error_app2, Nat.sub_diag in Hnth
          by lia.
        cbn in Hnth. congruence. }
      rewrite Hbuf, length_app in *. cbn [length] in *.
      unfold maxInt in Hlen. change (2 ^ 63) with 9223372036854775808 in Hlen.
      rewrite u64_small by (rewrite two64; lia). lia.
  - (* Save *)
    exists s, front. repeat split; auto.
  - (* Restore *)
    apply andb_true_iff in Hop as [Hop Hlt].
    apply andb_true_iff in Hop as [Hg Hge].
    apply Z.eqb_eq in Hg. apply Z.leb_le in Hge. apply Z.ltb_lt in Hlt.
    rewrite (Restore_valid _ _ Hg).
    eexists _, front. split; [reflexivity|].
    split; [reflexivity|]. split; [exact Hbuf|].
    split; [reflexivity|]. split; [reflexivity|]. split; [reflexivity|].
    right. cbn. lia.
  - (* Rewind *)
    eexists _, front. split; [reflexivity|].
    split; [reflexivity|]. split; [exact Hbuf|].
    split; [reflexivity|]. split; [reflexivity|]. split; [reflexivity|].
    right. cbn. rewrite Hbuf, length_app. cbn [length]. lia.
  - (* Commit *)
    apply Z.ltb_lt in Hop.
    unfold RuneStream_Commit. rewrite Z.gtb_ltb.
    destruct (Z.ltb_spec (Z.of_nat (length (buf s))) (spec s)); [lia|].
    assert (Hn : (Z.to_nat (spec s) <= length front)%nat).
    { rewrite Hbuf, length_app in Hop. cbn [length] in Hop. lia. }
    eexists _, (skipn (Z.to_nat (spec s)) front).
    split; [reflexivity|].
    split.
    { rewrite Hbuf, firstn_app.
      replace (Z.to_nat (spec s) - length front)%nat with 0%nat by lia.
      cbn [firstn]. rewrite app_nil_r. now rewrite firstn_skipn. }
    split.
    { cbn. rewrite Hbuf, skipn_app.
      replace (Z.to_nat (spec s) - length front)%nat with 0%nat by lia.
      reflexivity. }
    split; [reflexivity|]. split; [reflexivity|]. split; [reflexivity|].
    right. cbn. rewrite Hbuf, skipn_app, !length_app, length_skipn.
    replace (Z.to_nat (spec s) - length front)%nat with 0%nat by lia.
    cbn [skipn length]. lia.
Qed.

Lemma terminal_log_run (ops : list op) :
  forall (s : RuneStream R) (front hist : list savedRune.t)
         (T : savedRune.t),
    buf s = front ++ [T] -> is_terminal T = true ->
    Z.of_nat (length (buf s)) <= maxInt ->
    at_terminal s = true \/ 0 <= spec s < Z.of_nat (length (buf s)) ->
    keeps_log_run Read ops s = true ->
    exists s' dropped kept,
      run_hist Read ops s hist = Ret (s', hist ++ dropped) /\
      run_ops Read ops s = Ret s' /\
      front = dropped ++ kept /\
      buf s' = kept ++ [T] /\
      r s' = r s /\ pos s' = pos s /\ pending s' = pending s /\
      (at_terminal s' = true \/ 0 <= spec s' < Z.of_nat (length (buf s'))).
Proof.
  induction ops as [|o ops IH]; intros s front hist T Hbuf HT Hlen Hinv Hops.
  - exists s, [], front. cbn [run_hist run_ops]. rewrite app_nil_r.
    repeat split; auto.
  - cbn [keeps_log_run] in Hops. apply andb_true_iff in Hops as [Ho Hops].
    destruct (terminal_log_step s front T o Hbuf HT Hlen Hinv Ho)
      as (s1 & kept1 & Hstep & Hfront & Hbuf1 & Hr1 & Hp1 & Hpe1 & Hinv1).
    rewrite Hstep in Hops.
    assert (Hlen1 : Z.of_nat (length (buf s1)) <= maxInt).
    { rewrite Hbuf1. rewrite Hbuf in Hlen. rewrite Hfront in Hlen.
      rewrite !length_app in *. cbn [length] in *. lia. }
    destruct (IH s1 kept1 (hist ++ dropped_by o s) T Hbuf1 HT Hlen1 Hinv1 Hops)
      as (s' & dropped & kept & Hhist & Hrun & Hk & Hbuf' & Hr' & Hp' & Hpe'
          & Hinv').
    exists s', (dropped_by o s ++ dropped), kept.
    cbn [run_hist run_ops]. rewrite Hstep. cbn [obind].
    split; [now rewrite Hhist, <- app_assoc|].
    split; [exact Hrun|].
    split; [now rewrite Hfront, Hk, <- app_assoc|].
    split; [exact Hbuf'|].
    split; [congruence|]. split; [congruence|]. split; [congruence|].
    exact Hinv'.
Qed.

Lemma run_ops_gen_exact (ops : list op) :
  forall s s' : RuneStream R,
    run_ops Read ops s = Ret s' ->
    gen s' = if commits ops =? 0 then gen s else u64 (gen s + commits ops).
Proof.
  unfold commits.
  induction ops as [|o ops IH]; intros s s'; cbn [run_ops].
  - now intros [= <-].
  - destruct (step_op Read o s) as [s1| |] eqn:Hstep; try discriminate.
    cbn [obind]. intros Hrest. rewrite (IH _ _ Hrest).
    rewrite (step_op_gen _ _ _ _ Hstep). cbn [filter].
    destruct (is_commit o); [|reflexivity].
    cbn [length]. rewrite Nat2Z.inj_succ.
    assert (Hc : 0 <= Z.of_nat (length (filter is_commit ops))) by lia.
    generalize dependent (Z.of_nat (length (filter is_commit ops))).
    intros c _ Hc.
    destruct (Z.eqb_spec (Z.succ c) 0); [lia|].
    destruct (Z.eqb_spec c 0) as [->|_].
    + reflexivity.
    + rewrite u64_add_l. f_equal. lia.
Qed.

Lemma run_hist_no_commit (ops : list op) :
  forall (s s' : RuneStream R) (hist hist' : list savedRune.t),
    commits ops = 0 ->
    run_hist Read ops s hist = Ret (s', hist') -> hist' = hist.
Proof.
  unfold commits.
  induction ops as [|o ops IH]; intros s s' hist hist' Hc; cbn [run_hist].
  - now intros [= _ <-].
  - destruct (step_op Read o s) as [s1| |]; try discriminate.
    cbn [obind]. cbn [filter] in Hc.
    destruct o; cbn [is_commit] in Hc; cbn [length] in Hc; try lia;
      cbn [dropped_by]; rewrite app_nil_r; now apply IH.
Qed.

(** C1 (as amended). For a stream whose log ends in a terminal-error unit
    [T] and whose cursor is inside the log or on a terminal current unit.
    (1) Under any sequence of Advance, Save, Rewind, Restore and Commit in
    which every Restore is to a save point of the current generation
    before the end of the log and every Commit is made with the cursor
    before the end of the log, the calls return, [T] stays the last entry
    of the log (the log is the old one without the units that the Commits
    dropped from its front) and no read is issued to the source.
    (2) While the current unit is a terminal one, Advance returns false
    and changes nothing, however often it is repeated and with Save calls
    in between.
    (3) Rewind, Restore and Commit clear the current-unit pointer: after
    Rewind, after Restore to a position inside the log and after Commit
    with the cursor inside the log, Advance returns the saved unit at the
    cursor again, true for a rune and false for a terminal unit.
    (4) Commit with the cursor at the end of the log, where it is once [T]
    has been returned, drops [T]: the log is empty afterwards. (5) Restore
    to a save point of another generation panics. *)
Theorem terminal_unit_is_sticky
        (s : RuneStream R) (front : list savedRune.t) (T : savedRune.t)
        (ops : list op) :
  buf s = front ++ [T] -> is_terminal T = true ->
  Z.of_nat (length (buf s)) <= maxInt ->
  at_terminal s = true \/ 0 <= spec s < Z.of_nat (length (buf s)) ->
  (keeps_log_run Read ops s = true ->
   exists s' dropped kept,
     run_ops Read ops s = Ret s' /\
     run_hist Read ops s [] = Ret (s', dropped) /\
     front = dropped ++ kept /\ buf s' = kept ++ [T] /\
     r s' = r s /\ reads_issued s' = reads_issued s /\
     pos s' = pos s /\ pending s' = pending s /\
     gen s' = (if commits ops =? 0 then gen s
               else u64 (gen s + commits ops)) /\
     (commits ops = 0 -> buf s' = buf s) /\
     (at_terminal s' = true \/
      0 <= spec s' < Z.of_nat (length (buf s')))) /\
  (at_terminal s = true ->
   RuneStream_Advance Read s = Ret (false, s) /\
   (forallb advance_or_save ops = true -> run_ops Read ops s = Ret s)) /\
  (forall (k : Z) (u : savedRune.t),
      0 <= k -> nth_error (buf s) (Z.to_nat k) = Some u ->
      (k = 0 -> RuneStream_Rewind s = reset s k) /\
      (forall sp, SavePoint.gen sp = gen s -> SavePoint.spec sp = k ->
                  RuneStream_Restore s sp = Ret (reset s k)) /\
      RuneStream_Advance Read (reset s k) =
        Ret (negb (is_terminal u),
             with_spec (with_curr (reset s k) (Some u)) (u64 (k + 1))) /\
      (spec s = k ->
       exists s1,
         RuneStream_Commit s = Ret s1 /\
         buf s1 = skipn (Z.to_nat k) (buf s) /\
         curr s1 = None /\ spec s1 = 0 /\
         RuneStream_Advance Read s1 =
           Ret (negb (is_terminal u),
                with_spec (with_curr s1 (Some u)) 1))) /\
  (spec s = Z.of_nat (length (buf s)) ->
   exists s1,
     RuneStream_Commit s = Ret s1 /\
     buf s1 = [] /\ curr s1 = None /\ spec s1 = 0) /\
  (forall sp, SavePoint.gen sp <> gen s ->
              RuneStream_Restore s sp = Panic "save point is stale").
Proof.
  intros Hbuf HT Hlen Hinv.
  split; [|split; [|split; [|split]]].
  - intros Hops.
    destruct (terminal_log_run ops s front [] T Hbuf HT Hlen Hinv Hops)
      as (s' & dropped & kept & Hhist & Hrun & Hk & Hbuf' & Hr' & Hp' & Hpe'
          & Hinv').
    cbn [app] in Hhist.
    exists s', dropped, kept.
    split; [exact Hrun|]. split; [exact Hhist|]. split; [exact Hk|].
    split; [exact Hbuf'|]. split; [exact Hr'|].
    split; [unfold reads_issued; now rewrite Hr'|].
    split; [exact Hp'|]. split; [exact Hpe'|].
    split; [exact (run_ops_gen_exact ops s s' Hrun)|].
    split; [|exact Hinv'].
    intros Hc.
    rewrite (run_hist_no_commit ops s s' [] dropped Hc Hhist) in Hk.
    cbn [app] in Hk. now rewrite Hbuf', Hbuf, Hk.
  - intros Hterm. split; [now apply Advance_terminal|].
    now apply terminal_idle_run.
  - intros k u Hk Hnth.
    assert (Hklt : k < Z.of_nat (length (buf s))).
    { assert (Z.to_nat k < length (buf s))%nat
        by (apply nth_error_Some; congruence). lia. }
    split; [now intros ->|].
    split; [intros sp Hg <-; now apply Restore_valid|].
    split.
    + apply (Advance_in_log Read (reset s k) u); [reflexivity|exact Hklt|].
      exact Hnth.
    + intros Hspec.
      unfold RuneStream_Commit. rewrite Z.gtb_ltb.
      destruct (Z.ltb_spec (Z.of_nat (length (buf s))) (spec s)); [lia|].
      eexists. split; [reflexivity|].
      split; [cbn; now rewrite Hspec|].
      split; [reflexivity|]. split; [reflexivity|].
      erewrite Advance_in_log; [reflexivity|reflexivity| |].
      * cbn [spec buf with_curr with_spec with_gen with_buf].
        rewrite Hspec, length_skipn. lia.
      * cbn [spec buf with_curr with_spec with_gen with_buf].
        change (Z.to_nat 0) with 0%nat.
        rewrite Hspec, nth_error_skipn, Nat.add_0_r. exact Hnth.
  - intros Hend.
    unfold RuneStream_Commit. rewrite Z.gtb_ltb.
    destruct (Z.ltb_spec (Z.of_nat (length (buf s))) (spec s)); [lia|].
    eexists. split; [reflexivity|].
    split; [|split; reflexivity].
    cbn. rewrite Hend, Nat2Z.id. apply skipn_all.
  - intros sp Hsp. now apply Restore_stale.
Qed.

End TerminalUnit.

(** ** Concrete runs *)

Lemma stream_over_new {R : Type} (st : R) :
  NewRuneStream (handle st) = Ret (stream_over st).
Proof.
  unfold stream_over.
  assert (H1 : 0 <= BlockSize default_options) by (cbn; lia).
  assert (H2 : 1 <= Max (decoder_of (Decoder_ default_options)))
    by (vm_compute; discriminate).
  assert (H3 : block_size_of (BlockSize default_options)
               + Max (decoder_of (Decoder_ default_options)) <= maxInt)
    by (vm_compute; discriminate).
  destruct (Init_returns (@zero_RuneStream R) (handle st) default_options
                         H1 H2 H3) as [s0 Hs0].
  unfold NewRuneStream, New. fold default_options. rewrite Hs0. reflexivity.
Qed.

Lemma stream_over_wf {R : Type} (st : R) : stream_wf (stream_over st).
Proof.
  assert (Hint : BlockSize default_options <= maxInt)
    by (cbn; unfold maxInt; lia).
  exact (proj1 (Init_log_inv zero_RuneStream (stream_over st) (handle st)
                             default_options eq_refl Hint
                             (stream_over_new st))).
Qed.

Lemma after_returns {R : Type}
      (Read : R -> Z -> (list byte * option error) * R)
      (ops : list op) (s : RuneStream R) :
  returns (run_ops Read ops s) = true ->
  run_ops Read ops s = Ret (after Read ops s).
Proof.
  unfold after. destruct (run_ops Read ops s); now try discriminate.
Qed.

Lemma after_hist_returns {R : Type}
      (Read : R -> Z -> (list byte * option error) * R)
      (ops : list op) (s : RuneStream R) :
  returns (run_hist Read ops s []) = true ->
  run_hist Read ops s [] =
  Ret (fst (after_hist Read ops s), snd (after_hist Read ops s)).
Proof.
  unfold after_hist.
  destruct (run_hist Read ops s []) as [[s' h]| |]; now try discriminate.
Qed.

Lemma advances_run_ops {R : Type}
      (Read : R -> Z -> (list byte * option error) * R) (n : nat) :
  forall s : RuneStream R,
    advances Read n s = run_ops Read (repeat OpAdvance n) s.
Proof.
  induction n as [|n IH]; intros s; [reflexivity|].
  cbn [advances repeat run_ops step_op].
  destruct (RuneStream_Advance Read s) as [[ok s1]| |]; try reflexivity.
  cbn [obind]. apply IH.
Qed.

Lemma advances_after {R : Type}
      (Read : R -> Z -> (list byte * option error) * R) (n : nat)
      (s : RuneStream R) :
  returns (run_ops Read (repeat OpAdvance n) s) = true ->
  advances Read n s = Ret (after Read (repeat OpAdvance n) s).
Proof.
  intros H. rewrite advances_run_ops. now apply after_returns.
Qed.

Lemma terminal_unit_is_sticky_witness :
  let s := after strings_Read [OpAdvance; OpAdvance; OpAdvance]
                 (stream_over [x61; x62]) in
  let ops := [OpAdvance; OpSave; OpRewind; OpAdvance; OpCommit; OpAdvance;
              OpRestore (SavePoint.mk 2 0); OpAdvance; OpAdvance;
              OpAdvance] in
  buf s = [unit_at (At 0 1 1) 97 1; unit_at (At 1 1 2) 98 1]
          ++ [eof_at (At 2 1 3)] /\
  at_terminal s = true /\
  keeps_log_run strings_Read ops s = true /\
  (exists s',
      run_ops strings_Read ops s = Ret s' /\
      buf s' = [unit_at (At 1 1 2) 98 1] ++ [eof_at (At 2 1 3)] /\
      reads_issued s' = reads_issued s /\ at_terminal s' = true) /\
  RuneStream_Advance strings_Read s = Ret (false, s) /\
  RuneStream_Advance strings_Read (RuneStream_Rewind s) =
    Ret (true, with_spec (with_curr (reset s 0)
                                    (Some (unit_at (At 0 1 1) 97 1))) 1).
Proof.
  intros s ops.
  assert (Hbuf : buf s = [unit_at (At 0 1 1) 97 1; unit_at (At 1 1 2) 98 1]
                         ++ [eof_at (At 2 1 3)])
    by (vm_compute; reflexivity).
  assert (Hterm : at_terminal s = true) by (vm_compute; reflexivity).
  assert (Hops : keeps_log_run strings_Read ops s = true)
    by (vm_compute; reflexivity).
  assert (Hlen : Z.of_nat (length (buf s)) <= maxInt)
    by (vm_compute; discriminate).
  assert (HT : is_terminal (eof_at (At 2 1 3)) = true) by reflexivity.
  assert (Hkept : buf (after strings_Read ops s)
                  = [unit_at (At 1 1 2) 98 1] ++ [eof_at (At 2 1 3)])
    by (vm_compute; reflexivity).
  assert (Hend : at_terminal (after strings_Read ops s) = true)
    by (vm_compute; reflexivity).
  assert (Hnth : nth_error (buf s) (Z.to_nat 0)
                 = Some (unit_at (At 0 1 1) 97 1))
    by (vm_compute; reflexivity).
  pose proof (after_returns strings_Read ops s) as Hafter.
  clearbody s ops.
  destruct (terminal_unit_is_sticky strings_Read s _ _ ops Hbuf HT Hlen
              (or_introl Hterm)) as (Hlog & Hidle & Hreplay & _).
  split; [exact Hbuf|]. split; [exact Hterm|]. split; [exact Hops|].
  split; [|split].
  - destruct (Hlog Hops) as (s' & dropped & kept & Hrun & _ & _ & _ & _
                             & Hreads & _).
    exists s'. split; [exact Hrun|].
    rewrite Hafter in Hrun by (now rewrite Hrun). injection Hrun as <-.
    split; [exact Hkept|]. split; [exact Hreads|exact Hend].
  - exact (proj1 (Hidle Hterm)).
  - destruct (Hreplay 0 _ (Z.le_refl 0) Hnth) as (Hrw & _ & Hadv & _).
    rewrite (Hrw eq_refl). exact Hadv.
Defined.

(** After the terminal unit has become current, [Commit] drops it from the
    log and the next [Advance] reads the source again; so does [Advance]
    after a [Restore] to the end of the log, which appends to the log
    after the terminal unit; after [Rewind], [Advance] returns true. *)
Lemma terminal_unit_not_sticky_across_commit_and_rewind :
  let s := after strings_Read [OpAdvance; OpAdvance] (stream_over [x61]) in
  let s1 := after strings_Read [OpCommit] s in
  let s2 := after strings_Read [OpCommit; OpAdvance] s in
  let sp := RuneStream_Save s in
  let s3 := after strings_Read [OpRestore sp; OpAdvance] s in
  at_terminal s = true /\ reads_issued s = 2%nat /\
  buf s = [unit_at (At 0 1 1) 97 1; eof_at (At 1 1 2)] /\
  returns (run_ops strings_Read [OpCommit; OpAdvance] s) = true /\
  buf s1 = [] /\
  advanced (RuneStream_Advance strings_Read s1) = Some false /\
  reads_issued s2 = 3%nat /\
  returns (run_ops strings_Read [OpRestore sp; OpAdvance] s) = true /\
  reads_issued s3 = 3%nat /\
  buf s3 = [unit_at (At 0 1 1) 97 1; eof_at (At 1 1 2); eof_at (At 1 1 2)] /\
  advanced (RuneStream_Advance strings_Read (RuneStream_Rewind s)) = Some true.
Proof.
  cbv zeta.
  repeat (split; [vm_compute; reflexivity|]).
  vm_compute. reflexivity.
Qed.

Lemma save_restore_replays_witness :
  let s0 := stream_over [x61; x62; x63] in
  let sN := after strings_Read (repeat OpAdvance 1) s0 in
  let sM := after strings_Read (repeat OpAdvance 2) sN in
  advances strings_Read 1 s0 = Ret sN /\
  at_terminal sN = false /\
  advances strings_Read 2 sN = Ret sM /\
  exists sB,
    RuneStream_Restore sM (RuneStream_Save sN) = Ret sB /\
    observe strings_Read 3 sB = observe strings_Read 3 sN.
Proof.
  intros s0 sN sM.
  assert (R1 : returns (run_ops strings_Read (repeat OpAdvance 1) s0) = true)
    by (vm_compute; reflexivity).
  assert (R3 : returns (run_ops strings_Read (repeat OpAdvance 2) sN) = true)
    by (vm_compute; reflexivity).
  assert (H2 : at_terminal sN = false) by (vm_compute; reflexivity).
  pose proof (advances_after strings_Read 1 s0 R1 : 
                advances strings_Read 1 s0 = Ret sN) as H1.
  pose proof (advances_after strings_Read 2 sN R3 :
                advances strings_Read 2 sN = Ret sM) as H3.
  clearbody s0 sN sM.
  split; [exact H1|]. split; [exact H2|]. split; [exact H3|].
  exact (save_restore_replays strings_Read s0 sN sM 1 2 3 H1 H2 H3).
Defined.

(** With N = 1 and M = 1 on a file that has grown after its end was
    reported: the run that stopped stays on the terminal unit, the run that
    restored the save point reads again and returns the new byte. *)
Lemma restore_at_terminal_unit_reads_again :
  let s0 := stream_over growing_file in
  let sN := after script_Read (repeat OpAdvance 1) s0 in
  let sB := reset sN (spec sN) in
  advances script_Read 1 s0 = Ret sN /\
  advances script_Read 1 sN = Ret sN /\
  RuneStream_Restore sN (RuneStream_Save sN) = Ret sB /\
  observe script_Read 1 sN = [EvUnit false 0 0 (At 0 1 1)] /\
  observe script_Read 1 sB = [EvUnit true 97 1 (At 0 1 1)] /\
  observe script_Read 1 sB <> observe script_Read 1 sN.
Proof.
  intros s0 sN sB.
  assert (Hterm : at_terminal sN = true) by (vm_compute; reflexivity).
  assert (HN : observe script_Read 1 sN = [EvUnit false 0 0 (At 0 1 1)])
    by (vm_compute; reflexivity).
  assert (HB : observe script_Read 1 sB = [EvUnit true 97 1 (At 0 1 1)])
    by (vm_compute; reflexivity).
  assert (R1 : returns (run_ops script_Read (repeat OpAdvance 1) s0) = true)
    by (vm_compute; reflexivity).
  pose proof (advances_after script_Read 1 s0 R1 :
                advances script_Read 1 s0 = Ret sN) as H1.
  assert (HB' : sB = reset sN (spec sN)) by reflexivity.
  clearbody sB. subst sB. clearbody sN. clearbody s0.
  split; [exact H1|].
  split; [now apply advances_terminal|].
  split; [now apply Restore_valid|].
  split; [exact HN|]. split; [exact HB|].
  rewrite HN, HB. discriminate.
Qed.

Lemma commit_invalidates_save_points_witness :
  let s := stream_over [x61; x62] in
  let ops := [OpAdvance; OpCommit; OpAdvance] in
  let s' := after strings_Read ops s in
  0 <= gen s < 2 ^ 64 /\
  run_ops strings_Read ops s = Ret s' /\
  0 < commits ops < 2 ^ 64 /\
  RuneStream_Restore s' (RuneStream_Save s) = Panic "save point is stale".
Proof.
  intros s ops s'.
  assert (H1 : 0 <= gen s < 2 ^ 64) by (vm_compute; split; [discriminate|reflexivity]).
  assert (R2 : returns (run_ops strings_Read ops s) = true)
    by (vm_compute; reflexivity).
  pose proof (after_returns strings_Read ops s R2 :
                run_ops strings_Read ops s = Ret s') as H2.
  assert (H3 : 0 < commits ops < 2 ^ 64) by (vm_compute; split; reflexivity).
  clearbody s ops s'.
  split; [exact H1|]. split; [exact H2|]. split; [exact H3|].
  exact (proj1 (commit_invalidates_save_points strings_Read s s' ops H1 H2 H3)).
Defined.

(** C3. A save point outlives 2^64 calls of [Commit]. The generation is a
    [uint] that [Commit] increments and [Restore] compares for equality;
    after 2^64 calls it has come round to the value it had, and [Restore]
    of the old save point returns where it should panic: the documentation
    of [Commit] says that each call to Commit() invalidates all save
    points. *)
Lemma generation_wraps_after_2_64_commits :
  let s := stream_over ([] : list byte) in
  exists s',
    run_ops strings_Read (repeat OpCommit (Z.to_nat (2 ^ 64))) s = Ret s' /\
    commits (repeat OpCommit (Z.to_nat (2 ^ 64))) = 2 ^ 64 /\
    RuneStream_Restore s' (RuneStream_Save s) = Ret (reset s' (spec s)).
Proof.
  intros s.
  assert (Hs : 0 <= gen s < 2 ^ 64) by (vm_compute; split; [discriminate|reflexivity]).
  assert (Hspec : spec s <= Z.of_nat (length (buf s)))
    by (vm_compute; discriminate).
  clearbody s.
  assert (Hn : commits (repeat OpCommit (Z.to_nat (2 ^ 64))) = 2 ^ 64).
  { rewrite commits_repeat. apply Z2Nat.id. rewrite two64. lia. }
  destruct (run_commits strings_Read (Z.to_nat (2 ^ 64)) s Hspec) as [s' Hrun].
  exists s'. split; [exact Hrun|]. split; [exact Hn|].
  apply Restore_valid. cbn [RuneStream_Save SavePoint.gen].
  pose proof (run_ops_gen _ _ _ _ Hrun) as Hgen. rewrite Hn in Hgen.
  pose proof (run_ops_gen_range _ _ _ _ Hs Hrun) as Hrange.
  rewrite (u64_small _ Hrange) in Hgen. rewrite Hgen.
  unfold u64. rewrite <- (Z.mul_1_l (2 ^ 64)) at 1.
  rewrite Z.mod_add by (rewrite two64; lia).
  symmetry. apply Z.mod_small. exact Hs.
Qed.

(** C4. Position.Advance on a carriage return of positive size adds the
    size to the offset, increments the line, sets the column to 1 and sets
    SkipNextLF; on a line feed while SkipNextLF is set it only adds the size
    to the offset and clears SkipNextLF. Decoding "a\r\nb" yields 'a' at
    (1,1), '\r' at (1,2), '\n' at (2,1) and 'b' at (2,1), then the end of
    data. *)
Theorem crlf_is_one_line_break :
  (forall (p : Position) (size : Z),
      0 < size ->
      Position_Advance p rune_CR size =
      Ret {| Offset := u64 (Offset p + size); Line := u64 (Line p + 1);
             Column := 1; SkipNextLF := true |}) /\
  (forall (p : Position) (size : Z),
      0 < size -> SkipNextLF p = true ->
      Position_Advance p rune_LF size =
      Ret {| Offset := u64 (Offset p + size); Line := Line p;
             Column := Column p; SkipNextLF := false |}) /\
  observe strings_Read 5 (stream_over [x61; x0d; x0a; x62]) =
  [ EvUnit true 97 1 (At 0 1 1);
    EvUnit true 13 1 (At 1 1 2);
    EvUnit true 10 1 (AtSkip 2 2 1);
    EvUnit true 98 1 (At 3 2 1);
    EvUnit false 0 0 (At 4 2 2) ].
Proof.
  split; [exact Position_Advance_CR|].
  split; [exact Position_Advance_LF_skipped|].
  vm_compute. reflexivity.
Qed.

Lemma crlf_is_one_line_break_witness :
  0 < 1 /\ SkipNextLF (AtSkip 2 2 1) = true /\
  Position_Advance (At 1 1 2) rune_CR 1 = Ret (AtSkip 2 2 1) /\
  Position_Advance (AtSkip 2 2 1) rune_LF 1 = Ret (At 3 2 1).
Proof.
  split; [lia|]. split; [reflexivity|].
  destruct crlf_is_one_line_break as (Hcr & Hlf & _).
  split.
  - exact (Hcr (At 1 1 2) 1 ltac:(lia)).
  - exact (Hlf (AtSkip 2 2 1) 1 ltac:(lia) eq_refl).
Defined.

(** C5 (as amended). For every column c with 1 <= c <= 2^64 - 8,
    Position.Advance on a tab of positive size moves the column to the
    smallest value of the form 8k+1 above c and clears SkipNextLF; from
    column 1 to 9, from 5 to 9, from 9 to 17. *)
Theorem tab_moves_to_next_stop (p : Position) (size : Z) :
  0 < size -> 1 <= Column p <= 2 ^ 64 - 8 ->
  exists p',
    Position_Advance p rune_TAB size = Ret p' /\
    Column p' = next_tab_stop (Column p) /\
    Column p < Column p' /\
    (forall k, Column p < 8 * k + 1 -> Column p' <= 8 * k + 1) /\
    SkipNextLF p' = false /\ Line p' = Line p /\
    (Column p = 1 -> Column p' = 9) /\
    (Column p = 5 -> Column p' = 9) /\
    (Column p = 9 -> Column p' = 17).
Proof.
  intros Hsize Hc. rewrite (Position_Advance_TAB _ _ Hsize).
  eexists. split; [reflexivity|]. cbn [Column SkipNextLF Line].
  rewrite (tab_column _ Hc). unfold next_tab_stop.
  pose proof (Z.mod_pos_bound (Column p - 1) 8 ltac:(lia)) as Hm.
  pose proof (Z.div_mod (Column p - 1) 8 ltac:(lia)) as Hd.
  split; [reflexivity|]. split; [lia|]. split; [intros k Hk; lia|].
  split; [reflexivity|]. split; [reflexivity|].
  repeat split; intros ->; reflexivity.
Qed.

Lemma tab_moves_to_next_stop_witness :
  0 < 1 /\ 1 <= Column (At 4 1 5) <= 2 ^ 64 - 8 /\
  exists p',
    Position_Advance (At 4 1 5) rune_TAB 1 = Ret p' /\ Column p' = 9.
Proof.
  assert (H1 : 0 < 1) by lia.
  assert (H2 : 1 <= Column (At 4 1 5) <= 2 ^ 64 - 8)
    by (cbn [Column At]; rewrite two64; lia).
  split; [exact H1|]. split; [exact H2|].
  destruct (tab_moves_to_next_stop (At 4 1 5) 1 H1 H2)
    as (p' & Hrun & _ & _ & _ & _ & _ & _ & H5 & _).
  exists p'. split; [exact Hrun|]. now apply H5.
Defined.

(** From the last column of a [uint64] a tab wraps around to column 1,
    which is not above the column it started from. *)
Lemma tab_wraps_at_the_last_column :
  let p := At 0 1 (2 ^ 64 - 1) in
  1 <= Column p < 2 ^ 64 /\
  Position_Advance p rune_TAB 1 = Ret (At 1 1 1) /\
  ~ (Column p < Column (At 1 1 1)).
Proof.
  cbv zeta. cbn [Column At]. rewrite two64.
  split; [lia|]. split; [vm_compute; reflexivity|]. lia.
Qed.

Lemma offsets_are_size_sums_witness :
  let inp := [x61; xc3; xb1; x0a] in
  let s0 := stream_over inp in
  let ops := [OpAdvance; OpCommit; OpAdvance; OpAdvance] in
  let s := fst (after_hist strings_Read ops s0) in
  let hist := snd (after_hist strings_Read ops s0) in
  let u := unit_at (At 3 1 3) 10 1 in
  Decoder_ default_options = None /\
  BlockSize default_options <= maxInt /\
  RuneStream_Init zero_RuneStream (handle inp) default_options = Ret s0 /\
  run_hist strings_Read ops s0 [] = Ret (s, hist) /\
  nth_error (hist ++ buf s) 2 = Some u /\
  is_terminal u = false /\
  1 <= savedRune.size u /\
  Offset (savedRune.pos u) = u64 (sum_sizes (firstn 2 (hist ++ buf s))) /\
  sum_sizes (firstn 2 (hist ++ buf s)) = 3.
Proof.
  intros inp s0 ops s hist u.
  assert (H1 : Decoder_ default_options = None) by reflexivity.
  assert (H2 : BlockSize default_options <= maxInt)
    by (vm_compute; discriminate).
  pose proof (stream_over_new inp
              : RuneStream_Init zero_RuneStream (handle inp) default_options
                = Ret s0) as H3.
  assert (R4 : returns (run_hist strings_Read ops s0 []) = true)
    by (vm_compute; reflexivity).
  pose proof (after_hist_returns strings_Read ops s0 R4
              : run_hist strings_Read ops s0 [] = Ret (s, hist)) as H4.
  assert (H5 : nth_error (hist ++ buf s) 2 = Some u)
    by (vm_compute; reflexivity).
  assert (H6 : is_terminal u = false) by reflexivity.
  assert (H7 : sum_sizes (firstn 2 (hist ++ buf s)) = 3)
    by (vm_compute; reflexivity).
  clearbody s hist s0.
  destruct (offsets_are_size_sums strings_Read zero_RuneStream s0 s
              (handle inp) default_options ops hist 2 u H1 H2 H3 H4 H5 H6)
    as (Hsz & Hoff & _).
  repeat (split; [assumption|]). exact H7.
Defined.

Lemma Init_checks_options_witness :
  RuneStream_Init zero_RuneStream (handle ([] : list byte))
                  {| BlockSize := -1; Decoder_ := None |}
  = Panic "BlockSize < 0" /\
  RuneStream_Init zero_RuneStream (handle ([] : list byte))
                  {| BlockSize := 16; Decoder_ := Some null_decoder |}
  = Panic "Decoder returned Max() < 1" /\
  exists s0,
    RuneStream_Init zero_RuneStream (handle ([] : list byte)) default_options
    = Ret s0 /\
    bs s0 = 4096 /\ d s0 = Some UTF8Decoder.
Proof.
  split; [|split].
  - destruct (Init_checks_options zero_RuneStream (handle ([] : list byte))
                {| BlockSize := -1; Decoder_ := None |}) as (H & _).
    apply H. reflexivity.
  - destruct (Init_checks_options zero_RuneStream (handle ([] : list byte))
                {| BlockSize := 16; Decoder_ := Some null_decoder |})
      as (_ & H & _).
    apply H; [discriminate|reflexivity].
  - destruct (Init_checks_options zero_RuneStream (handle ([] : list byte))
                default_options) as (_ & _ & _ & _ & _ & H & _).
    apply H; reflexivity.
Defined.

Lemma TakeWhile_never_witness :
  let s := stream_over [x31; x61] in
  (forall rn : Z, (fun _ : Z => false) rn = false) /\
  exists s',
    RuneStream_TakeWhile strings_Read 1 s (-1) [33] (fun _ => false)
    = Ret ([33], s') /\
    spec s' = spec s.
Proof.
  intros s.
  assert (Hp : forall rn : Z, (fun _ : Z => false) rn = false)
    by reflexivity.
  assert (Hret : returns (RuneStream_TakeWhile strings_Read 1 s (-1) [33]
                                               (fun _ => false)) = true)
    by (vm_compute; reflexivity).
  clearbody s.
  split; [exact Hp|].
  destruct (TakeWhile_never strings_Read 0 s (-1) [33] (fun _ => false) Hp)
    as [_ Hres].
  destruct (RuneStream_TakeWhile strings_Read 1 s (-1) [33] (fun _ => false))
    as [[out s']| |]; try discriminate.
  destruct (Hres out s' eq_refl) as [-> Hspec].
  exists s'. split; [reflexivity|exact Hspec].
Defined.

Lemma save_rewind_restore_frame_witness :
  let s := after strings_Read [OpAdvance; OpAdvance]
                 (stream_over [x61; x62; x63]) in
  let sp := SavePoint.mk 1 1 in
  SavePoint.gen sp = gen s /\
  RuneStream_Restore s sp = Ret (with_curr (with_spec s 1) None) /\
  buf (with_curr (with_spec s 1) None) = buf s /\
  r (with_curr (with_spec s 1) None) = r s.
Proof.
  intros s sp.
  assert (Hg : SavePoint.gen sp = gen s) by (vm_compute; reflexivity).
  clearbody s.
  destruct (save_rewind_restore_frame strings_Read s sp Hg)
    as (_ & _ & _ & Hres & Hframe).
  split; [exact Hg|]. split; [exact Hres|].
  destruct (Hframe 1 None) as (Hb & _ & _ & _ & _ & _ & Hr & _).
  split; [exact Hb|exact Hr].
Defined.

(** A read that ends inside a rune, with no error: [load] appends nothing
    and [Advance] indexes past the end of the log. *)
Example truncated_rune_panics :
  panic_of (RuneStream_Advance strings_Read (stream_over [xe6]))
  = Some "index out of range"%string.
Proof. vm_compute. reflexivity. Qed.

(** * More of the code *)

Ltac split_prune :=
  split_if; try solve [exfalso; to_props; lia].

Ltac pruned_paths :=
  repeat split_prune;
  try solve [to_props; intros; repeat split;
             (reflexivity || congruence || lia)].

Ltac lens :=
  repeat match goal with
  | |- context [Z.of_nat (length ?l)] =>
      let v := eval vm_compute in (Z.of_nat (length l)) in
      change (Z.of_nat (length l)) with v
  end.

Lemma utf8_full_app (p q : list byte) :
  utf8.FullRune p = true ->
  utf8.FullRune (p ++ q) = true /\
  utf8.DecodeRune (p ++ q) = utf8.DecodeRune p.
Proof.
  destruct p as [|c0 rest]; [discriminate|].
  unfold utf8.FullRune, utf8.DecodeRune, utf8.at_.
  cbn [app nth].
  destruct (first_of_spec c0) as [Hx Hb|Hx Hb Hw|Hx Hb Hw Hsz Hlo Hhi].
  - rewrite Hx.
    assert (Hn : 1 <= Z.of_nat (length (c0 :: rest))) by (cbn [length]; lia).
    assert (Hm : 1 <= Z.of_nat (length (c0 :: rest ++ q)))
      by (cbn [length]; lia).
    generalize dependent (Z.of_nat (length (c0 :: rest))). intros n Hn.
    generalize dependent (Z.of_nat (length (c0 :: rest ++ q))). intros m Hm.
    change (Z.land utf8.as_ 7) with 0.
    change (utf8.as_ >=? utf8.as_) with true.
    cbv beta iota. paths.
  - rewrite Hx.
    assert (Hn : 1 <= Z.of_nat (length (c0 :: rest))) by (cbn [length]; lia).
    assert (Hm : 1 <= Z.of_nat (length (c0 :: rest ++ q)))
      by (cbn [length]; lia).
    generalize dependent (Z.of_nat (length (c0 :: rest))). intros n Hn.
    generalize dependent (Z.of_nat (length (c0 :: rest ++ q))). intros m Hm.
    change (Z.land utf8.xx 7) with 1.
    change (utf8.xx >=? utf8.as_) with true.
    cbv beta iota. paths.
  - rewrite Hx.
    generalize dependent (utf8.accept_of (utf8.first_of (byteZ c0))).
    intros acc _ _.
    generalize dependent (Z.land (utf8.first_of (byteZ c0)) 7).
    intros sz _ Hsz.
    clear Hx Hb.
    unfold utf8.locb, utf8.hicb. cbv beta iota.
    destruct rest as [|c1 [|c2 [|c3 rest]]].
    + lens. pruned_paths.
    + destruct q as [|d0 [|d1 q]]; cbn [app nth].
      * lens. pruned_paths.
      * lens. pruned_paths.
      * assert (Hm : 4 <= Z.of_nat (length (c0 :: c1 :: d0 :: d1 :: q)))
          by (cbn [length]; lia).
        generalize dependent (Z.of_nat (length (c0 :: c1 :: d0 :: d1 :: q))).
        intros m Hm. lens. pruned_paths.
    + destruct q as [|d0 q]; cbn [app nth].
      * lens. pruned_paths.
      * assert (Hm : 4 <= Z.of_nat (length (c0 :: c1 :: c2 :: d0 :: q)))
          by (cbn [length]; lia).
        generalize dependent (Z.of_nat (length (c0 :: c1 :: c2 :: d0 :: q))).
        intros m Hm. lens. pruned_paths.
    + cbn [app nth].
      assert (Hn : 4 <= Z.of_nat (length (c0 :: c1 :: c2 :: c3 :: rest)))
        by (cbn [length]; lia).
      assert (Hm : 4 <= Z.of_nat (length (c0 :: c1 :: c2 :: c3 :: rest ++ q)))
        by (cbn [length]; lia).
      generalize dependent (Z.of_nat (length (c0 :: c1 :: c2 :: c3 :: rest))).
      intros n Hn.
      generalize dependent
        (Z.of_nat (length (c0 :: c1 :: c2 :: c3 :: rest ++ q))).
      intros m Hm. pruned_paths.
Qed.

(** ** Decoding in one piece *)

Lemma UTF8Decoder_stable : decoder_stable UTF8Decoder.
Proof. intros p q H. now apply utf8_full_app. Qed.

Lemma decoder_ok_nil (dcd : Decoder) :
  decoder_ok dcd -> FullRune dcd [] = false.
Proof.
  intros Hd. destruct (FullRune dcd []) eqn:E; [|reflexivity].
  apply Hd in E. cbn in E. lia.
Qed.

Lemma decode_units_enough (dcd : Decoder) :
  decoder_ok dcd ->
  forall (f f' : nat) (pos : Position) (p : list byte),
    (length p <= f)%nat -> (length p <= f')%nat ->
    decode_units f dcd pos p = decode_units f' dcd pos p.
Proof.
  intros Hd. induction f as [|f IH]; intros f' pos p Hf Hf'.
  - destruct p; [|cbn in Hf; lia].
    destruct f'; cbn; [reflexivity|]. now rewrite decoder_ok_nil.
  - destruct f' as [|f'].
    + destruct p; [|cbn in Hf'; lia]. cbn. now rewrite decoder_ok_nil.
    + cbn [decode_units]. destruct (FullRune dcd p) eqn:Hfull; [|reflexivity].
      pose proof (Hd _ Hfull) as Hsz.
      destruct (DecodeRune dcd p) as [rn sz]. cbn [snd] in Hsz.
      destruct (Position_Advance pos rn sz); try reflexivity.
      rewrite (IH f'); [reflexivity| |]; rewrite length_skipn; lia.
Qed.

Lemma decode_units_stop (dcd : Decoder) (pos : Position) (p : list byte) :
  FullRune dcd p = false ->
  units_of dcd pos p = [] /\ pos_after dcd pos p = pos /\
  left_over dcd pos p = p.
Proof.
  intros H. unfold units_of, pos_after, left_over.
  destruct (length p); cbn [decode_units]; [|rewrite H]; auto.
Qed.

Lemma decode_units_step (dcd : Decoder) (pos : Position) (p : list byte) :
  decoder_ok dcd -> FullRune dcd p = true ->
  exists pos',
    Position_Advance pos (fst (DecodeRune dcd p)) (snd (DecodeRune dcd p))
    = Ret pos' /\
    units_of dcd pos p =
      savedRune.mk pos (fst (DecodeRune dcd p)) (snd (DecodeRune dcd p)) None
      :: units_of dcd pos' (skipn (Z.to_nat (snd (DecodeRune dcd p))) p) /\
    pos_after dcd pos p =
      pos_after dcd pos' (skipn (Z.to_nat (snd (DecodeRune dcd p))) p) /\
    left_over dcd pos p =
      left_over dcd pos' (skipn (Z.to_nat (snd (DecodeRune dcd p))) p).
Proof.
  intros Hd Hfull. pose proof (Hd _ Hfull) as Hsz.
  destruct (Position_Advance_returns pos (fst (DecodeRune dcd p))
              (snd (DecodeRune dcd p))) as [pos' Hp]; [lia|].
  exists pos'. split; [exact Hp|].
  unfold units_of, pos_after, left_over.
  destruct (length p) as [|n] eqn:Hlen; [lia|].
  cbn [decode_units]. rewrite Hfull.
  destruct (DecodeRune dcd p) as [rn sz]. cbn [fst snd] in *.
  rewrite Hp.
  rewrite (decode_units_enough dcd Hd n
             (length (skipn (Z.to_nat sz) p)))
    by (rewrite length_skipn; lia).
  destruct (decode_units _ dcd pos' (skipn (Z.to_nat sz) p)) as [[us p2] rest].
  cbn. auto.
Qed.

(** What the pieces of [decode_units] are like. *)
Lemma decode_units_facts (dcd : Decoder) :
  decoder_ok dcd ->
  forall (n : nat) (p : list byte) (pos : Position),
    (length p <= n)%nat ->
    Forall (fun u => is_terminal u = false) (units_of dcd pos p) /\
    FullRune dcd (left_over dcd pos p) = false /\
    (length (units_of dcd pos p) + length (left_over dcd pos p)
     <= length p)%nat.
Proof.
  intros Hd. induction n as [|n IH]; intros p pos Hn.
  - destruct p; [|cbn in Hn; lia].
    destruct (decode_units_stop dcd pos [] (decoder_ok_nil dcd Hd))
      as (-> & _ & ->).
    split; [constructor|]. split; [now apply decoder_ok_nil|cbn; lia].
  - destruct (FullRune dcd p) eqn:Hfull.
    + pose proof (Hd _ Hfull) as Hsz.
      destruct (decode_units_step dcd pos p Hd Hfull)
        as (pos' & _ & -> & _ & ->).
      destruct (IH (skipn (Z.to_nat (snd (DecodeRune dcd p))) p) pos')
        as (H1 & H2 & H3).
      { rewrite length_skipn. lia. }
      split; [constructor; [reflexivity|exact H1]|].
      split; [exact H2|].
      rewrite length_skipn in H3. cbn [length]. lia.
    + destruct (decode_units_stop dcd pos p Hfull) as (-> & _ & ->).
      split; [constructor|]. split; [exact Hfull|cbn; lia].
Qed.

Lemma units_of_nonterminal (dcd : Decoder) (pos : Position) (p : list byte) :
  decoder_ok dcd ->
  Forall (fun u => is_terminal u = false) (units_of dcd pos p).
Proof. intros Hd. now apply (decode_units_facts dcd Hd (length p)). Qed.

Lemma left_over_not_full (dcd : Decoder) (pos : Position) (p : list byte) :
  decoder_ok dcd -> FullRune dcd (left_over dcd pos p) = false.
Proof. intros Hd. now apply (decode_units_facts dcd Hd (length p)). Qed.

Lemma units_of_length (dcd : Decoder) (pos : Position) (p : list byte) :
  decoder_ok dcd ->
  (length (units_of dcd pos p) + length (left_over dcd pos p)
   <= length p)%nat.
Proof. intros Hd. now apply (decode_units_facts dcd Hd (length p)). Qed.

(** Decoding [p ++ q] is decoding [p], and then what [p] left over with
    [q]: where the input is cut does not matter. *)
Lemma decode_units_app (dcd : Decoder) :
  decoder_ok dcd -> decoder_stable dcd ->
  forall (n : nat) (p q : list byte) (pos : Position),
    (length p <= n)%nat ->
    units_of dcd pos (p ++ q) =
      units_of dcd pos p ++
      units_of dcd (pos_after dcd pos p) (left_over dcd pos p ++ q) /\
    pos_after dcd pos (p ++ q) =
      pos_after dcd (pos_after dcd pos p) (left_over dcd pos p ++ q) /\
    left_over dcd pos (p ++ q) =
      left_over dcd (pos_after dcd pos p) (left_over dcd pos p ++ q).
Proof.
  intros Hd Hst. induction n as [|n IH]; intros p q pos Hn.
  - destruct p; [|cbn in Hn; lia].
    destruct (decode_units_stop dcd pos [] (decoder_ok_nil dcd Hd))
      as (-> & -> & ->).
    cbn [app]. auto.
  - destruct (FullRune dcd p) eqn:Hfull.
    + pose proof (Hd _ Hfull) as Hsz.
      destruct (Hst p q Hfull) as [Hfull' Hdec'].
      destruct (decode_units_step dcd pos p Hd Hfull)
        as (pos' & Hp & -> & -> & ->).
      destruct (decode_units_step dcd pos (p ++ q) Hd Hfull')
        as (pos2 & Hp2 & -> & -> & ->).
      rewrite Hdec' in *. rewrite Hp in Hp2. injection Hp2 as <-.
      rewrite skipn_app.
      replace (Z.to_nat (snd (DecodeRune dcd p)) - length p)%nat with O
        by lia.
      cbn [skipn].
      destruct (IH (skipn (Z.to_nat (snd (DecodeRune dcd p))) p) q pos')
        as (H1 & H2 & H3).
      { rewrite length_skipn. lia. }
      rewrite H1, H2, H3. cbn [app]. auto.
    + destruct (decode_units_stop dcd pos p Hfull) as (-> & -> & ->).
      cbn [app]. auto.
Qed.

Lemma wellformed_len_range (p : list byte) (n : Z) :
  wellformed_len p = Some n -> 1 <= n <= 4.
Proof.
  unfold wellformed_len.
  destruct (map byteZ p) as [|c0 [|c1 [|c2 [|c3 rest]]]];
    repeat match goal with
           | |- context [if ?c then _ else _] => destruct c
           end;
    intros H; try discriminate; injection H as <-; lia.
Qed.

Lemma utf8_size_max (p : list byte) :
  utf8.FullRune p = true -> snd (utf8.DecodeRune p) <= utf8.UTFMax.
Proof.
  intros Hf.
  assert (Hne : p <> []) by (intros ->; discriminate).
  pose proof (utf8_decode_spec p Hne) as H.
  destruct (wellformed_len p) as [n|] eqn:Hw.
  - destruct H as (_ & -> & _). apply wellformed_len_range in Hw.
    change utf8.UTFMax with 4. lia.
  - destruct H as [H _]. rewrite (H Hf). cbn. discriminate.
Qed.

Lemma utf8_long_is_full (p : list byte) :
  utf8.UTFMax <= Z.of_nat (length p) -> utf8.FullRune p = true.
Proof.
  intros H. destruct (utf8.FullRune p) eqn:Hf; [reflexivity|].
  apply utf8_not_full_short in Hf. change utf8.UTFMax with 4 in H. lia.
Qed.

(** X1. [UTF8Decoder] keeps the contract of the [Decoder] interface, on
    which the size of the stream's buffer rests: a rune takes between 1
    and [Max()] = 4 bytes, and no more than are at hand; [Max()] bytes
    or more always make a full rune, and no bytes never do; and more
    input after a full rune changes neither that it is full nor what it
    decodes to. *)
Theorem UTF8Decoder_keeps_the_contract :
  Name UTF8Decoder = "utf-8"%string /\ Max UTF8Decoder = 4 /\
  FullRune UTF8Decoder [] = false /\
  (forall p,
      Max UTF8Decoder <= Z.of_nat (length p) ->
      FullRune UTF8Decoder p = true) /\
  (forall p,
      FullRune UTF8Decoder p = true ->
      1 <= snd (DecodeRune UTF8Decoder p) <= Max UTF8Decoder /\
      snd (DecodeRune UTF8Decoder p) <= Z.of_nat (length p)) /\
  (forall p q,
      FullRune UTF8Decoder p = true ->
      FullRune UTF8Decoder (p ++ q) = true /\
      DecodeRune UTF8Decoder (p ++ q) = DecodeRune UTF8Decoder p).
Proof.
  split; [reflexivity|]. split; [reflexivity|]. split; [reflexivity|].
  split; [exact utf8_long_is_full|].
  split.
  - intros p Hf. pose proof (utf8_full_size p Hf).
    pose proof (utf8_size_max p Hf).
    change (DecodeRune UTF8Decoder) with utf8.DecodeRune.
    change (Max UTF8Decoder) with utf8.UTFMax. lia.
  - exact utf8_full_app.
Qed.

(** An ASCII byte is a full rune and decodes to itself. *)
Lemma utf8_ascii (c : byte) (rest : list byte) :
  byteZ c < 0x80 ->
  utf8.FullRune (c :: rest) = true /\
  utf8.DecodeRune (c :: rest) = (byteZ c, 1).
Proof.
  intros Hc. pose proof (byteZ_range c) as Hr.
  unfold utf8.FullRune, utf8.DecodeRune, utf8.at_. cbn [nth].
  assert (Hn : 1 <= Z.of_nat (length (c :: rest))) by (cbn [length]; lia).
  generalize dependent (Z.of_nat (length (c :: rest))). intros n Hn.
  destruct (first_of_spec c) as [Hx Hb|Hx Hb Hw|Hx Hb Hw Hsz Hlo Hhi];
    try (unfold between in Hb; apply andb_false_iff in Hb;
         destruct Hb as [Hb|Hb];
         [apply Z.leb_gt in Hb|apply Z.leb_gt in Hb]; lia).
  rewrite Hx.
  change (Z.land utf8.as_ 7) with 0.
  change (utf8.as_ >=? utf8.as_) with true.
  change (Z.shiftr (int32 (Z.shiftl utf8.as_ 31)) 31) with 0.
  change (Z.lnot 0) with (-1). rewrite Z.land_m1_r, Z.land_0_r, Z.lor_0_r.
  destruct (Z.eqb_spec n 0); [lia|].
  destruct (Z.geb_spec n 0); [|lia].
  destruct (Z.ltb_spec n 1); [lia|]. auto.
Qed.

Section MoreStreamFacts.

Context {R : Type}.
Variable Read : R -> Z -> (list byte * option error) * R.

Lemma pending_length (s : RuneStream R) :
  window_ok s -> length (pending s) = snd (b s).
Proof.
  unfold window_ok, pending. destruct (b s) as [off len].
  now apply window_length.
Qed.

(** The decoding loop of [load] yields the units of [decode_units]. *)
Lemma decode_loop_decode (dcd : Decoder) :
  decoder_ok dcd ->
  forall (fuel : nat) (s : RuneStream R),
    (snd (b s) < fuel)%nat -> window_ok s ->
    exists s',
      decode_loop fuel dcd s = Ret s' /\
      (r s' = r s /\ d s' = d s /\ bs s' = bs s /\ bb s' = bb s /\
       curr s' = curr s /\ gen s' = gen s /\ spec s' = spec s) /\
      buf s' = buf s ++ units_of dcd (pos s) (pending s) /\
      pos s' = pos_after dcd (pos s) (pending s) /\
      pending s' = left_over dcd (pos s) (pending s) /\
      window_ok s'.
Proof.
  intros Hd. induction fuel as [|fuel IH]; intros s Hfuel Hwin; [lia|].
  rewrite decode_loop_eq.
  pose proof (pending_length s Hwin) as Hlen.
  destruct (FullRune dcd (pending s)) eqn:Hfull.
  - pose proof (Hd _ Hfull) as Hsz.
    destruct (decode_units_step dcd (pos s) (pending s) Hd Hfull)
      as (pos' & Hp & -> & -> & ->).
    destruct (DecodeRune dcd (pending s)) as [rn sz] eqn:Hdec.
    cbn [snd fst] in *.
    destruct (Z.ltb_spec sz 0) as [|H]; [lia|].
    destruct (Z.ltb_spec (Z.of_nat (snd (b s))) sz); [lia|].
    cbn [orb]. cbv zeta. cbn [pos buf with_b with_buf].
    rewrite Hp. cbn [obind].
    match goal with |- context [decode_loop fuel dcd ?s2] =>
      destruct (IH s2) as (s' & Hrun & Hframe & Hbuf & Hpos & Hpend & Hwin')
    end.
    { cbn. lia. }
    { unfold window_ok in *. cbn. lia. }
    assert (Hpend2 :
              pending (with_pos
                 (with_buf
                    (with_b s (fst (b s) + Z.to_nat sz,
                               snd (b s) - Z.to_nat sz)%nat)
                    (buf s ++ [savedRune.mk (pos s) rn sz None])) pos')
              = skipn (Z.to_nat sz) (pending s)).
    { unfold pending. cbn [bb b with_pos with_buf with_b].
      destruct (b s) as [off len]. cbn [fst snd] in *.
      apply window_advance. lia. }
    rewrite Hpend2 in Hbuf, Hpos, Hpend.
    cbn [r d bs bb curr gen spec buf pos with_pos with_buf with_b]
      in Hframe, Hbuf, Hpos.
    exists s'. split; [exact Hrun|]. split; [exact Hframe|].
    split; [now rewrite Hbuf, <- app_assoc|].
    split; [exact Hpos|]. split; [exact Hpend|exact Hwin'].
  - destruct (decode_units_stop dcd (pos s) (pending s) Hfull)
      as (-> & -> & ->).
    exists s. rewrite app_nil_r. repeat split; auto.
Qed.

(** One call of [load] on a stream in good state: the pending bytes and
    the bytes read are decoded as one piece. *)
Lemma load_units (dcd : Decoder) (s : RuneStream R) (rd rd' : Reader R)
      (data : list byte) (e : option error) :
  decoder_ok dcd -> decoder_short dcd ->
  stream_ok dcd s -> r s = Some rd ->
  Z.of_nat (length (buf s)) < 0x40000000 ->
  Reader_Read Read rd (bs s) = (data, e, rd') ->
  exists s2,
    load Read s = Ret (with_buf s2 (buf s2 ++ terminal_of (pos s2) e)) /\
    r s2 = Some rd' /\ curr s2 = curr s /\ gen s2 = gen s /\
    spec s2 = spec s /\ bs s2 = bs s /\ stream_ok dcd s2 /\
    buf s2 = buf s ++ units_of dcd (pos s) (pending s ++ data) /\
    pos s2 = pos_after dcd (pos s) (pending s ++ data) /\
    pending s2 = left_over dcd (pos s) (pending s ++ data).
Proof.
  intros Hok Hshort Hwf Hr Hceil Hread.
  destruct Hwf as (Hd & Hbs & Hmax & Hbb & Hwin & Hnf).
  pose proof (pending_length s Hwin) as Hlen.
  pose proof (Hshort _ Hnf) as Hx. rewrite Hlen in Hx.
  destruct (Reader_Read_length Read _ _ _ _ _ Hread) as [Hn _].
  unfold maxInt in Hmax. change (2 ^ 63) with 9223372036854775808 in Hmax.
  assert (Hy : int64 (Z.of_nat (snd (b s)) + bs s)
               = Z.of_nat (snd (b s)) + bs s).
  { apply int64_small. change (2 ^ 63) with 9223372036854775808. lia. }
  unfold load.
  rewrite Z.geb_leb.
  destruct (Z.leb_spec 1073741824 (Z.of_nat (length (buf s)))); [lia|].
  rewrite Hy, !Z.gtb_ltb.
  destruct (Z.ltb_spec (Z.of_nat (length (bb s))) (Z.of_nat (snd (b s))));
    [lia|].
  destruct (Z.ltb_spec (Z.of_nat (snd (b s)) + bs s) (Z.of_nat (snd (b s))));
    [lia|].
  destruct (Z.ltb_spec (Z.of_nat (length (bb s)))
                       (Z.of_nat (snd (b s)) + bs s)); [lia|].
  cbn [orb]. rewrite Hr.
  replace (Z.of_nat (snd (b s)) + bs s - Z.of_nat (snd (b s))) with (bs s)
    by lia.
  rewrite Hread, Hd.
  pose proof (load_buffer (bb s) (pending s) data) as Hbuf.
  cbv zeta in Hbuf. rewrite Hlen in Hbuf.
  destruct Hbuf as [Hbl Hbw]; [lia|].
  match goal with |- context [decode_loop ?f dcd ?s1] =>
    destruct (decode_loop_decode dcd Hok f s1)
      as (s2 & Hrun & Hframe & Hb2 & Hp2 & Hpend2 & Hwin2)
  end.
  { cbn. lia. }
  { unfold window_ok. cbn [b bb with_b with_io fst snd]. rewrite Hbl. lia. }
  assert (Hpend1 : forall rd0 bb0,
             pending (with_b (with_io s rd0 bb0) (0, snd (b s) + length data)%nat)
             = window bb0 (0, snd (b s) + length data)%nat)
    by reflexivity.
  rewrite Hpend1, Hbw in Hb2, Hp2, Hpend2.
  cbn [r d bs bb curr gen spec buf pos with_b with_io] in Hframe, Hb2, Hp2.
  destruct Hframe as (Hr2 & Hd2 & Hbs2 & Hbb2 & Hc2 & Hg2 & Hs2).
  rewrite Hrun. cbn [obind].
  exists s2.
  split; [destruct e; cbn [terminal_of]; [reflexivity|]|].
  { rewrite app_nil_r. destruct s2; reflexivity. }
  split; [exact Hr2|]. split; [exact Hc2|]. split; [exact Hg2|].
  split; [exact Hs2|]. split; [exact Hbs2|].
  split.
  { unfold stream_ok. rewrite Hd2, Hbs2, Hbb2. cbn [d bs with_b with_io].
    unfold maxInt. change (2 ^ 63) with 9223372036854775808.
    rewrite Hbl, Hpend2.
    repeat split; try lia; try assumption.
    now apply left_over_not_full. }
  repeat split; assumption.
Qed.

End MoreStreamFacts.

Section Simulation.

Context {R : Type}.
Variable Read : R -> Z -> (list byte * option error) * R.

Lemma log_same_app (n : nat) (s t : RuneStream R) (l : list savedRune.t) :
  log_same n s t ->
  log_same n (with_buf s (buf s ++ l)) (with_buf t (buf t ++ l)).
Proof.
  intros [Hb Hn]. unfold log_same. cbn [buf with_buf].
  rewrite Hb, skipn_app, length_app.
  replace (n - length (buf s))%nat with O by lia.
  split; [reflexivity|lia].
Qed.

Lemma decode_loop_sim (dcd : Decoder) (n : nat) (fuel : nat) :
  forall s t : RuneStream R,
    io_same s t -> log_same n s t ->
    orel (fun s' t' => io_same s' t' /\ log_same n s' t')
         (decode_loop fuel dcd s) (decode_loop fuel dcd t).
Proof.
  induction fuel as [|fuel IH]; intros s t Hio Hlog;
    rewrite !decode_loop_eq;
    pose proof Hio as (Hr & Hd & Hbs & Hbb & Hb & Hws & Hwt & Hpend & Hpos);
    rewrite Hpend.
  - destruct (FullRune dcd (pending s)); cbn; auto.
  - destruct (FullRune dcd (pending s)); [|cbn; auto].
    destruct (DecodeRune dcd (pending s)) as [rn sz].
    rewrite Hb.
    destruct (Z.ltb_spec sz 0) as [|Hsz0]; [reflexivity|].
    destruct (Z.ltb_spec (Z.of_nat (snd (b s))) sz) as [|Hsz]; [reflexivity|].
    cbn [orb]. cbv zeta. cbn [pos buf with_b with_buf]. rewrite Hpos.
    destruct (Position_Advance (pos s) rn sz) as [p'| |]; cbn [obind];
      [|reflexivity|exact I].
    apply IH.
    + unfold io_same, window_ok, pending in *.
      cbn [r d bs bb b pos with_pos with_buf with_b fst snd].
      destruct (b s) as [off len]. destruct (b t) as [off' len'].
      cbn [fst snd] in *. subst len'.
      rewrite !(window_advance _ _ len) by lia.
      rewrite Hpend.
      repeat split; try assumption; try reflexivity; lia.
    + destruct Hlog as [Hl1 Hl2]. unfold log_same.
      cbn [buf with_pos with_buf with_b].
      rewrite Hl1, skipn_app, length_app.
      replace (n - length (buf s))%nat with O by lia.
      split; [reflexivity|lia].
Qed.

Lemma load_sim (n : nat) (s t : RuneStream R) :
  io_same s t -> log_same n s t ->
  (Z.of_nat (length (buf s)) >=? 0x40000000) =
  (Z.of_nat (length (buf t)) >=? 0x40000000) ->
  orel (fun s' t' => io_same s' t' /\ log_same n s' t')
       (load Read s) (load Read t).
Proof.
  intros Hio Hlog Hceil.
  pose proof Hio as (Hr & Hd & Hbs & Hbb & Hb & Hws & Hwt & Hpend & Hpos).
  unfold load. rewrite <- Hceil, Hb, Hbb, Hbs, Hr, Hd.
  destruct (Z.of_nat (length (buf s)) >=? 1073741824); [reflexivity|].
  destruct (Z.gtb_spec (Z.of_nat (snd (b s))) (Z.of_nat (length (bb s))));
    [reflexivity|].
  destruct (Z.gtb_spec (Z.of_nat (snd (b s)))
                       (int64 (Z.of_nat (snd (b s)) + bs s)));
    [reflexivity|].
  destruct (Z.gtb_spec (int64 (Z.of_nat (snd (b s)) + bs s))
                       (Z.of_nat (length (bb s))));
    [reflexivity|].
  cbn [orb].
  destruct (r s) as [rd|] eqn:Hrs; [|reflexivity].
  destruct (Reader_Read Read rd _) as [[data e] rd'] eqn:Hread.
  destruct (Reader_Read_length Read _ _ _ _ _ Hread) as [Hn _].
  destruct (d s) as [dcd|] eqn:Hds; [|reflexivity].
  pose proof (pending_length s Hws) as Hls.
  pose proof (pending_length t Hwt) as Hlt.
  pose proof (load_buffer (bb s) (pending s) data) as Hbs2.
  pose proof (load_buffer (bb t) (pending t) data) as Hbt2.
  cbv zeta in Hbs2, Hbt2. rewrite Hls in Hbs2. rewrite Hlt, Hb in Hbt2.
  destruct Hbs2 as [Hsl Hsw]; [lia|].
  destruct Hbt2 as [Htl Htw]; [lia|].
  match goal with
  | |- orel _ (obind (decode_loop ?f dcd ?s1) _)
              (obind (decode_loop ?f dcd ?t1) _) =>
      pose proof (decode_loop_sim dcd n f s1 t1) as Hsim;
      pose proof (decode_loop_frame dcd f s1) as Hfs;
      pose proof (decode_loop_frame dcd f t1) as Hft
  end.
  match type of Hsim with
  | io_same ?s1 ?t1 -> _ =>
      assert (Hio1 : io_same s1 t1)
  end.
  { assert (Hp1 : forall (u : RuneStream R) rd0 bb0 w,
               pending (with_b (with_io u rd0 bb0) w) = window bb0 w)
      by reflexivity.
    unfold io_same, window_ok. rewrite !Hp1.
    cbn [r d bs bb b pos with_b with_io fst snd].
    rewrite Hsw, Htw, Hsl, Htl, Hpend.
    repeat split; try assumption; try reflexivity; try congruence; lia. }
  specialize (Hsim Hio1 Hlog).
  match goal with
  | |- orel _ (obind ?m1 _) (obind ?m2 _) =>
      destruct m1 as [s2| |]; destruct m2 as [t2| |]; cbn in Hsim;
        try contradiction; try exact Hsim; try exact I
  end.
  destruct Hsim as [Hio2 Hlog2].
  cbn [obind].
  destruct e as [e'|]; cbn [orel].
  - split.
    + unfold io_same, window_ok, pending in *.
      cbn [r d bs bb b pos with_buf]. exact Hio2.
    + destruct Hio2 as (_ & _ & _ & _ & _ & _ & _ & _ & Hp2).
      rewrite Hp2. now apply log_same_app.
  - auto.
Qed.

Lemma io_same_refl (s : RuneStream R) : window_ok s -> io_same s s.
Proof. intros H. unfold io_same. repeat split; auto. Qed.

Lemma log_same_refl (s : RuneStream R) : log_same 0 s s.
Proof. unfold log_same. split; [reflexivity|lia]. Qed.

Lemma decode_loop_count (dcd : Decoder) (fuel : nat) :
  forall s s' : RuneStream R,
    decode_loop fuel dcd s = Ret s' ->
    (length (buf s') <= length (buf s) + fuel)%nat.
Proof.
  induction fuel as [|fuel IH]; intros s s'; rewrite decode_loop_eq.
  - destruct (FullRune dcd (pending s)); [discriminate|].
    intros [= <-]. lia.
  - destruct (FullRune dcd (pending s)).
    + destruct (DecodeRune dcd (pending s)) as [rn sz].
      destruct ((sz <? 0) || (Z.of_nat (snd (b s)) <? sz)); [discriminate|].
      cbv zeta.
      destruct (Position_Advance _ rn sz) as [p'| |]; try discriminate.
      cbn [obind]. intros Hrun. apply IH in Hrun.
      cbn [buf with_pos with_buf with_b] in Hrun.
      rewrite length_app in Hrun. cbn [length] in Hrun. lia.
    + intros [= <-]. lia.
Qed.

(** What one call of [load] can add to the log, and what it keeps of the
    buffer. *)
Lemma load_growth (s s' : RuneStream R) :
  window_ok s -> load Read s = Ret s' ->
  Z.of_nat (length (buf s')) <= 0x40000001 + Z.of_nat (length (bb s)) /\
  length (bb s') = length (bb s) /\ window_ok s'.
Proof.
  intros Hws. unfold load.
  destruct (Z.geb_spec (Z.of_nat (length (buf s))) 1073741824);
    [discriminate|].
  destruct (Z.gtb_spec (Z.of_nat (snd (b s))) (Z.of_nat (length (bb s))));
    [discriminate|].
  destruct (Z.gtb_spec (Z.of_nat (snd (b s)))
                       (int64 (Z.of_nat (snd (b s)) + bs s)));
    [discriminate|].
  destruct (Z.gtb_spec (int64 (Z.of_nat (snd (b s)) + bs s))
                       (Z.of_nat (length (bb s))));
    [discriminate|].
  cbn [orb].
  destruct (r s) as [rd|] eqn:Hrs; [|discriminate].
  destruct (Reader_Read Read rd _) as [[data e] rd'] eqn:Hread.
  destruct (Reader_Read_length Read _ _ _ _ _ Hread) as [Hn _].
  destruct (d s) as [dcd|] eqn:Hds; [|discriminate].
  pose proof (pending_length s Hws) as Hls.
  pose proof (load_buffer (bb s) (pending s) data) as Hbs2.
  cbv zeta in Hbs2. rewrite Hls in Hbs2.
  destruct Hbs2 as [Hsl Hsw]; [lia|].
  match goal with
  | |- obind (decode_loop ?f dcd ?s1) _ = _ -> _ =>
      pose proof (decode_loop_sim dcd 0 f s1 s1) as Hsim;
      pose proof (decode_loop_frame dcd f s1) as Hfs;
      pose proof (decode_loop_count dcd f s1) as Hcount;
      destruct (decode_loop f dcd s1) as [s2| |]; try discriminate
  end.
  cbn [orel] in Hsim.
  destruct Hsim as [Hio2 _].
  { apply io_same_refl. unfold window_ok.
    cbn [bb b with_b with_io fst snd]. rewrite Hsl. lia. }
  { apply log_same_refl. }
  destruct (Hfs s2 eq_refl) as [(_ & _ & _ & Hbb2 & _) _].
  specialize (Hcount s2 eq_refl).
  cbn [bb buf with_b with_io] in Hbb2, Hcount.
  destruct Hio2 as (_ & _ & _ & _ & _ & Hw2 & _).
  cbn [obind].
  destruct e as [e'|]; intros [= <-];
    cbn [buf bb with_buf]; rewrite ?length_app; cbn [length];
    rewrite Hbb2, Hsl; (split; [lia|]); (split; [reflexivity|]);
    unfold window_ok in *; cbn [bb b with_buf]; exact Hw2.
Qed.

Lemma Advance_bound (s s1 : RuneStream R) (ok : bool) :
  window_ok s ->
  Z.of_nat (length (buf s)) <= 0x40000001 + maxInt ->
  Z.of_nat (length (bb s)) <= maxInt ->
  RuneStream_Advance Read s = Ret (ok, s1) ->
  window_ok s1 /\
  Z.of_nat (length (buf s1)) <= 0x40000001 + maxInt /\
  Z.of_nat (length (bb s1)) <= maxInt.
Proof.
  intros Hw Hbuf Hbb Hadv.
  destruct (Advance_inv Read s s1 ok Hadv)
    as [(_ & _ & ->)|(_ & s' & c & Hload & _ & _ & _ & _ & ->)];
    [auto|].
  unfold window_ok. cbn [buf bb b with_spec with_curr].
  destruct (spec s >=? Z.of_nat (length (buf s))).
  - destruct (load_growth s s' Hw Hload) as (H1 & H2 & H3).
    unfold window_ok in H3. repeat split; try assumption; lia.
  - subst s'. unfold window_ok in Hw. auto.
Qed.

(** One [Advance] on two streams that read alike. The second condition
    is for [n > 0]: a stream that holds more units reaches the limit of
    [load] sooner. *)
Lemma Advance_sim (n : nat) (s t : RuneStream R) :
  same_view n s t ->
  n = O \/
  (returns (RuneStream_Advance Read s) = true /\
   Z.of_nat (length (buf s)) <= 0x40000001 + maxInt /\
   Z.of_nat (length (bb s)) <= maxInt) ->
  orel (fun x y => fst x = fst y /\ same_view n (snd x) (snd y) /\
                   curr (snd y) = curr (snd x))
       (RuneStream_Advance Read s) (RuneStream_Advance Read t).
Proof.
  intros (Hio & Hlog & Hspec & Hnn & Hterm & Hcurr) Hguard.
  destruct (at_terminal s) eqn:Hts.
  - rewrite (Advance_terminal Read s Hts), (Advance_terminal Read t)
      by congruence.
    cbn [orel fst snd]. split; [reflexivity|].
    split; [|now apply Hcurr].
    unfold same_view. rewrite Hts.
    split; [exact Hio|]. split; [exact Hlog|]. split; [exact Hspec|].
    split; [exact Hnn|]. split; [exact Hterm|exact Hcurr].
  - rewrite (Advance_live Read s Hts), (Advance_live Read t) by congruence.
    pose proof Hlog as [Hbt Hnl].
    pose proof Hio as (_ & _ & _ & _ & _ & Hws & Hwt & _).
    assert (Hlen : length (buf t) = (length (buf s) - n)%nat)
      by (rewrite Hbt; apply length_skipn).
    assert (Hcond : (spec t >=? Z.of_nat (length (buf t))) =
                    (spec s >=? Z.of_nat (length (buf s)))).
    { rewrite Hlen, Hspec.
      destruct (Z.geb_spec (spec t) (Z.of_nat (length (buf s) - n)));
        destruct (Z.geb_spec (spec t + Z.of_nat n)
                             (Z.of_nat (length (buf s)))); lia. }
    rewrite Hcond.
    (* the streams after the load, if there is one *)
    assert (Hmid :
              orel (fun s' t' =>
                      io_same s' t' /\ log_same n s' t' /\
                      spec s' = spec s /\ spec t' = spec t /\
                      (n <> O ->
                       Z.of_nat (length (buf s')) <= 0x40000001 + maxInt))
                   (if spec s >=? Z.of_nat (length (buf s))
                    then load Read s else Ret s)
                   (if spec s >=? Z.of_nat (length (buf s))
                    then load Read t else Ret t)).
    { destruct (spec s >=? Z.of_nat (length (buf s))) eqn:Hc.
      - assert (Hceil : (Z.of_nat (length (buf s)) >=? 0x40000000) =
                        (Z.of_nat (length (buf t)) >=? 0x40000000)).
        { destruct Hguard as [->|(Hret & _)].
          - cbn [skipn] in Hbt. now rewrite Hbt.
          - rewrite (Advance_live Read s Hts), Hc in Hret.
            unfold load in Hret.
            destruct (Z.geb_spec (Z.of_nat (length (buf s))) 1073741824)
              as [|Hlt]; [discriminate|].
            destruct (Z.geb_spec (Z.of_nat (length (buf t))) 1073741824);
              [lia|reflexivity]. }
        pose proof (load_sim n s t Hio Hlog Hceil) as Hsim.
        pose proof (load_frame Read s) as Hfs.
        pose proof (load_frame Read t) as Hft.
        pose proof (load_growth s) as Hgs.
        destruct (load Read s) as [s'| |]; destruct (load Read t) as [t'| |];
          cbn [orel] in Hsim |- *; try contradiction; try exact Hsim.
        destruct Hsim as [Hio' Hlog'].
        destruct (Hfs s' eq_refl) as [(_ & _ & _ & _ & Hss) _].
        destruct (Hft t' eq_refl) as [(_ & _ & _ & _ & Hst) _].
        destruct (Hgs s' Hws eq_refl) as (Hg1 & _).
        split; [exact Hio'|]. split; [exact Hlog'|].
        split; [exact Hss|]. split; [exact Hst|].
        intros Hn0. destruct Hguard as [|(_ & _ & Hbb)]; [contradiction|].
        lia.
      - cbn [orel].
        split; [exact Hio|]. split; [exact Hlog|].
        split; [reflexivity|]. split; [reflexivity|].
        intros Hn0. destruct Hguard as [|(_ & Hb & _)]; [contradiction|].
        exact Hb. }
    destruct (if spec s >=? Z.of_nat (length (buf s))
              then load Read s else Ret s) as [s'| |];
      destruct (if spec s >=? Z.of_nat (length (buf s))
                then load Read t else Ret t) as [t'| |];
      cbn [orel] in Hmid; try contradiction;
      cbn [obind orel]; try assumption.
    destruct Hmid as (Hio' & Hlog' & Hss & Hst & Hbound).
    destruct Hlog' as [Hbt' Hnl'].
    rewrite Hss, Hst, Hbt', nth_error_skipn.
    replace (n + Z.to_nat (spec t))%nat with (Z.to_nat (spec s))
      by (destruct Hnn as [->|];
          [rewrite Hspec; cbn; now rewrite Z.add_0_r | lia]).
    destruct (nth_error (buf s') (Z.to_nat (spec s))) as [c|] eqn:Hnth;
      cbn [orel fst snd]; [|reflexivity].
    split; [reflexivity|]. split; [|reflexivity].
    unfold same_view.
    split; [exact Hio'|]. split; [split; assumption|].
    cbn [spec with_spec with_curr].
    assert (Hspec1 : u64 (spec s + 1)
                     = u64 (spec t + 1) + Z.of_nat n).
    { destruct (Nat.eq_dec n 0) as [->|Hn0];
        [rewrite Hspec; cbn; now rewrite !Z.add_0_r|].
      destruct Hnn as [|Ht0]; [contradiction|].
      specialize (Hbound Hn0).
      assert (Hlt : (Z.to_nat (spec s) < length (buf s'))%nat)
        by (apply nth_error_Some; congruence).
      unfold maxInt in Hbound.
      change (2 ^ 63) with 9223372036854775808 in Hbound.
      rewrite !u64_small
        by (change (2 ^ 64) with 18446744073709551616; lia).
      lia. }
    split; [exact Hspec1|].
    split; [right; apply u64_range|].
    unfold at_terminal. cbn [curr with_spec with_curr]. auto.
Qed.

Lemma observe1_curr (s s1 t t1 : RuneStream R) (ok : bool) :
  RuneStream_Advance Read s = Ret (ok, s1) ->
  RuneStream_Advance Read t = Ret (ok, t1) ->
  curr t1 = curr s1 ->
  exists rn sz p,
    observe1 Read s = Ret (ok, rn, sz, p, s1) /\
    observe1 Read t = Ret (ok, rn, sz, p, t1).
Proof.
  intros Hs Ht Hc.
  destruct (Advance_curr Read s s1 ok Hs) as (c & Hcs & _).
  unfold observe1, RuneStream_Rune, RuneStream_Size, RuneStream_Position,
    deref.
  rewrite Hs, Ht. cbn [obind]. rewrite Hc, Hcs. cbn [obind].
  eauto.
Qed.

(** Streams that read alike yield the same observations. *)
Lemma observe_sim (n : nat) (k : nat) :
  forall s t : RuneStream R,
    same_view n s t ->
    n = O \/
    (clean (observe Read k s) = true /\
     Z.of_nat (length (buf s)) <= 0x40000001 + maxInt /\
     Z.of_nat (length (bb s)) <= maxInt) ->
    observe Read k t = observe Read k s.
Proof.
  induction k as [|k IH]; intros s t Hview Hguard; [reflexivity|].
  assert (Hg1 : n = O \/
                (returns (RuneStream_Advance Read s) = true /\
                 Z.of_nat (length (buf s)) <= 0x40000001 + maxInt /\
                 Z.of_nat (length (bb s)) <= maxInt)).
  { destruct Hguard as [|(Hclean & Hb & Hbb)]; [now left|right].
    split; [|now split].
    cbn [observe] in Hclean. unfold observe1 in Hclean.
    destruct (RuneStream_Advance Read s) as [[ok s1]| |];
      [reflexivity|discriminate|discriminate]. }
  pose proof (Advance_sim n s t Hview Hg1) as Hsim.
  destruct (RuneStream_Advance Read s) as [[ok s1]| |] eqn:Hs;
    destruct (RuneStream_Advance Read t) as [[ok' t1]| |] eqn:Ht;
    cbn [orel fst snd] in Hsim; try contradiction.
  - destruct Hsim as (<- & Hview1 & Hc).
    destruct (observe1_curr s s1 t t1 ok Hs Ht Hc)
      as (rn & sz & p & Hos & Hot).
    cbn [observe]. rewrite Hos, Hot. f_equal.
    apply IH; [exact Hview1|].
    destruct Hguard as [|(Hclean & Hb & Hbb)]; [now left|right].
    cbn [observe] in Hclean. rewrite Hos in Hclean.
    cbn [clean forallb] in Hclean. fold (clean (observe Read k s1)) in Hclean.
    destruct Hview as ((_ & _ & _ & _ & _ & Hws & _) & _).
    destruct (Advance_bound s s1 ok Hws Hb Hbb Hs) as (_ & H1 & H2).
    auto.
  - cbn [observe]. unfold observe1. rewrite Hs, Ht. cbn [obind].
    now rewrite Hsim.
  - cbn [observe]. unfold observe1. rewrite Hs, Ht. reflexivity.
Qed.

(** X2. [Commit] does not change what is read next: a stream that is not
    at a terminal unit yields after [Commit] the units that it would have
    yielded without it. (Without the [Commit] the log is longer, and
    [load] may refuse to extend it: the comparison is with a run that
    does not panic.) *)
Theorem Commit_keeps_what_is_read_next (s t : RuneStream R) (k : nat) :
  representable s -> at_terminal s = false ->
  RuneStream_Commit s = Ret t ->
  clean (observe Read k s) = true ->
  observe Read k t = observe Read k s.
Proof.
  intros ((Hs0 & _) & Hbuf & Hbb & Hw) Hlive Hcommit Hclean.
  apply Commit_inv in Hcommit. destruct Hcommit as [Hle ->].
  apply (observe_sim (Z.to_nat (spec s))).
  - unfold same_view, io_same, log_same, at_terminal, window_ok, pending.
    cbn [r d bs bb b pos buf spec curr with_curr with_spec with_gen with_buf].
    unfold at_terminal in Hlive. rewrite Hlive.
    repeat split; auto; try lia; try discriminate.
  - right. split; [exact Hclean|]. split; [|exact Hbb].
    unfold maxInt in *. lia.
Qed.

(** The stream that [Init] leaves reads like the one that [New] makes,
    whatever the stream was before. *)
Lemma Init_same_view (stream s1 s2 : RuneStream R) (rd : option (Reader R))
      (o : Options) :
  RuneStream_Init stream rd o = Ret s1 ->
  New rd o = Ret s2 ->
  same_view 0 s2 s1.
Proof.
  intros H1 H2. unfold New in H2.
  apply Init_inv in H1. apply Init_inv in H2.
  destruct H1 as (_ & _ & Hr1 & Hd1 & Hbs1 & Hbb1 & Hb1 & Hp1 & Hbuf1 & Hc1
                  & _ & Hs1).
  destruct H2 as (_ & _ & Hr2 & Hd2 & Hbs2 & Hbb2 & Hb2 & Hp2 & Hbuf2 & Hc2
                  & _ & Hs2).
  unfold same_view, io_same, log_same, at_terminal, window_ok, pending,
    window.
  rewrite Hr1, Hr2, Hd1, Hd2, Hbs1, Hbs2, Hb1, Hb2, Hp1, Hp2, Hbuf1, Hbuf2,
    Hc1, Hc2, Hs1, Hs2.
  cbn [fst snd firstn skipn length Nat.add].
  repeat split; auto; try lia.
Qed.

Lemma Init_outcomes (stream : RuneStream R) (rd : option (Reader R))
      (o : Options) :
  orel (fun _ _ => True) (RuneStream_Init stream rd o) (New rd o).
Proof.
  unfold New, RuneStream_Init, make_bytes.
  destruct (BlockSize o <? 0); [reflexivity|].
  destruct (Max _ <? 1); [reflexivity|].
  cbn [bb zero_RuneStream length Z.of_nat].
  match goal with |- context [int64 ?x] => generalize (int64 x) end.
  intros z.
  destruct (Z.eqb_spec (Z.of_nat (length (bb stream))) z) as [<-|Hne].
  - destruct (Z.ltb_spec (Z.of_nat (length (bb stream))) 0); [lia|].
    destruct (0 =? Z.of_nat (length (bb stream))); exact I.
  - destruct (Z.eqb_spec 0 z) as [<-|]; [cbn; exact I|].
    destruct (z <? 0); cbn; auto.
Qed.

(** X3. [Init] on a stream that was in use gives a stream that reads like
    the one [New] makes from the same reader and options: it fails with
    the same panic, and when it returns, every later step yields the same
    result, though the generation goes on counting and the old buffer is
    kept when it has the right size. *)
Theorem Init_again_reads_like_New (stream : RuneStream R)
        (rd : option (Reader R)) (o : Options) :
  (forall msg,
      RuneStream_Init stream rd o = Panic msg <-> New rd o = Panic msg) /\
  (forall s1,
      RuneStream_Init stream rd o = Ret s1 ->
      exists s2,
        New rd o = Ret s2 /\
        gen s1 = u64 (gen stream + 1) /\
        (Z.of_nat (length (bb stream)) = Z.of_nat (length (bb s1)) ->
         bb s1 = bb stream) /\
        forall k, observe Read k s1 = observe Read k s2).
Proof.
  pose proof (Init_outcomes stream rd o) as Hrel.
  split.
  - intros msg.
    destruct (RuneStream_Init stream rd o) as [s1| |];
      destruct (New rd o) as [s2| |]; cbn [orel] in Hrel;
      try contradiction; split; try discriminate.
    + intros [= <-]. now rewrite Hrel.
    + intros [= <-]. now rewrite Hrel.
  - intros s1 Hinit. rewrite Hinit in Hrel.
    destruct (New rd o) as [s2| |] eqn:Hnew; cbn [orel] in Hrel;
      try contradiction.
    exists s2. split; [reflexivity|].
    split; [apply Init_inv in Hinit; tauto|].
    split.
    + intros Hlen. unfold RuneStream_Init, make_bytes in Hinit.
      destruct (BlockSize o <? 0); [discriminate|].
      destruct (Max _ <? 1); [discriminate|].
      revert Hinit.
      match goal with |- context [int64 ?x] => generalize (int64 x) end.
      intros z.
      destruct (Z.eqb_spec (Z.of_nat (length (bb stream))) z) as [He|Hne].
      * cbn [obind]. now intros [= <-].
      * destruct (Z.ltb_spec z 0); [discriminate|].
        cbn [obind]. intros [= <-].
        cbn [bb] in Hlen. rewrite repeat_length in Hlen. lia.
    + intros k. apply (observe_sim 0); [|now left].
      now apply (Init_same_view stream s1 s2 rd o).
Qed.

(** X4. [Reset] always returns, and it puts the options back to their
    defaults: the block size is 4096 and the decoder [UTF8Decoder] even if
    the stream was made with others. The stream is as new, it reads like
    the one of [NewRuneStream], and the save points taken before are
    stale. *)
Theorem Reset_restores_the_defaults (stream : RuneStream R)
        (rd : option (Reader R)) :
  exists s1 s2,
    RuneStream_Reset stream rd = Ret s1 /\
    NewRuneStream rd = Ret s2 /\
    RuneStream_BlockSize s1 = 4096 /\
    RuneStream_Decoder s1 = Some UTF8Decoder /\
    r s1 = rd /\ buf s1 = [] /\ spec s1 = 0 /\ curr s1 = None /\
    pos s1 = MakePosition /\ pending s1 = [] /\
    (forall k, observe Read k s1 = observe Read k s2) /\
    (0 <= gen stream < 2 ^ 64 ->
     RuneStream_Restore s1 (RuneStream_Save stream)
     = Panic "save point is stale").
Proof.
  assert (Hmax : block_size_of 0 + Max UTF8Decoder <= maxInt)
    by (vm_compute; discriminate).
  destruct (Init_returns stream rd {| BlockSize := 0; Decoder_ := None |})
    as [s1 H1]; [cbn; lia | vm_compute; discriminate | exact Hmax |].
  destruct (Init_returns zero_RuneStream rd
              {| BlockSize := 0; Decoder_ := None |})
    as [s2 H2]; [cbn; lia | vm_compute; discriminate | exact Hmax |].
  exists s1, s2.
  split; [exact H1|]. split; [exact H2|].
  pose proof (Init_same_view stream s1 s2 rd _ H1 H2) as Hview.
  apply Init_inv in H1.
  destruct H1 as (_ & _ & Hr1 & Hd1 & Hbs1 & _ & Hb1 & Hp1 & Hbuf1 & Hc1
                  & Hg1 & Hs1).
  unfold RuneStream_BlockSize, RuneStream_Decoder.
  split; [exact Hbs1|]. split; [exact Hd1|]. split; [exact Hr1|].
  split; [exact Hbuf1|]. split; [exact Hs1|]. split; [exact Hc1|].
  split; [exact Hp1|].
  split; [unfold pending, window; now rewrite Hb1|].
  split.
  - intros k. apply (observe_sim 0); [exact Hview|now left].
  - intros Hg. apply Restore_stale. cbn [SavePoint.gen RuneStream_Save].
    rewrite Hg1. intros Heq. symmetry in Heq.
    now apply (u64_succ_neq (gen stream)).
Qed.

(** X5. [Rewind] goes back to the last [Commit] (or to [Init]): after any
    number of [Advance] calls, [Rewind] makes the stream yield again what
    it yielded from there, the terminal unit included. *)
Theorem Rewind_replays_from_the_commit
        (s a sM : RuneStream R) (m k : nat) :
  RuneStream_Commit s = Ret a \/
  (exists rd o, RuneStream_Init s rd o = Ret a) ->
  advances Read m a = Ret sM ->
  observe Read k (RuneStream_Rewind sM) = observe Read k a.
Proof.
  intros Hstart Hadv.
  assert (Ha : spec a = 0 /\ curr a = None).
  { destruct Hstart as [Hc|(rd & o & Hi)].
    - apply Commit_inv in Hc. destruct Hc as [_ ->]. now cbn.
    - apply Init_inv in Hi. tauto. }
  destruct Ha as [Hspec Hcurr].
  assert (Hlive : at_terminal a = false)
    by (unfold at_terminal; now rewrite Hcurr).
  pose proof (replay_after_advances Read m a sM k Hlive Hadv) as H.
  rewrite Hspec in H. exact H.
Qed.

End Simulation.

Section Combinators.

Context {R : Type}.
Variable Read : R -> Z -> (list byte * option error) * R.

Lemma Advance_true_spec (s s1 : RuneStream R) :
  RuneStream_Advance Read s = Ret (true, s1) ->
  at_terminal s = false /\ at_terminal s1 = false /\
  spec s1 = u64 (spec s + 1) /\ gen s1 = gen s /\
  exists c units,
    curr s1 = Some c /\ is_terminal c = false /\ buf s1 = buf s ++ units.
Proof.
  intros Hadv.
  destruct (Advance_inv Read s s1 true Hadv)
    as [(_ & Hf & _)|(Hlive & s' & c & _ & (_ & _ & _ & Hg & _) & Hunits
                      & _ & Hok & ->)];
    [discriminate|].
  split; [exact Hlive|].
  symmetry in Hok. apply negb_true_iff in Hok.
  unfold at_terminal. cbn [curr spec gen buf with_spec with_curr].
  rewrite Hok. repeat split; try assumption.
  destruct Hunits as [units Hu]. now exists c, units.
Qed.

(** The loop of [TakeWhile], started with the save point of the stream it
    runs on. *)
Lemma TakeWhile_loop_spec (max : Z) (pred : Z -> bool) :
  max <= maxInt ->
  forall (fuel : nat) (count : Z) (out : list Z) (s : RuneStream R)
         (out' : list Z) (sp' : SavePoint.t) (s1 : RuneStream R),
    (0 <= max -> 0 <= count <= max) ->
    TakeWhile_loop Read fuel max count out pred (RuneStream_Save s) s
    = Ret (out', sp', s1) ->
    exists taken s_last,
      out' = out ++ taken /\
      Forall (fun rn => pred rn = true) taken /\
      (0 <= max -> count + Z.of_nat (length taken) <= max) /\
      sp' = RuneStream_Save s_last /\
      gen s_last = gen s /\ gen s1 = gen s /\
      u64 (spec s_last) = u64 (spec s + Z.of_nat (length taken)) /\
      (taken = [] -> s_last = s) /\
      (exists units, buf s1 = buf s ++ units) /\
      (at_terminal s = false -> at_terminal s_last = false) /\
      ((s1 = s_last /\ 0 <= max /\ count + Z.of_nat (length taken) = max) \/
       (exists ok c,
           RuneStream_Advance Read s_last = Ret (ok, s1) /\
           curr s1 = Some c /\
           ok && pred (savedRune.value c) = false)).
Proof.
  intros Hmax.
  assert (Hstop : forall (count : Z) (out : list Z) (s s1 : RuneStream R),
             (0 <= max -> 0 <= count <= max) ->
             gen s1 = gen s ->
             (exists units, buf s1 = buf s ++ units) ->
             ((s1 = s /\ 0 <= max /\ count = max) \/
              (exists ok c,
                  RuneStream_Advance Read s = Ret (ok, s1) /\
                  curr s1 = Some c /\
                  ok && pred (savedRune.value c) = false)) ->
             exists taken s_last,
               out = out ++ taken /\
               Forall (fun rn => pred rn = true) taken /\
               (0 <= max -> count + Z.of_nat (length taken) <= max) /\
               RuneStream_Save s = RuneStream_Save s_last /\
               gen s_last = gen s /\ gen s1 = gen s /\
               u64 (spec s_last) = u64 (spec s + Z.of_nat (length taken)) /\
               (taken = [] -> s_last = s) /\
               (exists units, buf s1 = buf s ++ units) /\
               (at_terminal s = false -> at_terminal s_last = false) /\
               ((s1 = s_last /\ 0 <= max /\
                 count + Z.of_nat (length taken) = max) \/
                (exists ok c,
                    RuneStream_Advance Read s_last = Ret (ok, s1) /\
                    curr s1 = Some c /\
                    ok && pred (savedRune.value c) = false))).
  { intros count out s s1 Hcm Hg Hunits Hexit.
    exists [], s. rewrite app_nil_r. cbn [length Z.of_nat].
    rewrite !Z.add_0_r.
    split; [reflexivity|]. split; [constructor|].
    split; [intros H0; now apply Hcm|].
    split; [reflexivity|]. split; [reflexivity|]. split; [exact Hg|].
    split; [reflexivity|]. split; [reflexivity|]. split; [exact Hunits|].
    split; [auto|exact Hexit]. }
  assert (Hnil : forall s : RuneStream R, exists units, buf s = buf s ++ units)
    by (intros s; exists []; now rewrite app_nil_r).
  induction fuel as [|fuel IH]; intros count out s out' sp' s1 Hcm;
    cbn [TakeWhile_loop].
  - destruct (Z.ltb_spec max 0) as [Hneg|Hpos]; cbn [orb];
      [discriminate|].
    destruct (Z.ltb_spec count max); [discriminate|].
    intros [= <- <- <-]. apply Hstop; auto.
    left. repeat split; lia.
  - destruct ((max <? 0) || (count <? max)) eqn:Hcond.
    + destruct (RuneStream_Advance Read s) as [[ok s2]| |] eqn:Hadv;
        try discriminate.
      cbn [obind].
      destruct (Advance_curr Read s s2 ok Hadv) as (c & Hcurr & Hok).
      destruct (Advance_frame Read s s2 ok Hadv) as (_ & _ & Hg & Hunits).
      unfold deref. rewrite Hcurr.
      destruct ok; cbn [negb obind].
      * destruct (pred (savedRune.value c)) eqn:Hp; cbn [negb].
        -- intros Hrun.
           destruct (Advance_true_spec s s2 Hadv)
             as (Hlive & Hlive2 & Hspec2 & _ & _).
           assert (Hlt : max < 0 \/ count < max).
           { apply orb_true_iff in Hcond.
             destruct Hcond as [H|H]; apply Z.ltb_lt in H; auto. }
           assert (Hcnt : 0 <= max -> int64 (count + 1) = count + 1).
           { intros H0. apply int64_small. unfold maxInt in Hmax.
             change (2 ^ 63) with 9223372036854775808 in *. lia. }
           apply IH in Hrun;
             [|intros H0; rewrite (Hcnt H0); lia].
           destruct Hrun as (taken & s_last & -> & Hall & Hle & -> & Hgl & Hg1
                             & Hsp & _ & (units2 & Hb2) & Hterm & Hexit).
           exists (savedRune.value c :: taken), s_last.
           rewrite <- app_assoc. cbn [app length].
           split; [reflexivity|].
           split; [constructor; assumption|].
           split; [intros H0; specialize (Hle H0); rewrite (Hcnt H0) in Hle;
                   lia|].
           split; [reflexivity|].
           split; [congruence|]. split; [congruence|].
           split.
           { rewrite Hsp, Hspec2, u64_add_l. f_equal. lia. }
           split; [discriminate|].
           split.
           { destruct Hunits as [units Hb1]. exists (units ++ units2).
             now rewrite Hb2, Hb1, app_assoc. }
           split; [intros _; now apply Hterm|].
           destruct Hexit as [(-> & H0 & Heq)|Hfail].
           ++ left. rewrite (Hcnt H0) in Heq.
              repeat split; try assumption. lia.
           ++ right. exact Hfail.
        -- intros [= <- <- <-]. apply Hstop; auto.
           right. exists true, c. rewrite Hp. auto.
      * intros [= <- <- <-]. apply Hstop; auto.
        right. exists false, c. auto.
    + intros [= <- <- <-].
      apply orb_false_iff in Hcond. destruct Hcond as [H1 H2].
      apply Z.ltb_ge in H1, H2.
      apply Hstop; auto.
      left. repeat split; lia.
Qed.

(** With a bound [max], [max] iterations and the test that ends the loop
    are all there is: more fuel changes nothing. *)
Lemma TakeWhile_loop_enough (max : Z) (pred : Z -> bool) :
  0 <= max <= maxInt ->
  forall (fuel : nat) (count : Z) (out : list Z) (sp : SavePoint.t)
         (s : RuneStream R) (m : nat),
    0 <= count <= max ->
    (Z.to_nat (max - count) <= fuel)%nat -> (fuel <= m)%nat ->
    TakeWhile_loop Read m max count out pred sp s =
    TakeWhile_loop Read fuel max count out pred sp s.
Proof.
  intros Hmax.
  induction fuel as [|fuel IH]; intros count out sp s m Hc Hfuel Hle.
  - assert (count = max) by lia. subst count.
    destruct m; cbn [TakeWhile_loop];
      destruct (Z.ltb_spec max 0); try lia;
      destruct (Z.ltb_spec max max); try lia; reflexivity.
  - destruct m as [|m]; [lia|]. cbn [TakeWhile_loop].
    destruct (Z.ltb_spec max 0); [lia|].
    destruct (Z.ltb_spec count max); cbn [orb]; [|reflexivity].
    destruct (RuneStream_Advance Read s) as [[ok s1]| |]; try reflexivity.
    cbn [obind]. destruct (negb ok); [reflexivity|].
    destruct (deref s1) as [c| |]; try reflexivity.
    cbn [obind].
    destruct (negb (pred (savedRune.value c))); [reflexivity|].
    assert (Hcnt : int64 (count + 1) = count + 1).
    { apply int64_small. unfold maxInt in Hmax.
      change (2 ^ 63) with 9223372036854775808 in *. lia. }
    rewrite Hcnt. apply IH; lia.
Qed.

Lemma TakeWhile_spec (fuel : nat) (s s' : RuneStream R) (max : Z)
      (seed out : list Z) (pred : Z -> bool) :
  max <= maxInt ->
  RuneStream_TakeWhile Read fuel s max seed pred = Ret (out, s') ->
  exists taken s_last s1,
    out = seed ++ taken /\
    Forall (fun rn => pred rn = true) taken /\
    (0 <= max -> Z.of_nat (length taken) <= max) /\
    s' = reset s1 (spec s_last) /\
    gen s1 = gen s /\
    u64 (spec s_last) = u64 (spec s + Z.of_nat (length taken)) /\
    (taken = [] -> s_last = s) /\
    (exists units, buf s1 = buf s ++ units) /\
    (at_terminal s = false -> at_terminal s_last = false) /\
    ((s1 = s_last /\ 0 <= max /\ Z.of_nat (length taken) = max) \/
     (exists ok c,
         RuneStream_Advance Read s_last = Ret (ok, s1) /\
         curr s1 = Some c /\
         ok && pred (savedRune.value c) = false)).
Proof.
  intros Hmax. unfold RuneStream_TakeWhile.
  destruct (TakeWhile_loop Read fuel max 0 seed pred (RuneStream_Save s) s)
    as [[[out0 sp0] s1]| |] eqn:Hloop; try discriminate.
  cbn [obind].
  apply (TakeWhile_loop_spec max pred Hmax) in Hloop; [|lia].
  destruct Hloop as (taken & s_last & -> & Hall & Hle & -> & Hgl & Hg1 & Hsp
                     & Hnil & Hunits & Hterm & Hexit).
  rewrite Restore_valid by (cbn; congruence).
  cbn [obind RuneStream_Save SavePoint.spec]. intros [= <- <-].
  exists taken, s_last, s1.
  rewrite !Z.add_0_l in *.
  repeat (split; [assumption || reflexivity|]). exact Hexit.
Qed.

(** X6. What [TakeWhile] appends to [out] are runes for which [pred]
    holds, at most [max] of them when [max] is not negative; the cursor
    has moved by their number, the current unit is cleared, the
    generation is the same and the log has only grown. With a bound
    [max], [max] iterations are enough. *)
Theorem TakeWhile_takes_matching_runes (fuel : nat) (s : RuneStream R)
        (max : Z) (seed : list Z) (pred : Z -> bool) :
  max <= maxInt ->
  (forall out s',
      RuneStream_TakeWhile Read fuel s max seed pred = Ret (out, s') ->
      exists taken,
        out = seed ++ taken /\
        Forall (fun rn => pred rn = true) taken /\
        (0 <= max -> Z.of_nat (length taken) <= max) /\
        gen s' = gen s /\ curr s' = None /\
        u64 (spec s') = u64 (spec s + Z.of_nat (length taken)) /\
        (taken = [] -> spec s' = spec s) /\
        exists units, buf s' = buf s ++ units) /\
  (0 <= max -> (Z.to_nat max <= fuel)%nat ->
   forall m, (fuel <= m)%nat ->
     RuneStream_TakeWhile Read m s max seed pred =
     RuneStream_TakeWhile Read fuel s max seed pred).
Proof.
  intros Hmax. split.
  - intros out s' Hrun.
    destruct (TakeWhile_spec fuel s s' max seed out pred Hmax Hrun)
      as (taken & s_last & s1 & -> & Hall & Hle & -> & Hg1 & Hsp & Hnil
          & Hunits & _).
    exists taken. unfold reset. cbn [gen curr spec buf with_curr with_spec].
    repeat (split; [assumption || reflexivity|]).
    split; [intros H; now rewrite (Hnil H)|exact Hunits].
  - intros H0 Hfuel m Hle. unfold RuneStream_TakeWhile.
    rewrite (TakeWhile_loop_enough max pred (conj H0 Hmax) fuel 0 seed
               (RuneStream_Save s) s m); [reflexivity|lia| |exact Hle].
    now rewrite Z.sub_0_r.
Qed.

(** On a terminal unit [TakeWhile] takes nothing: its [Advance] returns
    false, and the [Restore] that ends it clears the current unit. *)
Lemma TakeWhile_at_terminal (fuel : nat) (s : RuneStream R) (max : Z)
      (seed : list Z) (pred : Z -> bool) :
  at_terminal s = true ->
  RuneStream_TakeWhile Read (S fuel) s max seed pred
  = Ret (seed, reset s (spec s)).
Proof.
  intros Hterm. unfold RuneStream_TakeWhile. cbn [TakeWhile_loop].
  destruct ((max <? 0) || (0 <? max)).
  - rewrite (Advance_terminal Read s Hterm). cbn [obind negb].
    now rewrite Restore_valid.
  - cbn [obind]. now rewrite Restore_valid.
Qed.

(** X7. On a stream that is not on a terminal unit, [TakeWhile] takes all
    it can: when it has returned without reaching the bound [max], the
    next unit of the stream is not a rune for which [pred] holds (it is a
    terminal unit, or a rune that fails [pred]), and the stream is placed
    before that unit. On a terminal unit [TakeWhile] takes nothing: it
    returns [out] as it was and leaves the cursor where it was, with the
    current unit cleared. *)
Theorem TakeWhile_stops_at_the_first_mismatch (fuel : nat)
        (s : RuneStream R) (max : Z) (seed : list Z) (pred : Z -> bool) :
  max <= maxInt ->
  (at_terminal s = false ->
   forall (s' : RuneStream R) (taken : list Z),
     RuneStream_TakeWhile Read fuel s max seed pred
     = Ret (seed ++ taken, s') ->
     max < 0 \/ Z.of_nat (length taken) < max ->
     exists ok s2 c,
       RuneStream_Advance Read s' = Ret (ok, s2) /\
       curr s2 = Some c /\
       ok = negb (is_terminal c) /\
       ok && pred (savedRune.value c) = false) /\
  (at_terminal s = true ->
   RuneStream_TakeWhile Read (S fuel) s max seed pred
   = Ret (seed, reset s (spec s))).
Proof.
  intros Hmax. split; [|now apply TakeWhile_at_terminal].
  intros Hlive s' taken Hrun Hroom.
  destruct (TakeWhile_spec fuel s s' max seed _ pred Hmax Hrun)
    as (taken' & s_last & s1 & Heq & _ & _ & -> & _ & _ & _ & _ & Hterm
        & Hexit).
  apply app_inv_head in Heq. subst taken'.
  destruct Hexit as [(_ & H0 & Hfull)|(ok & c & Hadv & Hcurr & Hfail)];
    [lia|].
  exists ok, s1, c.
  split; [apply Advance_replay; [now apply Hterm|exact Hadv]|].
  split; [exact Hcurr|]. split; [|exact Hfail].
  destruct (Advance_curr Read s_last s1 ok Hadv) as (c' & Hc' & Hok).
  congruence.
Qed.

(** X8. [TakeUntil] appends runes for which [pred] does not hold; on a
    stream that is not on a terminal unit, when it has returned without
    reaching the bound, the next unit of the stream is a terminal unit or
    a rune for which [pred] holds. On a terminal unit [TakeUntil] takes
    nothing: it returns [out] as it was and leaves the cursor where it
    was, with the current unit cleared. *)
Theorem TakeUntil_stops_at_the_first_match (fuel : nat)
        (s : RuneStream R) (max : Z) (seed : list Z) (pred : Z -> bool) :
  max <= maxInt ->
  (forall (out : list Z) (s' : RuneStream R),
      RuneStream_TakeUntil Read fuel s max seed pred = Ret (out, s') ->
      exists taken,
        out = seed ++ taken /\
        Forall (fun rn => pred rn = false) taken /\
        (0 <= max -> Z.of_nat (length taken) <= max) /\
        (at_terminal s = false ->
         max < 0 \/ Z.of_nat (length taken) < max ->
         exists ok s2 c,
           RuneStream_Advance Read s' = Ret (ok, s2) /\
           curr s2 = Some c /\
           (ok = false \/ pred (savedRune.value c) = true))) /\
  (at_terminal s = true ->
   RuneStream_TakeUntil Read (S fuel) s max seed pred
   = Ret (seed, reset s (spec s))).
Proof.
  intros Hmax.
  split; [|intros Hterm; now apply TakeWhile_at_terminal].
  intros out s' Hrun. unfold RuneStream_TakeUntil in Hrun.
  destruct (TakeWhile_spec fuel s s' max seed out _ Hmax Hrun)
    as (taken & s_last & s1 & -> & Hall & Hle & -> & _ & _ & _ & _ & Hterm
        & Hexit).
  exists taken. split; [reflexivity|].
  split.
  { eapply Forall_impl; [|exact Hall]. cbn. intros rn H.
    now apply negb_true_iff in H. }
  split; [exact Hle|].
  intros Hlive Hroom.
  destruct Hexit as [(_ & H0 & Hfull)|(ok & c & Hadv & Hcurr & Hfail)];
    [lia|].
  exists ok, s1, c.
  split; [apply Advance_replay; [now apply Hterm|exact Hadv]|].
  split; [exact Hcurr|].
  destruct ok; [right|now left].
  cbn [andb] in Hfail. now apply negb_false_iff in Hfail.
Qed.

(** X9. [Take] is [Advance] under a guard: it fails as [Advance] fails;
    when [Advance] yields a rune for which [pred] holds, [Take] returns
    it and leaves the stream as [Advance] left it; otherwise it returns
    [(0, false)] and puts the cursor back. On a stream that is not on a
    terminal unit, a [Take] that did not match is not seen by what is read
    afterwards. On a terminal unit [Take] returns [(0, false)] and leaves
    the cursor where it was, with the current unit cleared. *)
Theorem Take_is_a_guarded_Advance (s : RuneStream R) (pred : Z -> bool) :
  (forall msg, RuneStream_Advance Read s = Panic msg ->
               RuneStream_Take Read s pred = Panic msg) /\
  (RuneStream_Advance Read s = Diverge ->
   RuneStream_Take Read s pred = Diverge) /\
  (forall ok s1,
      RuneStream_Advance Read s = Ret (ok, s1) ->
      exists c,
        curr s1 = Some c /\
        RuneStream_Take Read s pred =
        Ret (if ok && pred (savedRune.value c)
             then (savedRune.value c, true, s1)
             else (0, false, reset s1 (spec s)))) /\
  (at_terminal s = false ->
   forall rn s',
     RuneStream_Take Read s pred = Ret (rn, false, s') ->
     rn = 0 /\ forall k, observe Read k s' = observe Read k s) /\
  (at_terminal s = true ->
   RuneStream_Take Read s pred = Ret (0, false, reset s (spec s))).
Proof.
  assert (Hret : forall ok s1,
             RuneStream_Advance Read s = Ret (ok, s1) ->
             exists c,
               curr s1 = Some c /\
               RuneStream_Take Read s pred =
               Ret (if ok && pred (savedRune.value c)
                    then (savedRune.value c, true, s1)
                    else (0, false, reset s1 (spec s)))).
  { intros ok s1 Hadv.
    destruct (Advance_curr Read s s1 ok Hadv) as (c & Hc & _).
    destruct (Advance_frame Read s s1 ok Hadv) as (_ & _ & Hg & _).
    exists c. split; [exact Hc|].
    unfold RuneStream_Take. rewrite Hadv. cbn [obind].
    unfold deref. rewrite Hc.
    assert (Hres : RuneStream_Restore s1 (RuneStream_Save s) =
                   Ret (reset s1 (spec s))).
    { apply Restore_valid. cbn. congruence. }
    destruct ok; cbn [obind andb].
    - destruct (pred (savedRune.value c)); cbn [obind];
        [reflexivity|now rewrite Hres].
    - now rewrite Hres. }
  split; [|split; [|split; [exact Hret|split]]].
  - intros msg H. unfold RuneStream_Take. now rewrite H.
  - intros H. unfold RuneStream_Take. now rewrite H.
  - intros Hlive rn s' Htake.
    destruct (RuneStream_Advance Read s) as [[ok s1]| |] eqn:Hadv.
    + destruct (Hret ok s1 eq_refl) as (c & Hc & Heq).
      rewrite Heq in Htake.
      destruct (ok && pred (savedRune.value c)); [discriminate|].
      injection Htake as <- <-. split; [reflexivity|].
      intros k. apply (replay_after_advances Read 1 s s1 k Hlive).
      cbn [advances]. now rewrite Hadv.
    + unfold RuneStream_Take in Htake. rewrite Hadv in Htake. discriminate.
    + unfold RuneStream_Take in Htake. rewrite Hadv in Htake. discriminate.
  - intros Hterm.
    destruct (Hret false s (Advance_terminal Read s Hterm)) as (c & _ & Heq).
    rewrite Heq. reflexivity.
Qed.

End Combinators.

(** ** Streams over [strings.Reader] *)

Lemma strings_Read_data (rd : Reader (list byte)) (len : Z) :
  Reader_Read strings_Read rd len =
  (firstn (Z.to_nat len) (rd_state rd),
   match rd_state rd with [] => Some EOF | _ => None end,
   {| rd_state := skipn (Z.to_nat len) (rd_state rd);
      rd_calls := S (rd_calls rd) |}).
Proof.
  unfold Reader_Read, strings_Read.
  destruct (rd_state rd) as [|c rest].
  - now rewrite firstn_nil, skipn_nil.
  - rewrite firstn_firstn, Nat.min_id. reflexivity.
Qed.

(** A load at the head of the loop, with the log used up. *)
Lemma loop_load (dcd : Decoder) (s : RuneStream (list byte))
      (rest : list byte) :
  decoder_ok dcd -> decoder_stable dcd -> decoder_short dcd ->
  loop_inv dcd s rest -> buf s = [] ->
  exists s3,
    load strings_Read s = Ret s3 /\
    curr s3 = None /\ spec s3 = 0 /\ gen s3 = gen s /\
    match rest with
    | [] => buf s3 = [savedRune.mk (pos s) 0 0 (Some EOF)] /\
            future dcd s rest = []
    | _ :: _ =>
        buf s3 <> [] /\
        loop_inv dcd s3 (skipn (Z.to_nat (bs s)) rest) /\
        future dcd s3 (skipn (Z.to_nat (bs s)) rest) = future dcd s rest
    end.
Proof.
  intros Hok Hst Hshort
         (Hwf & Hbig & Hspec & Hcurr & Hnt & (rd & Hr & Hrd) & Hcomp)
         Hbuf.
  assert (Hlen : Z.of_nat (length (buf s)) < 0x40000000)
    by (rewrite Hbuf; cbn; lia).
  pose proof (strings_Read_data rd (bs s)) as Hread. rewrite Hrd in Hread.
  destruct (load_units strings_Read dcd s rd _ _ _ Hok Hshort Hwf Hr Hlen
              Hread)
    as (s2 & Hload & Hr2 & Hc2 & Hg2 & Hs2 & Hbs2 & Hwf2 & Hb2 & Hp2 & Hpend2).
  rewrite Hbuf in Hb2. cbn [app] in Hb2.
  eexists. split; [exact Hload|].
  cbn [curr spec gen with_buf].
  split; [congruence|]. split; [congruence|]. split; [exact Hg2|].
  destruct Hwf as (Hd & Hbs & Hmax & Hbb & Hwin & Hnf).
  destruct rest as [|c rest].
  - rewrite firstn_nil, app_nil_r in Hb2, Hp2.
    destruct (decode_units_stop dcd (pos s) (pending s) Hnf) as (Hu & Hp & _).
    rewrite Hu in Hb2. rewrite Hp in Hp2.
    cbn [buf with_buf terminal_of]. rewrite Hb2, Hp2. cbn [app].
    split; [reflexivity|].
    unfold future. rewrite Hbuf, app_nil_r, Hu. reflexivity.
  - cbn [terminal_of buf with_buf]. rewrite app_nil_r.
    set (data := firstn (Z.to_nat (bs s)) (c :: rest)) in *.
    set (rest' := skipn (Z.to_nat (bs s)) (c :: rest)).
    assert (Hsplit : c :: rest = data ++ rest')
      by (symmetry; apply firstn_skipn).
    destruct (decode_units_app dcd Hok Hst (length (pending s ++ data))
                (pending s ++ data) rest' (pos s) (Nat.le_refl _))
      as (Hua & Hpa & Hla).
    rewrite <- app_assoc, <- Hsplit in Hua, Hpa, Hla.
    rewrite <- Hp2, <- Hpend2 in Hua, Hpa, Hla.
    assert (Hfull : FullRune dcd (pending s ++ data) = true).
    { destruct (FullRune dcd (pending s ++ data)) eqn:Hf; [reflexivity|].
      exfalso. pose proof (Hshort _ Hf) as Hlt.
      rewrite length_app in Hlt.
      assert (Hdl : (length data < Z.to_nat (bs s))%nat) by lia.
      unfold data in Hdl. rewrite length_firstn in Hdl.
      assert (Hall : data = c :: rest).
      { unfold data. apply firstn_all2. lia. }
      rewrite Hall in Hf.
      destruct (decode_units_stop dcd (pos s) (pending s ++ c :: rest) Hf)
        as (_ & _ & Hl).
      rewrite Hl in Hcomp. now destruct (pending s). }
    destruct (decode_units_step dcd (pos s) (pending s ++ data) Hok Hfull)
      as (pos' & _ & Hu1 & _).
    split.
    { rewrite Hb2, Hu1. discriminate. }
    split.
    + unfold loop_inv.
      cbn [spec curr buf r pos with_buf].
      change (pending (with_buf s2 (buf s2))) with (pending s2).
      change (bs (with_buf s2 (buf s2))) with (bs s2).
      split; [exact Hwf2|]. split; [lia|]. split; [congruence|].
      split; [congruence|].
      split; [rewrite Hb2; now apply units_of_nonterminal|].
      split.
      { eexists. split; [exact Hr2|]. reflexivity. }
      rewrite <- Hla. exact Hcomp.
    + unfold future. cbn [buf pos with_buf].
      change (pending (with_buf s2 (buf s2))) with (pending s2).
      rewrite Hbuf. cbn [map app]. rewrite Hua, <- Hb2, map_app.
      reflexivity.
Qed.

Lemma loop_take (dcd : Decoder) (s : RuneStream (list byte))
      (rest : list byte) (u : savedRune.t) (l : list savedRune.t) :
  loop_inv dcd s rest -> buf s = u :: l ->
  exists s2,
    (forall fuel acc,
        StreamRunes_loop strings_Read (S fuel) s acc =
        StreamRunes_loop strings_Read fuel s2 (acc ++ [item_of u])) /\
    loop_inv dcd s2 rest /\
    future dcd s rest = item_of u :: future dcd s2 rest.
Proof.
  intros (Hwf & Hbig & Hspec & Hcurr & Hnt & Hrd & Hcomp) Hbuf.
  assert (Hu : is_terminal u = false).
  { rewrite Hbuf in Hnt. now inversion Hnt. }
  assert (Hadv : RuneStream_Advance strings_Read s =
                 Ret (true, with_spec (with_curr s (Some u)) (u64 (0 + 1)))).
  { rewrite (Advance_in_log strings_Read s u).
    - now rewrite Hu, Hspec.
    - unfold at_terminal. now rewrite Hcurr.
    - rewrite Hspec, Hbuf. cbn [length]. lia.
    - rewrite Hspec, Hbuf. reflexivity. }
  exists (with_curr
            (with_spec
               (with_gen (with_buf s l) (u64 (gen s + 1))) 0) None).
  split; [|split].
  - intros fuel acc. cbn [StreamRunes_loop]. rewrite Hadv. cbn [obind].
    unfold RuneStream_Rune, RuneStream_Size, RuneStream_Position, deref.
    cbn [curr with_spec with_curr obind].
    unfold RuneStream_Commit.
    cbn [spec buf gen with_spec with_curr]. rewrite Hbuf.
    change (u64 (0 + 1)) with 1. cbn [length].
    destruct (Z.gtb_spec 1 (Z.of_nat (S (length l)))) as [H|_]; [lia|].
    cbn [obind]. reflexivity.
  - unfold loop_inv. cbn [spec curr buf r pos with_curr with_spec with_gen
                            with_buf].
    split; [exact Hwf|]. split; [exact Hbig|].
    split; [reflexivity|]. split; [reflexivity|].
    split; [rewrite Hbuf in Hnt; now inversion Hnt|].
    split; [exact Hrd|exact Hcomp].
  - unfold future. cbn [buf pos with_curr with_spec with_gen with_buf].
    rewrite Hbuf. reflexivity.
Qed.

Lemma loop_run (dcd : Decoder) :
  decoder_ok dcd -> decoder_stable dcd -> decoder_short dcd ->
  forall (fuel : nat) (s : RuneStream (list byte)) (rest : list byte)
         (acc : list Item),
    loop_inv dcd s rest ->
    (length (future dcd s rest) < fuel)%nat ->
    exists s',
      StreamRunes_loop strings_Read fuel s acc
      = Ret (acc ++ future dcd s rest, s') /\
      RuneStream_Err s' = Ret (Some EOF).
Proof.
  intros Hok Hst Hshort.
  induction fuel as [|fuel IH]; intros s rest acc Hinv Hfuel; [lia|].
  assert (Hne : forall (s0 : RuneStream (list byte)) rest0 u l,
             loop_inv dcd s0 rest0 -> buf s0 = u :: l ->
             (length (future dcd s0 rest0) < S fuel)%nat ->
             exists s',
               StreamRunes_loop strings_Read (S fuel) s0 acc
               = Ret (acc ++ future dcd s0 rest0, s') /\
               RuneStream_Err s' = Ret (Some EOF)).
  { intros s0 rest0 u l Hinv0 Hbuf0 Hfuel0.
    destruct (loop_take dcd s0 rest0 u l Hinv0 Hbuf0)
      as (s2 & Hstep & Hinv2 & Hfut).
    rewrite Hstep, Hfut. rewrite Hfut in Hfuel0. cbn [length] in Hfuel0.
    destruct (IH s2 rest0 (acc ++ [item_of u]) Hinv2) as (s' & Hrun & Herr);
      [lia|].
    exists s'. split; [|exact Herr].
    rewrite Hrun, <- app_assoc. reflexivity. }
  destruct (buf s) as [|u l] eqn:Hbuf.
  - destruct (loop_load dcd s rest Hok Hst Hshort Hinv Hbuf)
      as (s3 & Hload & Hc3 & Hs3 & Hg3 & Hcase).
    destruct Hinv as (Hwf & Hbig & Hspec & Hcurr & Hnt & Hrd & Hcomp).
    assert (Hlive : at_terminal s = false)
      by (unfold at_terminal; now rewrite Hcurr).
    pose proof (Advance_live strings_Read s Hlive) as Hadv.
    rewrite Hspec, Hbuf in Hadv. cbn [length Z.of_nat] in Hadv.
    change (0 >=? 0) with true in Hadv. cbv iota in Hadv.
    rewrite Hload in Hadv. cbn [obind] in Hadv. rewrite Hs3 in Hadv.
    destruct rest as [|c rest].
    + destruct Hcase as [Hb3 Hfut]. rewrite Hb3 in Hadv.
      cbn [nth_error Z.to_nat is_terminal savedRune.err negb] in Hadv.
      eexists. cbn [StreamRunes_loop]. rewrite Hadv. cbn [obind].
      rewrite Hfut, app_nil_r. split; [reflexivity|].
      reflexivity.
    + destruct Hcase as (Hne3 & Hinv3 & Hfut).
      destruct (buf s3) as [|u l] eqn:Hb3; [congruence|].
      rewrite <- Hfut in Hfuel |- *.
      destruct (Hne s3 _ u l Hinv3 Hb3 Hfuel) as (s' & Hrun & Herr).
      exists s'. split; [|exact Herr].
      rewrite <- Hrun. cbn [StreamRunes_loop]. rewrite Hadv.
      assert (Hadv3 : RuneStream_Advance strings_Read s3 =
                      match nth_error (u :: l) (Z.to_nat 0) with
                      | Some c0 =>
                          Ret (negb (is_terminal c0),
                               with_spec (with_curr s3 (Some c0))
                                         (u64 (0 + 1)))
                      | None => Panic "index out of range"
                      end).
      { rewrite (Advance_live strings_Read s3)
          by (unfold at_terminal; now rewrite Hc3).
        rewrite Hs3, Hb3. cbn [length].
        destruct (Z.geb_spec 0 (Z.of_nat (S (length l)))) as [H|_]; [lia|].
        cbn [obind]. rewrite Hs3, Hb3. reflexivity. }
      rewrite Hadv3. reflexivity.
  - now apply (Hne s rest u l).
Qed.

Lemma UTF8Decoder_short : decoder_short UTF8Decoder.
Proof. intros p H. now apply utf8_not_full_short. Qed.

Lemma Init_loop_inv (stream s0 : RuneStream (list byte)) (o : Options)
      (input : list byte) :
  decoder_ok (decoder_of (Decoder_ o)) ->
  Max (decoder_of (Decoder_ o)) <= block_size_of (BlockSize o) ->
  block_size_of (BlockSize o) + Max (decoder_of (Decoder_ o)) <= maxInt ->
  left_over (decoder_of (Decoder_ o)) MakePosition input = [] ->
  RuneStream_Init stream (handle input) o = Ret s0 ->
  loop_inv (decoder_of (Decoder_ o)) s0 input /\
  future (decoder_of (Decoder_ o)) s0 input =
  map item_of (units_of (decoder_of (Decoder_ o)) MakePosition input).
Proof.
  intros Hok Hbig Hmax Hcomp Hinit.
  apply Init_inv in Hinit.
  destruct Hinit as (Hb0 & Hm1 & Hr & Hd & Hbs & Hbb & Hb & Hpos & Hbuf
                     & Hcurr & _ & Hspec).
  assert (Hpend : pending s0 = []).
  { unfold pending, window. rewrite Hb. reflexivity. }
  assert (Hbs0 : 0 < block_size_of (BlockSize o)).
  { unfold block_size_of. destruct (Z.eqb_spec (BlockSize o) 0); lia. }
  rewrite int64_small in Hbb
    by (unfold maxInt in Hmax; change (2 ^ 63) with 9223372036854775808 in *;
        lia).
  split.
  - unfold loop_inv, stream_ok, window_ok.
    rewrite Hd, Hbs, Hbb, Hb, Hspec, Hcurr, Hbuf, Hpos, Hpend, Hr.
    cbn [fst snd app Nat.add].
    repeat split; try lia; try assumption.
    + now apply decoder_ok_nil.
    + constructor.
    + eexists. split; reflexivity.
  - unfold future. rewrite Hbuf, Hpos, Hpend. reflexivity.
Qed.

Lemma units_of_count (dcd : Decoder) (pos : Position) (p : list byte) :
  decoder_ok dcd -> (length (units_of dcd pos p) <= length p)%nat.
Proof. intros Hd. pose proof (units_of_length dcd pos p Hd). lia. Qed.

(** X10. Reading a [strings.Reader] to its end with the loop
    [for stream.Advance() { ...; stream.Commit() }] yields the runes, sizes
    and positions that decoding the whole input in one piece yields, and
    ends on [io.EOF]: where the blocks are cut does not show. This holds
    for any block size that is at least [Max()] and any decoder that keeps
    the contract of the interface, when the input does not end inside a
    rune. *)
Theorem loop_reads_what_one_piece_decodes (o : Options) (input : list byte) :
  decoder_ok (decoder_of (Decoder_ o)) ->
  decoder_stable (decoder_of (Decoder_ o)) ->
  decoder_short (decoder_of (Decoder_ o)) ->
  0 <= BlockSize o ->
  Max (decoder_of (Decoder_ o)) <= block_size_of (BlockSize o) ->
  block_size_of (BlockSize o) + Max (decoder_of (Decoder_ o)) <= maxInt ->
  left_over (decoder_of (Decoder_ o)) MakePosition input = [] ->
  exists s0,
    New (handle input) o = Ret s0 /\
    forall fuel, (length input < fuel)%nat ->
      exists s',
        StreamRunes_loop strings_Read fuel s0 [] =
        Ret (map item_of (units_of (decoder_of (Decoder_ o)) MakePosition
                                   input), s') /\
        RuneStream_Err s' = Ret (Some EOF).
Proof.
  intros Hok Hst Hshort Hb0 Hbig Hmax Hcomp.
  assert (Hm1 : 1 <= Max (decoder_of (Decoder_ o))).
  { pose proof (Hshort [] (decoder_ok_nil _ Hok)) as H. cbn in H. lia. }
  destruct (Init_returns zero_RuneStream (handle input) o Hb0 Hm1 Hmax)
    as [s0 Hinit].
  exists s0. split; [exact Hinit|].
  destruct (Init_loop_inv zero_RuneStream s0 o input Hok Hbig Hmax Hcomp
              Hinit) as [Hinv Hfut].
  intros fuel Hfuel.
  destruct (loop_run _ Hok Hst Hshort fuel s0 input [] Hinv)
    as (s' & Hrun & Herr).
  { rewrite Hfut, length_map.
    pose proof (units_of_count _ MakePosition input Hok). lia. }
  exists s'. rewrite Hrun, Hfut. auto.
Qed.

(** X11. [StreamRunes] on a file whose UTF-8 text does not end inside a
    rune calls [callback] once for every rune, in order, with the size and
    the position that decoding the text in one piece gives, and returns a
    nil error: the [io.EOF] that ends the loop is not reported. *)
Theorem StreamRunes_calls_back_every_rune (input : list byte) (fuel : nat) :
  left_over UTF8Decoder MakePosition input = [] ->
  (length input < fuel)%nat ->
  StreamRunes strings_Read fuel (handle input) =
  Ret (map item_of (units_of UTF8Decoder MakePosition input), None).
Proof.
  intros Hcomp Hfuel. unfold StreamRunes.
  assert (Hmax : block_size_of 0 + Max UTF8Decoder <= maxInt)
    by (vm_compute; discriminate).
  destruct (Init_returns zero_RuneStream (handle input)
              {| BlockSize := 0; Decoder_ := None |}) as [s0 Hinit];
    [vm_compute; discriminate | vm_compute; discriminate | exact Hmax |].
  unfold NewRuneStream, New. rewrite Hinit. cbn [obind].
  assert (Hbig : Max UTF8Decoder <= block_size_of 0)
    by (vm_compute; discriminate).
  destruct (Init_loop_inv zero_RuneStream s0
              {| BlockSize := 0; Decoder_ := None |} input UTF8Decoder_ok
              Hbig Hmax Hcomp Hinit)
    as [Hinv Hfut].
  cbn [decoder_of Decoder_] in Hinv, Hfut.
  destruct (loop_run _ UTF8Decoder_ok UTF8Decoder_stable UTF8Decoder_short
              fuel s0 input [] Hinv)
    as (s' & Hrun & Herr).
  { rewrite Hfut, length_map.
    pose proof (units_of_count _ MakePosition input UTF8Decoder_ok). lia. }
  rewrite Hrun. cbn [obind]. rewrite Herr. cbn [obind app].
  now rewrite Hfut.
Qed.

(** ** position.go *)

(** X12. [Position.Advance] by the size: a negative size panics, a size of
    zero changes nothing whatever the rune, and a positive size adds to
    the offset, sets [SkipNextLF] exactly when the rune is a CR, and
    either keeps the line or starts the next one at column 1. *)
Theorem Position_Advance_by_size (pos : Position) (ch size : Z) :
  (size < 0 -> Position_Advance pos ch size = Panic "negative size") /\
  (size = 0 -> Position_Advance pos ch size = Ret pos) /\
  (0 < size ->
   exists pos',
     Position_Advance pos ch size = Ret pos' /\
     Offset pos' = u64 (Offset pos + size) /\
     SkipNextLF pos' = (ch =? rune_CR) /\
     ((Line pos' = Line pos /\
       ((ch =? rune_LF) && SkipNextLF pos = true \/
        ((ch =? rune_CR) = false /\ (ch =? rune_LF) = false))) \/
      (Line pos' = u64 (Line pos + 1) /\ Column pos' = 1 /\
       ((ch =? rune_CR) = true \/
        ((ch =? rune_LF) = true /\ SkipNextLF pos = false))))).
Proof.
  split; [apply Position_Advance_negative|].
  split; [intros ->; reflexivity|].
  intros Hs. unfold Position_Advance.
  destruct (Z.ltb_spec size 0); [lia|].
  destruct (Z.eqb_spec size 0); [lia|].
  rewrite u64_add_r.
  destruct (Z.eqb_spec ch rune_CR) as [->|Hcr].
  - eexists. split; [reflexivity|]. cbn. auto 10.
  - destruct (Z.eqb_spec ch rune_LF) as [->|Hlf]; cbn [andb].
    + destruct (SkipNextLF pos) eqn:Hskip.
      * eexists. split; [reflexivity|]. cbn. auto 10.
      * eexists. split; [reflexivity|]. cbn. auto 10.
    + destruct (ch =? rune_TAB);
        (eexists; split; [reflexivity|]; cbn; auto 10).
Qed.

Lemma Position_Advance_line (pos pos' : Position) (ch size : Z) :
  0 < size -> Position_Advance pos ch size = Ret pos' ->
  Line pos' =
    (if (ch =? rune_CR) || ((ch =? rune_LF) && negb (SkipNextLF pos))
     then u64 (Line pos + 1) else Line pos) /\
  SkipNextLF pos' = (ch =? rune_CR) /\
  Offset pos' = u64 (Offset pos + size).
Proof.
  intros Hs. unfold Position_Advance.
  destruct (Z.ltb_spec size 0); [lia|].
  destruct (Z.eqb_spec size 0); [lia|].
  rewrite u64_add_r.
  destruct (ch =? rune_CR); [intros [= <-]; cbn; auto|].
  destruct (ch =? rune_LF); cbn [andb orb].
  - destruct (SkipNextLF pos) eqn:Hskip; intros [= <-]; cbn; auto.
  - destruct (ch =? rune_TAB); intros [= <-]; cbn; auto.
Qed.

(** X13. Over a text, the line number grows by the number of line breaks,
    where a CR is a line break and an LF is one unless it follows a CR: a
    lone CR, a lone LF and the pair CR LF each count once. The offset
    grows by the sum of the sizes. *)
Theorem Line_counts_the_line_breaks (text : list (Z * Z)) :
  forall pos : Position,
    Position_ok pos ->
    Forall (fun x => 0 < snd x) text ->
    exists pos',
      Position_Advance_all pos text = Ret pos' /\
      Line pos' =
        u64 (Line pos + line_breaks (SkipNextLF pos) (map fst text)) /\
      Offset pos' = u64 (Offset pos + fold_right Z.add 0 (map snd text)).
Proof.
  induction text as [|[ch size] text IH]; intros pos (Ho & Hl & Hc) Hall.
  - exists pos. cbn. rewrite !Z.add_0_r, !u64_small by assumption. auto.
  - inversion Hall as [|x l Hsz Hrest]. subst. cbn [snd] in Hsz.
    cbn [Position_Advance_all map fst snd line_breaks fold_right].
    destruct (Position_Advance_returns pos ch size) as [p1 Hp1]; [lia|].
    rewrite Hp1. cbn [obind].
    destruct (Position_Advance_line pos p1 ch size Hsz Hp1)
      as (Hline & Hskip & Hoff).
    destruct (IH p1) as (pos' & Hrun & Hl' & Ho'); [|exact Hrest|].
    { unfold Position_ok. rewrite Hoff.
      split; [apply u64_range|].
      split.
      - rewrite Hline. destruct (_ || _); [apply u64_range|exact Hl].
      - revert Hp1. unfold Position_Advance.
        destruct (size <? 0); [discriminate|].
        destruct (size =? 0); [now intros [= <-]|].
        change (2 ^ 64) with 18446744073709551616.
        destruct (ch =? rune_CR); [intros [= <-]; cbn; lia|].
        destruct ((ch =? rune_LF) && SkipNextLF pos);
          [intros [= <-]; cbn; now change (2 ^ 64)
             with 18446744073709551616 in Hc|].
        destruct (ch =? rune_LF); [intros [= <-]; cbn; lia|].
        destruct (ch =? rune_TAB); intros [= <-]; cbn;
          change 18446744073709551616 with (2 ^ 64); apply u64_range. }
    exists pos'. split; [exact Hrun|].
    rewrite Hl', Ho', Hline, Hskip, Hoff.
    split.
    + destruct ((ch =? rune_CR) || (ch =? rune_LF) && negb (SkipNextLF pos)).
      * rewrite u64_add_l. f_equal; lia.
      * f_equal; lia.
    + rewrite u64_add_l. f_equal; lia.
Qed.

(** *** String *)

Lemma string_of_uint_digits (d : Decimal.uint) :
  all_digits (NilEmpty.string_of_uint d) = true.
Proof. induction d; cbn [NilEmpty.string_of_uint all_digits]; auto. Qed.

Lemma decimal_digits (n : Z) : all_digits (decimal n) = true.
Proof.
  unfold decimal, NilZero.string_of_uint.
  destruct (N.to_uint (Z.to_N n)); try reflexivity;
    apply (string_of_uint_digits (_ _)).
Qed.

Lemma N_to_uint_nonnil (n : N) : N.to_uint n <> Decimal.Nil.
Proof.
  destruct n as [|p]; [discriminate|].
  apply DecimalPos.Unsigned.to_uint_nonnil.
Qed.

Lemma decimal_inj (a c : Z) :
  0 <= a -> 0 <= c -> decimal a = decimal c -> a = c.
Proof.
  intros Ha Hc H. unfold decimal in H.
  apply Z2N.inj; try assumption.
  apply DecimalN.Unsigned.to_uint_inj.
  assert (Hs : forall d, d <> Decimal.Nil ->
                         NilZero.string_of_uint d = NilEmpty.string_of_uint d)
    by (intros d Hd; destruct d; [congruence|reflexivity..]).
  rewrite !Hs in H by apply N_to_uint_nonnil.
  apply (f_equal NilEmpty.uint_of_string) in H.
  rewrite !NilEmpty.usu in H. now injection H.
Qed.

(** A run of digits ends where the first character that is not a digit
    stands. *)
Lemma digits_app_inj (a c : string) :
  forall (x y : ascii) (r1 r2 : string),
    all_digits a = true -> all_digits c = true ->
    is_digit x = false -> is_digit y = false ->
    (a ++ String x r1 = c ++ String y r2)%string ->
    a = c /\ r1 = r2.
Proof.
  revert c. induction a as [|h a IH]; intros [|k c] x y r1 r2 Ha Hc Hx Hy;
    cbn [String.append all_digits] in *.
  - intros [= _ <-]. auto.
  - intros [= -> _]. apply andb_true_iff in Hc. destruct Hc. congruence.
  - intros [= -> _]. apply andb_true_iff in Ha. destruct Ha. congruence.
  - intros [= -> H].
    apply andb_true_iff in Ha. apply andb_true_iff in Hc.
    destruct (IH c x y r1 r2) as [-> ->]; tauto.
Qed.

(** X14. [String] shows the line, the column and the byte offset in
    decimal, and nothing of [SkipNextLF]: two positions print alike
    exactly when they agree on the three numbers. The start of a file
    prints as "line 1 column 1 (byte offset 0)". *)
Theorem Position_String_shows_line_column_offset (p q : Position) :
  Position_ok p -> Position_ok q ->
  (Position_String p = Position_String q <->
   Line p = Line q /\ Column p = Column q /\ Offset p = Offset q) /\
  Position_String MakePosition = "line 1 column 1 (byte offset 0)"%string.
Proof.
  intros (Hpo & Hpl & Hpc) (Hqo & Hql & Hqc).
  split; [|reflexivity].
  split.
  - unfold Position_String. cbn [String.append]. intros H.
    injection H as H.
    apply digits_app_inj in H;
      [|apply decimal_digits|apply decimal_digits|reflexivity|reflexivity].
    destruct H as [Hl H]. cbn [String.append] in H.
    injection H as H.
    apply digits_app_inj in H;
      [|apply decimal_digits|apply decimal_digits|reflexivity|reflexivity].
    destruct H as [Hc H]. cbn [String.append] in H.
    injection H as H.
    apply digits_app_inj in H;
      [|apply decimal_digits|apply decimal_digits|reflexivity|reflexivity].
    destruct H as [Ho _].
    repeat split; apply decimal_inj; (assumption || lia).
  - intros (Hl & Hc & Ho). unfold Position_String.
    now rewrite Hl, Hc, Ho.
Qed.

(** ** The runes that UTF8Decoder yields *)

Lemma lor_shiftl_low (a c k : Z) :
  0 <= k -> 0 <= c < 2 ^ k ->
  Z.lor (Z.shiftl a k) c = a * 2 ^ k + c.
Proof.
  intros Hk Hc.
  rewrite <- Z.shiftl_mul_pow2 by exact Hk.
  rewrite <- Z.add_lor_land.
  replace (Z.land (Z.shiftl a k) c) with 0; [lia|].
  symmetry. apply Z.bits_inj'. intros n Hn.
  rewrite Z.land_spec, Z.bits_0.
  destruct (Z.ltb_spec n k) as [Hlt|Hge].
  - rewrite Z.shiftl_spec_low by exact Hlt. reflexivity.
  - destruct (Z.eqb_spec c 0) as [->|Hne].
    + rewrite Z.bits_0. apply andb_false_r.
    + rewrite (Z.bits_above_log2 c n); [apply andb_false_r|lia|].
      apply Z.log2_lt_pow2; [lia|].
      apply Z.lt_le_trans with (2 ^ k); [lia|].
      apply Z.pow_le_mono_r; lia.
Qed.

Lemma rune2_value (z b1 : Z) :
  Z.lor (Z.shiftl (Z.land z utf8.mask2) 6) (Z.land b1 utf8.maskx)
  = (z mod 32) * 64 + b1 mod 64.
Proof.
  change utf8.mask2 with (Z.ones 5). change utf8.maskx with (Z.ones 6).
  rewrite !Z.land_ones by lia.
  rewrite lor_shiftl_low; [reflexivity|lia|].
  apply Z.mod_pos_bound. reflexivity.
Qed.

Lemma rune3_value (z b1 b2 : Z) :
  Z.lor (Z.lor (Z.shiftl (Z.land z utf8.mask3) 12)
               (Z.shiftl (Z.land b1 utf8.maskx) 6))
        (Z.land b2 utf8.maskx)
  = ((z mod 16) * 64 + b1 mod 64) * 64 + b2 mod 64.
Proof.
  change utf8.mask3 with (Z.ones 4). change utf8.maskx with (Z.ones 6).
  rewrite !Z.land_ones by lia.
  change 12 with (6 + 6). rewrite <- Z.shiftl_shiftl by lia.
  rewrite <- Z.shiftl_lor.
  rewrite (lor_shiftl_low (z mod 2 ^ 4) (b1 mod 2 ^ 6) 6);
    [|lia|apply Z.mod_pos_bound; reflexivity].
  rewrite lor_shiftl_low; [reflexivity|lia|].
  apply Z.mod_pos_bound. reflexivity.
Qed.

Lemma rune4_value (z b1 b2 b3 : Z) :
  Z.lor (Z.lor (Z.lor (Z.shiftl (Z.land z utf8.mask4) 18)
                      (Z.shiftl (Z.land b1 utf8.maskx) 12))
               (Z.shiftl (Z.land b2 utf8.maskx) 6))
        (Z.land b3 utf8.maskx)
  = (((z mod 8) * 64 + b1 mod 64) * 64 + b2 mod 64) * 64 + b3 mod 64.
Proof.
  change utf8.mask4 with (Z.ones 3). change utf8.maskx with (Z.ones 6).
  rewrite !Z.land_ones by lia.
  change 18 with (6 + (6 + 6)). change 12 with (6 + 6).
  rewrite <- !Z.shiftl_shiftl by lia.
  rewrite <- !Z.shiftl_lor.
  rewrite (lor_shiftl_low (z mod 2 ^ 3) (b1 mod 2 ^ 6) 6);
    [|lia|apply Z.mod_pos_bound; reflexivity].
  rewrite (lor_shiftl_low _ (b2 mod 2 ^ 6) 6);
    [|lia|apply Z.mod_pos_bound; reflexivity].
  rewrite lor_shiftl_low; [reflexivity|lia|].
  apply Z.mod_pos_bound. reflexivity.
Qed.

Ltac value_leaf :=
  to_props; unfold scalar_value; intros;
  repeat match goal with
         | H : Some _ = Some _ |- _ => injection H as H
         | H : None = Some _ |- _ => discriminate H
         end;
  subst; cbn [fst snd];
  repeat split; try (intros [? ?]); Z.div_mod_to_equations; lia.

Ltac value_prune :=
  split_if; cbn [fst snd];
  try solve [exfalso; to_props; Z.div_mod_to_equations; lia].

Ltac value_paths :=
  repeat value_prune; try solve [value_leaf].

Lemma utf8_wellformed_value (p : list byte) (n : Z) :
  wellformed_len p = Some n ->
  snd (utf8.DecodeRune p) = n /\
  scalar_value (fst (utf8.DecodeRune p)) /\
  rune_len (fst (utf8.DecodeRune p)) = n.
Proof.
  destruct p as [|c0 rest]; [discriminate|].
  pose proof (byteZ_range c0) as Hr0.
  destruct (first_of_spec c0) as [Hx Hb|Hx Hb Hw|Hx Hb Hw Hsz Hlo Hhi].
  - unfold wellformed_len. cbn [map]. rewrite Hb. intros [= <-].
    destruct (utf8_ascii c0 rest) as [_ ->];
      [unfold between in Hb; apply andb_true_iff in Hb; lia|].
    cbn [fst snd]. unfold scalar_value, rune_len.
    unfold between in Hb. apply andb_true_iff in Hb.
    destruct Hb as [H1 H2]. apply Z.leb_le in H1, H2.
    destruct (Z.ltb_spec (byteZ c0) 128); [|lia].
    repeat split; lia.
  - unfold wellformed_len. cbn [map]. rewrite Hb, Hw. discriminate.
  - unfold wellformed_len, utf8.DecodeRune, utf8.at_.
    cbn [map nth]. rewrite Hx, Hb.
    rewrite <- Hw, <- Hlo, <- Hhi.
    clear Hx Hlo Hhi Hw Hsz Hb.
    generalize dependent (byteZ c0). intros z Hr0.
    unfold wf_want, wf_second_lo, wf_second_hi, outside, between,
      utf8.locb, utf8.hicb, rune_len.
    rewrite ?rune2_value, ?rune3_value, ?rune4_value.
    destruct rest as [|c1 [|c2 [|c3 rest]]]; cbn [map nth].
    + lens. value_paths.
    + pose proof (byteZ_range c1).
      generalize dependent (byteZ c1). intros b1 Hb1.
      lens. value_paths.
    + pose proof (byteZ_range c1). pose proof (byteZ_range c2).
      generalize dependent (byteZ c1). intros b1 Hb1.
      generalize dependent (byteZ c2). intros b2 Hb2.
      lens. value_paths.
    + pose proof (byteZ_range c1). pose proof (byteZ_range c2).
      pose proof (byteZ_range c3).
      generalize dependent (byteZ c1). intros b1 Hb1.
      generalize dependent (byteZ c2). intros b2 Hb2.
      generalize dependent (byteZ c3). intros b3 Hb3.
      assert (Hn : 4 <= Z.of_nat (length (c0 :: c1 :: c2 :: c3 :: rest)))
        by (cbn [length]; lia).
      generalize dependent (Z.of_nat (length (c0 :: c1 :: c2 :: c3 :: rest))).
      intros m Hm. value_paths.
Qed.

Lemma UTF8Decoder_value (p : list byte) :
  FullRune UTF8Decoder p = true ->
  scalar_value (fst (DecodeRune UTF8Decoder p)) /\
  (forall n,
      wellformed_len p = Some n ->
      snd (DecodeRune UTF8Decoder p) = n /\
      rune_len (fst (DecodeRune UTF8Decoder p)) = n).
Proof.
  intros Hfull. change (DecodeRune UTF8Decoder) with utf8.DecodeRune.
  split.
  - destruct (wellformed_len p) as [n|] eqn:Hw.
    + now apply (utf8_wellformed_value p n).
    + rewrite (utf8_invalid_decode p Hfull Hw). cbn [fst].
      unfold scalar_value, utf8.RuneError. lia.
  - intros n Hw. destruct (utf8_wellformed_value p n Hw) as (H1 & _ & H2).
    now split.
Qed.

(** X15. What [UTF8Decoder] decodes is a Unicode scalar value: never a
    surrogate, never above U+10FFFF. A well-formed sequence is decoded
    with its own length, which is the length of the shortest encoding of
    the rune, so that no overlong form is accepted; an ASCII byte decodes
    to itself. *)
Theorem UTF8Decoder_yields_scalar_values (p : list byte) :
  FullRune UTF8Decoder p = true ->
  scalar_value (fst (DecodeRune UTF8Decoder p)) /\
  (forall n,
      wellformed_len p = Some n ->
      snd (DecodeRune UTF8Decoder p) = n /\
      rune_len (fst (DecodeRune UTF8Decoder p)) = n) /\
  (forall c rest,
      p = c :: rest -> byteZ c < 0x80 ->
      DecodeRune UTF8Decoder p = (byteZ c, 1)).
Proof.
  intros Hfull. destruct (UTF8Decoder_value p Hfull) as [H1 H2].
  split; [exact H1|]. split; [exact H2|].
  intros c rest -> Hc. change (DecodeRune UTF8Decoder) with utf8.DecodeRune.
  now apply utf8_ascii.
Qed.

Section Cursor.

Context {R : Type}.
Variable Read : R -> Z -> (list byte * option error) * R.

(** *** The accessors *)

Lemma accessors_nil (s : RuneStream R) :
  curr s = None ->
  RuneStream_Rune s = Panic nil_dereference /\
  RuneStream_Size s = Panic nil_dereference /\
  RuneStream_Position s = Panic nil_dereference /\
  RuneStream_Err s = Panic nil_dereference.
Proof.
  intros H.
  unfold RuneStream_Rune, RuneStream_Size, RuneStream_Position,
    RuneStream_Err, deref.
  rewrite H. auto.
Qed.

(** X16. [Rune], [Size], [Position] and [Err] read through the pointer to
    the current unit, which [Init], [Rewind], [Restore] and [Commit] set to
    nil: called after one of these, before the next [Advance], each of the
    four panics with a nil dereference. After an [Advance] that returned,
    all four return. *)
Theorem accessors_need_a_current_unit (s s1 : RuneStream R) :
  (s1 = RuneStream_Rewind s \/
   (exists sp, RuneStream_Restore s sp = Ret s1) \/
   RuneStream_Commit s = Ret s1 \/
   (exists rd o, RuneStream_Init s rd o = Ret s1) ->
   RuneStream_Rune s1 = Panic nil_dereference /\
   RuneStream_Size s1 = Panic nil_dereference /\
   RuneStream_Position s1 = Panic nil_dereference /\
   RuneStream_Err s1 = Panic nil_dereference) /\
  ((exists ok, RuneStream_Advance Read s = Ret (ok, s1)) ->
   exists c,
     RuneStream_Rune s1 = Ret (savedRune.value c) /\
     RuneStream_Size s1 = Ret (savedRune.size c) /\
     RuneStream_Position s1 = Ret (savedRune.pos c) /\
     RuneStream_Err s1 = Ret (savedRune.err c)).
Proof.
  split.
  - intros H. apply accessors_nil.
    destruct H as [->|[(sp & H)|[H|(rd & o & H)]]].
    + reflexivity.
    + unfold RuneStream_Restore in H.
      destruct (negb _); [discriminate|]. now injection H as <-.
    + apply Commit_inv in H. destruct H as [_ ->]. reflexivity.
    + apply Init_inv in H. tauto.
  - intros [ok H].
    destruct (Advance_curr Read s s1 ok H) as (c & Hc & _).
    exists c.
    unfold RuneStream_Rune, RuneStream_Size, RuneStream_Position,
      RuneStream_Err, deref.
    rewrite Hc. auto.
Qed.

(** *** What holds of all the units *)

Lemma decode_loop_Forall (P : savedRune.t -> Prop) (dcd : Decoder)
      (fuel : nat) :
  (forall q p, FullRune dcd q = true ->
               P (savedRune.mk p (fst (DecodeRune dcd q))
                               (snd (DecodeRune dcd q)) None)) ->
  forall s s' : RuneStream R,
    decode_loop fuel dcd s = Ret s' ->
    Forall P (buf s) -> Forall P (buf s').
Proof.
  intros HP.
  induction fuel as [|fuel IH]; intros s s'; rewrite decode_loop_eq.
  - destruct (FullRune dcd (pending s)); [discriminate|]. now intros [= <-].
  - destruct (FullRune dcd (pending s)) eqn:Hfull; [|now intros [= <-]].
    specialize (HP (pending s) (pos s) Hfull).
    destruct (DecodeRune dcd (pending s)) as [rn sz].
    destruct ((sz <? 0) || (Z.of_nat (snd (b s)) <? sz)); [discriminate|].
    cbv zeta.
    destruct (Position_Advance _ rn sz) as [p'| |]; try discriminate.
    cbn [obind]. intros Hrun Hall. apply (IH _ _ Hrun).
    cbn [buf with_pos with_buf with_b].
    apply Forall_app. split; [exact Hall|]. constructor; [exact HP|constructor].
Qed.

Lemma load_Forall (P : savedRune.t -> Prop) (s s' : RuneStream R) :
  made_units P s ->
  load Read s = Ret s' ->
  Forall P (buf s) -> Forall P (buf s').
Proof.
  intros [HP HT]. unfold load.
  destruct (Z.of_nat (length (buf s)) >=? 1073741824); [discriminate|].
  destruct (Z.of_nat (snd (b s)) >? Z.of_nat (length (bb s)));
    [discriminate|].
  destruct ((Z.of_nat (snd (b s)) >? int64 (Z.of_nat (snd (b s)) + bs s))
            || (int64 (Z.of_nat (snd (b s)) + bs s)
                >? Z.of_nat (length (bb s)))); [discriminate|].
  destruct (r s) as [rd|]; [|discriminate].
  destruct (Reader_Read Read rd _) as [[data e] rd'].
  destruct (d s) as [dcd|]; [|discriminate].
  match goal with |- context [decode_loop ?f dcd ?s1] =>
    pose proof (decode_loop_Forall P dcd f
                  (fun q p => HP dcd q p eq_refl) s1) as Hloop;
    destruct (decode_loop f dcd s1) as [s2| |]; try discriminate
  end.
  specialize (Hloop s2 eq_refl). cbn [buf with_b with_io] in Hloop.
  cbn [obind].
  destruct e as [e'|]; intros [= <-] Hall; cbn [buf with_buf]; auto.
  apply Forall_app. split; [auto|]. constructor; [apply HT|constructor].
Qed.

Lemma step_log_all (P : savedRune.t -> Prop) (o : op)
      (s s1 : RuneStream R) :
  made_units P s -> log_all P s -> step_op Read o s = Ret s1 ->
  d s1 = d s /\ log_all P s1.
Proof.
  intros Hmade [Hbuf Hcurr].
  destruct o as [| |sp| |]; cbn [step_op].
  - destruct (RuneStream_Advance Read s) as [[ok s2]| |] eqn:Hadv;
      try discriminate.
    cbn [obind]. intros [= <-].
    destruct (Advance_frame Read s s2 ok Hadv) as (Hd & _).
    split; [exact Hd|].
    destruct (Advance_inv Read s s2 ok Hadv)
      as [(_ & _ & ->)|(_ & s' & c & Hload & (_ & _ & Hc & _) & _ & Hnth & _
                        & ->)];
      [now split|].
    assert (Hall : Forall P (buf s')).
    { destruct (spec s >=? Z.of_nat (length (buf s))).
      - now apply (load_Forall P s s').
      - now subst s'. }
    split; cbn [buf curr with_spec with_curr]; [exact Hall|].
    intros c0 [= <-].
    apply nth_error_In in Hnth.
    now apply (proj1 (Forall_forall _ _) Hall).
  - intros [= <-]. split; [reflexivity|now split].
  - unfold RuneStream_Restore. destruct (negb _); [discriminate|].
    intros [= <-]. split; [reflexivity|]. split; [exact Hbuf|discriminate].
  - intros [= <-]. split; [reflexivity|]. split; [exact Hbuf|discriminate].
  - intros H. apply Commit_inv in H. destruct H as [_ ->].
    split; [reflexivity|].
    split; cbn [buf curr with_curr with_spec with_gen with_buf];
      [|discriminate].
    rewrite <- (firstn_skipn (Z.to_nat (spec s)) (buf s)) in Hbuf.
    now apply Forall_app in Hbuf.
Qed.

Lemma run_log_all (P : savedRune.t -> Prop) (ops : list op) :
  forall s s' : RuneStream R,
    made_units P s -> log_all P s -> run_ops Read ops s = Ret s' ->
    made_units P s' /\ log_all P s'.
Proof.
  induction ops as [|o ops IH]; intros s s' Hmade Hz; cbn [run_ops].
  - intros [= <-]. now split.
  - destruct (step_op Read o s) as [s1| |] eqn:Hstep; try discriminate.
    cbn [obind].
    destruct (step_log_all P o s s1 Hmade Hz Hstep) as [Hd Hz1].
    apply IH; [|exact Hz1].
    unfold made_units in *. rewrite Hd. exact Hmade.
Qed.

(** The current unit after [Init], some calls and an [Advance]. *)
Lemma reached_unit (P : savedRune.t -> Prop)
      (stream s0 s s1 : RuneStream R) (rd : option (Reader R))
      (o : Options) (ops : list op) (ok : bool) :
  made_units P s0 ->
  RuneStream_Init stream rd o = Ret s0 ->
  run_ops Read ops s0 = Ret s ->
  RuneStream_Advance Read s = Ret (ok, s1) ->
  exists c, curr s1 = Some c /\ ok = negb (is_terminal c) /\ P c.
Proof.
  intros Hmade Hinit Hrun Hadv.
  assert (Hz0 : log_all P s0).
  { apply Init_inv in Hinit.
    destruct Hinit as (_ & _ & _ & _ & _ & _ & _ & _ & Hb & Hc & _).
    split; [rewrite Hb; constructor|rewrite Hc; discriminate]. }
  assert (Hz1 : log_all P s1).
  { apply (run_log_all P (ops ++ [OpAdvance]) s0); try assumption.
    clear Hz0 Hinit Hmade. revert s0 Hrun.
    induction ops as [|o1 ops IH]; intros s0; cbn [run_ops app].
    - intros [= ->]. cbn [step_op]. now rewrite Hadv.
    - destruct (step_op Read o1 s0) as [s2| |]; try discriminate.
      cbn [obind]. apply IH. }
  destruct (Advance_curr Read s s1 ok Hadv) as (c & Hc & Hok).
  exists c. split; [exact Hc|]. split; [exact Hok|].
  now apply (proj2 Hz1).
Qed.

(** X17. On a stream that was made by [Init] and used through [Advance],
    [Save], [Restore], [Rewind] and [Commit], the result of [Advance]
    tells whether the current unit is a rune or the end: after [true],
    [Err] is nil; after [false], [Err] is not nil and [Rune] and [Size]
    are zero. *)
Theorem Advance_false_carries_the_error
        (stream s0 s s1 : RuneStream R) (rd : option (Reader R))
        (o : Options) (ops : list op) (ok : bool) :
  RuneStream_Init stream rd o = Ret s0 ->
  run_ops Read ops s0 = Ret s ->
  RuneStream_Advance Read s = Ret (ok, s1) ->
  if ok
  then RuneStream_Err s1 = Ret None /\
       exists rn sz p,
         RuneStream_Rune s1 = Ret rn /\ RuneStream_Size s1 = Ret sz /\
         RuneStream_Position s1 = Ret p
  else (exists e, RuneStream_Err s1 = Ret (Some e)) /\
       RuneStream_Rune s1 = Ret 0 /\ RuneStream_Size s1 = Ret 0.
Proof.
  intros Hinit Hrun Hadv.
  destruct (reached_unit terminal_is_zero stream s0 s s1 rd o ops ok)
    as (c & Hc & Hok & Hzc); try assumption.
  { split.
    - intros dcd q p _ _ H. discriminate.
    - intros p e _. now split. }
  unfold RuneStream_Rune, RuneStream_Size, RuneStream_Position,
    RuneStream_Err, deref.
  rewrite Hc. cbn [obind].
  unfold is_terminal, terminal_is_zero in *.
  destruct ok.
  - symmetry in Hok. apply negb_true_iff in Hok.
    destruct (savedRune.err c); [discriminate|].
    split; [reflexivity|].
    exists (savedRune.value c), (savedRune.size c), (savedRune.pos c). auto.
  - symmetry in Hok. apply negb_false_iff in Hok.
    destruct (Hzc Hok) as [-> ->].
    destruct (savedRune.err c) as [e|]; [|discriminate].
    split; [now exists e|auto].
Qed.

(** X18. The runes that a stream with the default decoder delivers are
    Unicode scalar values, each with the size of its shortest UTF-8
    encoding, or the replacement rune U+FFFD with size 1 for a byte that
    cannot be decoded. *)
Theorem stream_runes_are_scalar_values
        (stream s0 s s1 : RuneStream R) (rd : option (Reader R))
        (o : Options) (ops : list op) :
  Decoder_ o = None ->
  RuneStream_Init stream rd o = Ret s0 ->
  run_ops Read ops s0 = Ret s ->
  RuneStream_Advance Read s = Ret (true, s1) ->
  exists rn sz,
    RuneStream_Rune s1 = Ret rn /\ RuneStream_Size s1 = Ret sz /\
    scalar_value rn /\ 1 <= sz <= 4 /\
    (sz = rune_len rn \/ (rn = utf8.RuneError /\ sz = 1)).
Proof.
  intros Hdec Hinit Hrun Hadv.
  destruct (reached_unit utf8_unit stream s0 s s1 rd o ops true)
    as (c & Hc & Hok & Hu); try assumption.
  { pose proof Hinit as Hi. apply Init_inv in Hi.
    destruct Hi as (_ & _ & _ & Hd & _). rewrite Hdec in Hd.
    split.
    - intros dcd q p Hd' Hfull _. rewrite Hd in Hd'.
      injection Hd' as <-. cbn [savedRune.value savedRune.size].
      destruct (UTF8Decoder_value q Hfull) as (Hs & Hw).
      split; [exact Hs|].
      destruct (wellformed_len q) as [n|] eqn:Hwf.
      + left. destruct (Hw n eq_refl) as [-> ->]. reflexivity.
      + right. change (DecodeRune UTF8Decoder) with utf8.DecodeRune.
        rewrite (utf8_invalid_decode q Hfull Hwf). now split.
    - intros p e H. discriminate. }
  symmetry in Hok. apply negb_true_iff in Hok.
  destruct (Hu Hok) as (Hs & Hlen).
  exists (savedRune.value c), (savedRune.size c).
  unfold RuneStream_Rune, RuneStream_Size, deref. rewrite Hc. cbn [obind].
  split; [reflexivity|]. split; [reflexivity|]. split; [exact Hs|].
  split; [|exact Hlen].
  destruct Hlen as [->|[_ ->]]; [|lia].
  unfold rune_len.
  destruct (_ <? 128); [lia|]. destruct (_ <? 2048); [lia|].
  destruct (_ <? 65536); lia.
Qed.

(** *** Reads *)

(** X19. [Advance] reads the source only when the cursor is at the end of
    the log, and then once: with the cursor inside the log, or at a
    terminal unit, it leaves the reader, the log, the position and the
    pending bytes as they are. At the end of a log of 2^30 units it
    panics without reading. *)
Theorem Advance_reads_only_at_the_end_of_the_log (s : RuneStream R) :
  (at_terminal s = false ->
   spec s >= Z.of_nat (length (buf s)) ->
   0x40000000 <= Z.of_nat (length (buf s)) ->
   RuneStream_Advance Read s =
   Panic "too many calls to Advance() without Commit()") /\
  (forall ok s1,
      RuneStream_Advance Read s = Ret (ok, s1) ->
      (at_terminal s = true \/ spec s < Z.of_nat (length (buf s)) ->
       r s1 = r s /\ buf s1 = buf s /\ pos s1 = pos s /\
       pending s1 = pending s /\ reads_issued s1 = reads_issued s) /\
      (at_terminal s = false -> spec s >= Z.of_nat (length (buf s)) ->
       reads_issued s1 = S (reads_issued s) /\
       Z.of_nat (length (buf s)) < 0x40000000)).
Proof.
  split.
  - intros Hlive Hend Hfull.
    rewrite (Advance_live Read s Hlive).
    destruct (Z.geb_spec (spec s) (Z.of_nat (length (buf s)))); [|lia].
    unfold load.
    destruct (Z.geb_spec (Z.of_nat (length (buf s))) 1073741824); [|lia].
    reflexivity.
  - intros ok s1 Hadv.
    destruct (Advance_inv Read s s1 ok Hadv)
      as [(Hterm & _ & ->)|(Hlive & s' & c & Hload & _ & _ & _ & _ & ->)].
    + split; [auto|]. intros H. congruence.
    + split.
      * intros [H|H]; [congruence|].
        destruct (Z.geb_spec (spec s) (Z.of_nat (length (buf s)))); [lia|].
        subst s'. auto.
      * intros _ Hend.
        destruct (Z.geb_spec (spec s) (Z.of_nat (length (buf s)))); [|lia].
        destruct (load_frame Read s s' Hload)
          as (_ & _ & rd & rd' & Hr & Hr' & Hcalls).
        unfold reads_issued. cbn [r with_spec with_curr].
        rewrite Hr, Hr'. split; [exact Hcalls|].
        unfold load in Hload.
        destruct (Z.geb_spec (Z.of_nat (length (buf s))) 1073741824);
          [discriminate|lia].
Qed.

(** X20. When the cursor is at the end of the log and the read returns
    without an error, but the bytes at hand do not make a full rune (the
    text ends inside a rune, or the reader returned no bytes), [load]
    appends nothing and [Advance] panics on the index past the log. *)
Theorem Advance_panics_when_a_read_gives_no_unit
        (dcd : Decoder) (s : RuneStream R) (rd rd' : Reader R)
        (data : list byte) :
  decoder_ok dcd -> decoder_short dcd -> stream_ok dcd s ->
  at_terminal s = false ->
  spec s = Z.of_nat (length (buf s)) ->
  Z.of_nat (length (buf s)) < 0x40000000 ->
  r s = Some rd ->
  Reader_Read Read rd (bs s) = (data, None, rd') ->
  FullRune dcd (pending s ++ data) = false ->
  RuneStream_Advance Read s = Panic "index out of range".
Proof.
  intros Hok Hshort Hwf Hlive Hend Hceil Hr Hread Hnf.
  rewrite (Advance_live Read s Hlive).
  destruct (Z.geb_spec (spec s) (Z.of_nat (length (buf s)))); [|lia].
  destruct (load_units Read dcd s rd rd' data None Hok Hshort Hwf Hr Hceil
              Hread)
    as (s2 & -> & _ & _ & _ & Hs2 & _ & _ & Hb2 & _).
  cbn [obind terminal_of buf spec with_buf].
  destruct (decode_units_stop dcd (pos s) (pending s ++ data) Hnf)
    as (Hu & _).
  rewrite Hu, !app_nil_r in Hb2. rewrite app_nil_r, Hb2, Hs2, Hend.
  rewrite Nat2Z.id.
  rewrite (proj2 (nth_error_None (buf s) (length (buf s)))) by lia.
  reflexivity.
Qed.

End Cursor.

(** ** Malformed input *)


Section Malformed.

Context {R : Type}.
Variable Read : R -> Z -> (list byte * option error) * R.


End Malformed.

(** ** ZeroReader *)

Lemma firstn_repeat_le (x : byte) (k n : nat) :
  (k <= n)%nat -> firstn k (repeat x n) = repeat x k.
Proof.
  revert n. induction k as [|k IH]; intros n H; [reflexivity|].
  destruct n as [|n]; [lia|]. cbn. f_equal. apply IH. lia.
Qed.

Lemma copy_zeroes (p : list byte) (n : nat) :
  (length p <= n)%nat ->
  copy p (firstn (length p) (repeat x00 n)) = repeat x00 (length p).
Proof.
  intros H. unfold copy.
  rewrite firstn_repeat_le by exact H.
  rewrite repeat_length, Nat.min_id, firstn_repeat_le by lia.
  rewrite skipn_all. apply app_nil_r.
Qed.

Lemma ZeroReader_fill_zeroes (fuel : nat) :
  forall p : list byte,
    (length p <= 4096 * S fuel)%nat ->
    ZeroReader_fill fuel new_ZeroReader p = repeat x00 (length p).
Proof.
  induction fuel as [|fuel IH]; intros p Hlen; cbn [ZeroReader_fill].
  - destruct (Nat.ltb_spec 4096 (length p)) as [|Hsmall]; [lia|].
    apply copy_zeroes. exact Hsmall.
  - destruct (Nat.ltb_spec 4096 (length p)) as [Hbig|Hsmall].
    + rewrite IH by (rewrite length_skipn; lia).
      assert (Hc : copy (firstn 4096 p) (zeroes new_ZeroReader)
                   = repeat x00 4096).
      { unfold copy, new_ZeroReader, zeroes.
        rewrite length_firstn, repeat_length.
        replace (Nat.min (Nat.min 4096 (length p)) 4096) with 4096%nat
          by lia.
        rewrite firstn_all2 by (rewrite repeat_length; lia).
        rewrite skipn_all2 by (rewrite length_firstn; lia).
        apply app_nil_r. }
      rewrite Hc, length_skipn, <- repeat_app. f_equal. lia.
    + apply copy_zeroes. exact Hsmall.
Qed.

(** X21. [ZeroReader.Read] fills the whole of [p] with zero bytes, whatever
    [p] held and however long it is, and returns [len(p)] and a nil
    error: it never reports the end of the data. *)
Theorem ZeroReader_Read_fills_with_zeroes (p : list byte) :
  ZeroReader_Read new_ZeroReader p =
  (repeat x00 (length p), Z.of_nat (length p), None).
Proof.
  unfold ZeroReader_Read. rewrite ZeroReader_fill_zeroes; [reflexivity|].
  lia.
Qed.

Lemma ZeroReader_source_spec (len : Z) :
  ZeroReader_source new_ZeroReader len =
  ((repeat x00 (Z.to_nat len), None), new_ZeroReader).
Proof.
  unfold ZeroReader_source, ZeroReader_Read.
  rewrite ZeroReader_fill_zeroes by lia.
  rewrite repeat_length, Nat2Z.id, firstn_all2 by (rewrite repeat_length; lia).
  reflexivity.
Qed.

(** A run of zero bytes decodes to as many units for U+0000, and leaves
    nothing over. *)
Lemma zeroes_units (n : nat) :
  forall pos : Position,
    Forall zero_unit (units_of UTF8Decoder pos (repeat x00 n)) /\
    length (units_of UTF8Decoder pos (repeat x00 n)) = n /\
    left_over UTF8Decoder pos (repeat x00 n) = [].
Proof.
  induction n as [|n IH]; intros pos.
  - cbn [repeat].
    destruct (decode_units_stop UTF8Decoder pos [] eq_refl) as (-> & _ & ->).
    repeat split. constructor.
  - cbn [repeat].
    destruct (utf8_ascii x00 (repeat x00 n)) as [Hfull Hdec];
      [vm_compute; reflexivity|].
    destruct (decode_units_step UTF8Decoder pos (x00 :: repeat x00 n)
                UTF8Decoder_ok Hfull) as (pos' & _ & -> & _ & ->).
    change (DecodeRune UTF8Decoder) with utf8.DecodeRune.
    rewrite Hdec. cbn [fst snd]. change (Z.to_nat 1) with 1%nat.
    cbn [skipn]. change (byteZ x00) with 0.
    destruct (IH pos') as (H1 & H2 & H3).
    split; [constructor; [repeat split|exact H1]|].
    split; [cbn [length]; now rewrite H2|exact H3].
Qed.

Lemma bench_step (s : RuneStream ZeroReader) :
  bench_inv s ->
  exists s1 s2 c,
    RuneStream_Advance ZeroReader_source s = Ret (true, s1) /\
    curr s1 = Some c /\ zero_unit c /\
    RuneStream_Commit s1 = Ret s2 /\ bench_inv s2.
Proof.
  intros (Hwf & Hbs & Hspec & Hcurr & Hpend & Hall & Hlen & rd & Hr & Hrd).
  assert (Hlive : at_terminal s = false)
    by (unfold at_terminal; now rewrite Hcurr).
  assert (Htake : forall (t : RuneStream ZeroReader) u l,
             bench_inv t -> buf t = u :: l ->
             exists s1 s2 c,
               RuneStream_Advance ZeroReader_source t = Ret (true, s1) /\
               curr s1 = Some c /\ zero_unit c /\
               RuneStream_Commit s1 = Ret s2 /\ bench_inv s2).
  { clear. intros t u l
           (Hwf & Hbs & Hspec & Hcurr & Hpend & Hall & Hlen & Hrd) Hbuf.
    rewrite Hbuf in Hall, Hlen.
    inversion Hall as [|x y Hu Hl]. subst x y.
    assert (Hterm : is_terminal u = false).
    { unfold is_terminal. destruct Hu as (_ & _ & ->). reflexivity. }
    exists (with_spec (with_curr t (Some u)) (u64 (0 + 1))),
      (with_curr
         (with_spec (with_gen (with_buf t l) (u64 (gen t + 1))) 0) None), u.
    split.
    { rewrite (Advance_in_log ZeroReader_source t u).
      - now rewrite Hterm, Hspec.
      - unfold at_terminal. now rewrite Hcurr.
      - rewrite Hspec, Hbuf. cbn [length]. lia.
      - rewrite Hspec, Hbuf. reflexivity. }
    split; [reflexivity|]. split; [exact Hu|].
    split.
    { unfold RuneStream_Commit.
      cbn [spec buf gen with_spec with_curr]. rewrite Hbuf.
      change (u64 (0 + 1)) with 1. cbn [length].
      destruct (Z.gtb_spec 1 (Z.of_nat (S (length l)))) as [H|_]; [lia|].
      reflexivity. }
    unfold bench_inv.
    cbn [spec curr buf r bs with_curr with_spec with_gen with_buf].
    split; [exact Hwf|]. split; [exact Hbs|].
    split; [reflexivity|]. split; [reflexivity|]. split; [exact Hpend|].
    split; [exact Hl|]. split; [cbn [length] in Hlen; lia|exact Hrd]. }
  destruct (buf s) as [|u l] eqn:Hbuf.
  - (* the log is used up: one load of 4096 zero bytes *)
    assert (Hread : Reader_Read ZeroReader_source rd (bs s) =
                    (repeat x00 (Z.to_nat (bs s)), None,
                     {| rd_state := new_ZeroReader;
                        rd_calls := S (rd_calls rd) |})).
    { unfold Reader_Read. rewrite Hrd, ZeroReader_source_spec.
      rewrite firstn_all2 by (rewrite repeat_length; lia).
      reflexivity. }
    assert (Hceil : Z.of_nat (length (buf s)) < 0x40000000)
      by (rewrite Hbuf; cbn; lia).
    destruct (load_units ZeroReader_source UTF8Decoder s rd _ _ _
                UTF8Decoder_ok UTF8Decoder_short Hwf Hr Hceil Hread)
      as (s2 & Hload & Hr2 & Hc2 & Hg2 & Hs2 & Hbs2 & Hwf2 & Hb2 & _ & Hp2).
    rewrite Hpend, Hbuf in Hb2. cbn [app] in Hb2, Hp2. rewrite Hpend in Hp2.
    cbn [app] in Hp2.
    destruct (zeroes_units (Z.to_nat (bs s)) (pos s)) as (Hz1 & Hz2 & Hz3).
    cbn [terminal_of] in Hload.
    assert (Hinv2 : bench_inv (with_buf s2 (buf s2 ++ []))).
    { unfold bench_inv. cbn [spec curr buf r bs with_buf].
      change (pending (with_buf s2 (buf s2 ++ []))) with (pending s2).
      rewrite app_nil_r, Hb2, Hz2.
      split; [exact Hwf2|]. split; [congruence|]. split; [congruence|].
      split; [congruence|]. split; [rewrite Hp2; exact Hz3|].
      split; [exact Hz1|]. split; [lia|].
      eexists. split; [exact Hr2|reflexivity]. }
    destruct (units_of UTF8Decoder (pos s) (repeat x00 (Z.to_nat (bs s))))
      as [|u l] eqn:Hu; [cbn [length] in Hz2; lia|].
    destruct (Htake (with_buf s2 (buf s2 ++ [])) u l Hinv2)
      as (s1 & s3 & c & Hadv & Hrest).
    { cbn [buf with_buf]. now rewrite app_nil_r. }
    exists s1, s3, c. split; [|exact Hrest].
    rewrite (Advance_live ZeroReader_source s Hlive).
    rewrite Hspec, Hbuf. cbn [length Z.of_nat].
    change (0 >=? 0) with true. cbv iota. rewrite Hload. cbn [obind].
    rewrite <- Hadv.
    rewrite (Advance_live ZeroReader_source (with_buf s2 (buf s2 ++ []))).
    + cbn [spec buf with_buf]. rewrite Hs2, Hspec, app_nil_r, Hb2.
      cbn [length].
      destruct (Z.geb_spec 0 (Z.of_nat (S (length l)))) as [H|_]; [lia|].
      cbn [obind spec buf with_buf]. rewrite Hs2, Hspec. reflexivity.
    + unfold at_terminal. cbn [curr with_buf]. rewrite Hc2, Hcurr.
      reflexivity.
  - apply (Htake s u l); [|exact Hbuf].
    unfold bench_inv. rewrite Hbuf.
    split; [exact Hwf|]. split; [exact Hbs|]. split; [exact Hspec|].
    split; [exact Hcurr|]. split; [exact Hpend|]. split; [exact Hall|].
    split; [exact Hlen|]. exists rd. split; [exact Hr|exact Hrd].
Qed.

(** X22. A stream over a [ZeroReader] never ends: after any number of
    rounds of [Advance()] and [Commit()], as in
    [BenchmarkRuneStream_advance], the next [Advance] returns true, with
    the rune U+0000 of size 1. *)
Theorem ZeroReader_stream_never_ends (n : nat) :
  exists s s1,
    run_ops ZeroReader_source (benchmark_ops n) (stream_over new_ZeroReader)
    = Ret s /\
    RuneStream_Advance ZeroReader_source s = Ret (true, s1) /\
    RuneStream_Rune s1 = Ret 0 /\ RuneStream_Size s1 = Ret 1 /\
    RuneStream_Err s1 = Ret None.
Proof.
  assert (Hrun : forall (k : nat) (s0 : RuneStream ZeroReader),
             bench_inv s0 ->
             exists s, run_ops ZeroReader_source (benchmark_ops k) s0 = Ret s
                       /\ bench_inv s).
  { induction k as [|k IH]; intros s0 Hinv.
    - exists s0. split; [reflexivity|exact Hinv].
    - destruct (bench_step s0 Hinv) as (s1 & s2 & c & Hadv & _ & _ & Hcom
                                        & Hinv2).
      destruct (IH s2 Hinv2) as (s & Hrun & Hinv').
      exists s. split; [|exact Hinv'].
      unfold benchmark_ops. cbn [repeat concat app run_ops step_op].
      rewrite Hadv. cbn [obind]. rewrite Hcom. cbn [obind]. exact Hrun. }
  assert (H0 : bench_inv (stream_over new_ZeroReader)).
  { pose proof (stream_over_wf new_ZeroReader) as Hwf.
    pose proof (stream_over_new new_ZeroReader) as Hnew.
    unfold NewRuneStream, New in Hnew. apply Init_inv in Hnew.
    destruct Hnew as (_ & _ & Hr & _ & Hbs & _ & Hb & _ & Hbuf & Hcurr & _
                      & Hspec).
    unfold bench_inv. rewrite Hbuf.
    split; [exact Hwf|]. split; [exact Hbs|]. split; [exact Hspec|].
    split; [exact Hcurr|].
    split; [unfold pending, window; rewrite Hb; reflexivity|].
    split; [constructor|]. split; [cbn; lia|].
    eexists. split; [exact Hr|reflexivity]. }
  destruct (Hrun n _ H0) as (s & Hs & Hinv).
  destruct (bench_step s Hinv) as (s1 & _ & c & Hadv & Hc & (Hv & Hsz & He)
                                   & _).
  exists s, s1. split; [exact Hs|]. split; [exact Hadv|].
  unfold RuneStream_Rune, RuneStream_Size, RuneStream_Err, deref.
  rewrite Hc. cbn [obind]. rewrite Hv, Hsz, He.
  split; [reflexivity|]. split; reflexivity.
Qed.

(** *** The units of the benchmark loop, counted *)

Lemma run_hist_app {R : Type}
      (Read : R -> Z -> (list byte * option error) * R) (ops1 ops2 : list op) :
  forall (s : RuneStream R) (hist : list savedRune.t),
    run_hist Read (ops1 ++ ops2) s hist =
    obind (run_hist Read ops1 s hist)
          (fun x => run_hist Read ops2 (fst x) (snd x)).
Proof.
  induction ops1 as [|o ops1 IH]; intros s hist; cbn [app run_hist].
  - reflexivity.
  - destruct (step_op Read o s) as [s1| |]; cbn [obind]; [apply IH| |];
      reflexivity.
Qed.

(** One round of the benchmark loop: the unit that [Advance] returns is
    the first of the log, and [Commit] drops it. *)
Lemma bench_round (s : RuneStream ZeroReader) :
  bench_inv s ->
  exists s1 s2 c,
    RuneStream_Advance ZeroReader_source s = Ret (true, s1) /\
    nth_error (buf s1) 0 = Some c /\ zero_unit c /\
    dropped_by OpCommit s1 = [c] /\
    RuneStream_Commit s1 = Ret s2 /\ bench_inv s2.
Proof.
  intros Hinv.
  destruct (bench_step s Hinv) as (s1 & s2 & c & Hadv & Hc & Hz & Hcom & Hinv2).
  destruct Hinv as (_ & _ & Hspec & _).
  exists s1, s2, c. split; [exact Hadv|].
  destruct (Advance_inv ZeroReader_source s s1 true Hadv)
    as [(_ & Hf & _)|(_ & s' & c' & _ & _ & _ & Hnth & _ & Hs1)];
    [discriminate|].
  rewrite Hspec in Hnth, Hs1. change (Z.to_nat 0) with 0%nat in Hnth.
  assert (Hcc : c' = c).
  { rewrite Hs1 in Hc. cbn [curr with_spec with_curr] in Hc. congruence. }
  subst c'.
  assert (Hb : buf s1 = buf s') by (rewrite Hs1; reflexivity).
  assert (Hsp : spec s1 = 1) by (rewrite Hs1; reflexivity).
  rewrite <- Hb in Hnth.
  split; [exact Hnth|]. split; [exact Hz|].
  split; [|split; [exact Hcom|exact Hinv2]].
  cbn [dropped_by]. rewrite Hsp. change (Z.to_nat 1) with 1%nat.
  destruct (buf s1) as [|x l]; [discriminate|].
  cbn in Hnth. injection Hnth as ->. reflexivity.
Qed.

Lemma bench_hist (n : nat) :
  forall (s : RuneStream ZeroReader) (hist : list savedRune.t),
    bench_inv s ->
    exists s' new,
      run_hist ZeroReader_source (benchmark_ops n) s hist
      = Ret (s', hist ++ new) /\
      length new = n /\ Forall zero_unit new /\ bench_inv s'.
Proof.
  induction n as [|n IH]; intros s hist Hinv.
  - exists s, []. cbn [benchmark_ops repeat concat run_hist].
    rewrite app_nil_r. split; [reflexivity|]. split; [reflexivity|].
    split; [constructor|exact Hinv].
  - destruct (bench_round s Hinv)
      as (s1 & s2 & c & Hadv & _ & Hz & Hdrop & Hcom & Hinv2).
    destruct (IH s2 (hist ++ [c]) Hinv2) as (s' & new & Hrun & Hlen & Hall
                                             & Hinv').
    exists s', (c :: new).
    unfold benchmark_ops. cbn [repeat concat app run_hist step_op dropped_by].
    rewrite Hadv. cbn [obind]. rewrite Hcom. cbn [obind].
    rewrite app_nil_r.
    change (firstn (Z.to_nat (spec s1)) (buf s1))
      with (dropped_by (R := ZeroReader) OpCommit s1).
    rewrite Hdrop.
    split.
    { unfold benchmark_ops in Hrun. rewrite Hrun, <- app_assoc. reflexivity. }
    split; [cbn [length]; now rewrite Hlen|].
    split; [constructor; assumption|exact Hinv'].
Qed.

Lemma zero_units_sum (l : list savedRune.t) :
  Forall zero_unit l -> sum_sizes l = Z.of_nat (length l).
Proof.
  induction 1 as [|u l (_ & Hsz & _) _ IH]; [reflexivity|].
  unfold sum_sizes in *. cbn [map fold_right length].
  rewrite Nat2Z.inj_succ. cbn. lia.
Qed.

Lemma bench_inv_new : bench_inv (stream_over new_ZeroReader).
Proof.
  pose proof (stream_over_wf new_ZeroReader) as Hwf.
  pose proof (stream_over_new new_ZeroReader) as Hnew.
  unfold NewRuneStream, New in Hnew. apply Init_inv in Hnew.
  destruct Hnew as (_ & _ & Hr & _ & Hbs & _ & Hb & _ & Hbuf & Hcurr & _
                    & Hspec).
  unfold bench_inv. rewrite Hbuf.
  split; [exact Hwf|]. split; [exact Hbs|]. split; [exact Hspec|].
  split; [exact Hcurr|].
  split; [unfold pending, window; rewrite Hb; reflexivity|].
  split; [constructor|]. split; [cbn; lia|].
  eexists. split; [exact Hr|reflexivity].
Qed.

(** After [n] rounds of the benchmark loop the next unit is the one of
    index [n] since [Init], and its offset is [n] modulo 2^64. *)
Lemma bench_offset (n : nat) :
  exists s hist u,
    run_hist ZeroReader_source (benchmark_ops n ++ [OpAdvance])
             (stream_over new_ZeroReader) [] = Ret (s, hist) /\
    nth_error (hist ++ buf s) n = Some u /\
    is_terminal u = false /\
    sum_sizes (firstn n (hist ++ buf s)) = Z.of_nat n /\
    Offset (savedRune.pos u) = u64 (Z.of_nat n).
Proof.
  destruct (bench_hist n (stream_over new_ZeroReader) [] bench_inv_new)
    as (s & hist & Hrun & Hlen & Hall & Hinv).
  cbn [app] in Hrun.
  destruct (bench_round s Hinv) as (s1 & _ & c & Hadv & Hnth & Hz & _).
  assert (Hrun1 : run_hist ZeroReader_source (benchmark_ops n ++ [OpAdvance])
                           (stream_over new_ZeroReader) [] = Ret (s1, hist)).
  { rewrite run_hist_app, Hrun. cbn [obind fst snd run_hist step_op].
    rewrite Hadv. cbn [obind dropped_by]. now rewrite app_nil_r. }
  assert (Hn : nth_error (hist ++ buf s1) n = Some c).
  { rewrite nth_error_app2 by lia. rewrite Hlen, Nat.sub_diag. exact Hnth. }
  assert (Hsum : sum_sizes (firstn n (hist ++ buf s1)) = Z.of_nat n).
  { rewrite firstn_app, Hlen, Nat.sub_diag. cbn [firstn].
    rewrite app_nil_r, <- Hlen, firstn_all.
    now apply zero_units_sum. }
  exists s1, hist, c. split; [exact Hrun1|]. split; [exact Hn|].
  split; [destruct Hz as (_ & _ & He); unfold is_terminal; now rewrite He|].
  split; [exact Hsum|].
  assert (Hinv0 : log_inv [] (stream_over new_ZeroReader)).
  { apply (Init_log_inv zero_RuneStream _ (handle new_ZeroReader)
                        default_options eq_refl).
    - cbn. unfold maxInt. lia.
    - exact (stream_over_new new_ZeroReader). }
  destruct (run_hist_log_inv ZeroReader_source _ _ _ _ _ Hinv0 Hrun1)
    as (_ & Hoffs & _).
  destruct (offsets_from_nth _ _ _ _ Hoffs Hn) as (Hoff & _ & _).
  rewrite Hoff.
  rewrite <- (u64_small (end_offset 0 _))
    by (apply end_offset_range; rewrite two64; lia).
  rewrite end_offset_sum, Hsum. reflexivity.
Qed.

(** [n] calls of [Advance] that stay inside the log. *)
Lemma advances_in_log {R : Type}
      (Read : R -> Z -> (list byte * option error) * R) (n : nat) :
  forall s : RuneStream R,
    at_terminal s = false ->
    Forall (fun u => is_terminal u = false) (buf s) ->
    0 <= spec s ->
    spec s + Z.of_nat n <= Z.of_nat (length (buf s)) ->
    Z.of_nat (length (buf s)) <= maxInt ->
    exists s',
      advances Read n s = Ret s' /\
      buf s' = buf s /\ spec s' = spec s + Z.of_nat n /\
      at_terminal s' = false.
Proof.
  induction n as [|n IH]; intros s Hlive Hall H0 Hle Hmax.
  - exists s. cbn [advances]. rewrite Z.add_0_r. auto.
  - rewrite Nat2Z.inj_succ in Hle.
    destruct (nth_error (buf s) (Z.to_nat (spec s))) as [c|] eqn:Hnth.
    2:{ apply nth_error_None in Hnth. lia. }
    assert (Hc : is_terminal c = false).
    { rewrite Forall_forall in Hall. apply Hall.
      eapply nth_error_In. exact Hnth. }
    cbn [advances].
    rewrite (Advance_in_log Read s c Hlive ltac:(lia) Hnth). cbn [obind].
    assert (Hu : u64 (spec s + 1) = spec s + 1).
    { apply u64_small. unfold maxInt in Hmax.
      change (2 ^ 63) with 9223372036854775808 in Hmax.
      rewrite two64. lia. }
    destruct (IH (with_spec (with_curr s (Some c)) (u64 (spec s + 1))))
      as (s' & Hrun & Hb & Hs & Ht).
    + unfold at_terminal. cbn. exact Hc.
    + exact Hall.
    + cbn. lia.
    + cbn [spec buf with_spec with_curr]. rewrite Hu. lia.
    + exact Hmax.
    + exists s'. split; [exact Hrun|]. split; [exact Hb|].
      split; [|exact Ht].
      rewrite Hs. cbn [spec with_spec]. rewrite Hu, Nat2Z.inj_succ. lia.
Qed.

(** The first [Advance] on a new stream over a [ZeroReader] loads one
    block of units for U+0000. *)
Lemma ZeroReader_first_block (o : Options) (s0 : RuneStream ZeroReader) :
  Decoder_ o = None -> 0 < BlockSize o -> BlockSize o < 0x40000000 + 1 ->
  New (handle new_ZeroReader) o = Ret s0 ->
  exists s1,
    RuneStream_Advance ZeroReader_source s0 = Ret (true, s1) /\
    at_terminal s1 = false /\ spec s1 = 1 /\
    Forall (fun u => is_terminal u = false) (buf s1) /\
    Z.of_nat (length (buf s1)) = BlockSize o.
Proof.
  intros Hdec Hpos Hsmall Hnew. unfold New in Hnew.
  destruct (Init_inv _ _ _ _ Hnew)
    as (_ & _ & Hr & Hd & Hbs & Hbb & Hb & Hp & Hbuf & Hcurr & _ & Hspec).
  rewrite Hdec in Hd, Hbb. cbn [decoder_of] in Hd, Hbb.
  change (Max UTF8Decoder) with 4 in Hbb.
  assert (Hblk : block_size_of (BlockSize o) = BlockSize o).
  { unfold block_size_of. destruct (Z.eqb_spec (BlockSize o) 0); [lia|].
    reflexivity. }
  rewrite Hblk in Hbs, Hbb.
  rewrite int64_small in Hbb
    by (change (2 ^ 63) with 9223372036854775808; lia).
  assert (Hpend : pending s0 = []).
  { unfold pending, window. rewrite Hb. reflexivity. }
  assert (Hok : stream_ok UTF8Decoder s0).
  { unfold stream_ok, window_ok. rewrite Hb, Hpend, Hbs, Hbb.
    change (Max UTF8Decoder) with 4.
    split; [exact Hd|]. split; [lia|].
    split; [unfold maxInt; change (2 ^ 63) with 9223372036854775808; lia|].
    split; [reflexivity|]. split; [cbn; lia|reflexivity]. }
  assert (Hlive : at_terminal s0 = false)
    by (unfold at_terminal; now rewrite Hcurr).
  assert (Hread : Reader_Read ZeroReader_source
                    {| rd_state := new_ZeroReader; rd_calls := 0 |} (bs s0) =
                  (repeat x00 (Z.to_nat (bs s0)), None,
                   {| rd_state := new_ZeroReader; rd_calls := 1 |})).
  { unfold Reader_Read. cbn [rd_state rd_calls].
    rewrite ZeroReader_source_spec.
    rewrite firstn_all2 by (rewrite repeat_length; lia).
    reflexivity. }
  assert (Hceil : Z.of_nat (length (buf s0)) < 0x40000000)
    by (rewrite Hbuf; cbn; lia).
  destruct (load_units ZeroReader_source UTF8Decoder s0 _ _ _ _
              UTF8Decoder_ok UTF8Decoder_short Hok Hr Hceil Hread)
    as (s2 & Hload & _ & Hc2 & _ & Hs2 & _ & _ & Hb2 & _).
  rewrite Hpend, Hbuf in Hb2. cbn [app] in Hb2.
  destruct (zeroes_units (Z.to_nat (bs s0)) (pos s0)) as (Hz1 & Hz2 & _).
  cbn [terminal_of] in Hload. rewrite app_nil_r in Hload.
  assert (Hs2' : with_buf s2 (buf s2) = s2) by (destruct s2; reflexivity).
  rewrite Hs2' in Hload.
  destruct (units_of UTF8Decoder (pos s0) (repeat x00 (Z.to_nat (bs s0))))
    as [|u l] eqn:Hu; [cbn [length] in Hz2; lia|].
  assert (Hnt : Forall (fun u => is_terminal u = false) (u :: l)).
  { eapply Forall_impl; [|exact Hz1].
    intros a (_ & _ & Ha). unfold is_terminal. now rewrite Ha. }
  exists (with_spec (with_curr s2 (Some u)) (u64 (spec s2 + 1))).
  rewrite (Advance_live ZeroReader_source s0 Hlive).
  rewrite Hspec, Hbuf. cbn [length].
  change (0 >=? Z.of_nat 0) with true. cbn iota.
  rewrite Hload. cbn [obind]. rewrite Hs2, Hspec, Hb2.
  change (Z.to_nat 0) with 0%nat. cbn [nth_error].
  inversion Hnt as [|x y Hut Hlt]. subst x y. rewrite Hut.
  split; [reflexivity|].
  unfold at_terminal. cbn [curr spec buf with_spec with_curr].
  rewrite Hut, Hb2.
  split; [reflexivity|]. split; [reflexivity|]. split; [exact Hnt|].
  rewrite Hz2, Hbs. lia.
Qed.

Section Versions.

Context {R : Type}.
Variable Read : R -> Z -> (list byte * option error) * R.

Lemma upgrade_decode_loop (fuel : nat) :
  forall s : v0.RuneStream R,
    decode_loop fuel UTF8Decoder (upgrade s) =
    omap upgrade (v0.decode_loop fuel s).
Proof.
  induction fuel as [|fuel IH]; intros s; rewrite decode_loop_eq;
    cbn [v0.decode_loop];
    change (pending (upgrade s)) with (v0.pending s);
    change (FullRune UTF8Decoder) with utf8.FullRune;
    destruct (utf8.FullRune (v0.pending s)); try reflexivity.
  change (DecodeRune UTF8Decoder) with utf8.DecodeRune.
  destruct (utf8.DecodeRune (v0.pending s)) as [rn sz].
  change (b (upgrade s)) with (v0.b s).
  destruct ((sz <? 0) || (Z.of_nat (snd (v0.b s)) <? sz)); [reflexivity|].
  cbv zeta. cbn [pos buf with_b with_buf upgrade].
  destruct (Position_Advance (v0.pos s) rn sz) as [p'| |]; try reflexivity.
  cbn [obind]. rewrite <- IH. reflexivity.
Qed.

Lemma upgrade_load (s : v0.RuneStream R) :
  load Read (upgrade s) = omap upgrade (v0.load Read s).
Proof.
  unfold load, v0.load.
  change (buf (upgrade s)) with (v0.buf s).
  change (b (upgrade s)) with (v0.b s).
  change (bb (upgrade s)) with (v0.bb s).
  change (bs (upgrade s)) with v0.BlockSize.
  change (r (upgrade s)) with (v0.r s).
  change (d (upgrade s)) with (Some UTF8Decoder).
  change (pending (upgrade s)) with (v0.pending s).
  destruct (Z.of_nat (length (v0.buf s)) >=? 1073741824); [reflexivity|].
  destruct (Z.of_nat (snd (v0.b s)) >? Z.of_nat (length (v0.bb s)));
    [reflexivity|].
  destruct ((Z.of_nat (snd (v0.b s))
             >? int64 (Z.of_nat (snd (v0.b s)) + v0.BlockSize))
            || (int64 (Z.of_nat (snd (v0.b s)) + v0.BlockSize)
                >? Z.of_nat (length (v0.bb s)))); [reflexivity|].
  destruct (v0.r s) as [rd|]; [|reflexivity].
  destruct (Reader_Read Read rd _) as [[data e] rd'].
  match goal with
  | |- obind (decode_loop ?f UTF8Decoder ?s1) _ =
       omap _ (obind (v0.decode_loop ?f ?t1) _) =>
      change s1 with (upgrade t1); rewrite (upgrade_decode_loop f t1);
      destruct (v0.decode_loop f t1) as [s2| |]; try reflexivity
  end.
  destruct e; reflexivity.
Qed.

Lemma upgrade_Advance (s : v0.RuneStream R) :
  RuneStream_Advance Read (upgrade s) =
  omap upgrade_result (v0.Advance Read s).
Proof.
  unfold RuneStream_Advance, v0.Advance.
  change (curr (upgrade s)) with (v0.curr s).
  change (spec (upgrade s)) with (v0.spec s).
  change (buf (upgrade s)) with (v0.buf s).
  destruct (match v0.curr s with
            | Some c => is_terminal c
            | None => false
            end); [reflexivity|].
  destruct (v0.spec s >=? Z.of_nat (length (v0.buf s))).
  - rewrite upgrade_load.
    destruct (v0.load Read s) as [s1| |]; try reflexivity.
    cbn [omap obind].
    change (buf (upgrade s1)) with (v0.buf s1).
    change (spec (upgrade s1)) with (v0.spec s1).
    destruct (nth_error (v0.buf s1) (Z.to_nat (v0.spec s1)));
      reflexivity.
  - cbn [omap obind].
    change (buf (upgrade s)) with (v0.buf s).
    change (spec (upgrade s)) with (v0.spec s).
    destruct (nth_error (v0.buf s) (Z.to_nat (v0.spec s))); reflexivity.
Qed.

(** X23. The stream with [Options], made by [NewRuneStream], is the stream
    of the first version: every method of the first version does to its
    stream what the later one does to the same stream with the decoder
    [UTF8Decoder] and the block size 4096. The two constructors differ in
    the generation they start from (0 then, 1 now), and [Reset] agrees
    when the buffer has the size that [NewRuneStream] gives it. *)
Theorem first_version_is_the_default_of_the_later
        (s : v0.RuneStream R) (rd : option (Reader R)) (sp : SavePoint.t) :
  (exists s_old s_new,
      v0.NewRuneStream rd = Ret s_old /\
      NewRuneStream rd = Ret s_new /\
      s_new = with_gen (upgrade s_old) 1 /\ v0.gen s_old = 0) /\
  RuneStream_Advance Read (upgrade s) =
    omap upgrade_result (v0.Advance Read s) /\
  RuneStream_Save (upgrade s) = v0.Save s /\
  RuneStream_Restore (upgrade s) sp = omap upgrade (v0.Restore s sp) /\
  RuneStream_Rewind (upgrade s) = upgrade (v0.Rewind s) /\
  RuneStream_Commit (upgrade s) = omap upgrade (v0.Commit s) /\
  RuneStream_Rune (upgrade s) = v0.Rune s /\
  RuneStream_Size (upgrade s) = v0.Size s /\
  RuneStream_Position (upgrade s) = v0.Position s /\
  RuneStream_Err (upgrade s) = v0.Err s /\
  (Z.of_nat (length (v0.bb s)) = 4100 ->
   RuneStream_Reset (upgrade s) rd = Ret (upgrade (v0.Reset s rd))).
Proof.
  split.
  { eexists _, _. split; [reflexivity|]. split; [reflexivity|].
    split; reflexivity. }
  split; [apply upgrade_Advance|].
  split; [reflexivity|].
  split.
  { unfold RuneStream_Restore, v0.Restore.
    change (gen (upgrade s)) with (v0.gen s).
    destruct (negb (SavePoint.gen sp =? v0.gen s)); reflexivity. }
  split; [reflexivity|].
  split.
  { unfold RuneStream_Commit, v0.Commit.
    change (spec (upgrade s)) with (v0.spec s).
    change (buf (upgrade s)) with (v0.buf s).
    destruct (v0.spec s >? Z.of_nat (length (v0.buf s))); reflexivity. }
  split; [reflexivity|]. split; [reflexivity|]. split; [reflexivity|].
  split; [reflexivity|].
  intros Hlen. unfold RuneStream_Reset, RuneStream_Init.
  cbn [BlockSize Decoder_ bb upgrade Max UTF8Decoder].
  change (int64 ((if 0 =? 0 then 4096 else 0) + utf8.UTFMax)) with 4100.
  rewrite Hlen. reflexivity.
Qed.

End Versions.

(** ** Concrete runs for the properties above *)

Lemma advanced_ret {R : Type} (m : outcome (bool * RuneStream R))
      (ok : bool) :
  advanced m = Some ok -> exists s1, m = Ret (ok, s1).
Proof.
  destruct m as [[ok' s1]| |]; try discriminate.
  intros [= ->]. now exists s1.
Qed.

Lemma returns_ret {A : Type} (m : outcome A) :
  returns m = true -> exists a, m = Ret a.
Proof. destruct m as [a| |]; try discriminate. intros _. now exists a. Qed.

Lemma Position_Advance_by_size_witness :
  Position_Advance MakePosition 65 (-1) = Panic "negative size" /\
  Position_Advance (At 7 2 3) rune_CR 0 = Ret (At 7 2 3) /\
  exists pos',
    Position_Advance MakePosition rune_CR 1 = Ret pos' /\
    Offset pos' = 1 /\ SkipNextLF pos' = true.
Proof.
  split; [|split].
  - apply (proj1 (Position_Advance_by_size MakePosition 65 (-1))). lia.
  - apply (proj1 (proj2 (Position_Advance_by_size (At 7 2 3) rune_CR 0))).
    reflexivity.
  - destruct (proj2 (proj2 (Position_Advance_by_size MakePosition rune_CR 1)))
      as (pos' & H & Ho & Hs & _); [lia|].
    exists pos'. split; [exact H|]. split; [exact Ho|exact Hs].
Defined.

Lemma Line_counts_the_line_breaks_witness :
  let text := [(97, 1); (13, 1); (10, 1); (98, 1); (10, 1); (0x65E5, 3)] in
  Position_ok MakePosition /\
  Forall (fun x => 0 < snd x) text /\
  line_breaks false (map fst text) = 2 /\
  exists pos',
    Position_Advance_all MakePosition text = Ret pos' /\
    Line pos' = 3 /\ Offset pos' = 8.
Proof.
  intros text.
  assert (Hok : Position_ok MakePosition).
  { unfold Position_ok. cbn. change (2 ^ 64) with 18446744073709551616. lia. }
  assert (Hall : Forall (fun x => 0 < snd x) text).
  { repeat constructor. }
  split; [exact Hok|]. split; [exact Hall|]. split; [reflexivity|].
  destruct (Line_counts_the_line_breaks text MakePosition Hok Hall)
    as (pos' & Hrun & Hl & Ho).
  exists pos'. split; [exact Hrun|]. split; [exact Hl|exact Ho].
Defined.

Lemma Position_String_shows_line_column_offset_witness :
  Position_ok (At 29 4 1) /\ Position_ok (AtSkip 29 4 1) /\
  Position_String (AtSkip 29 4 1) = Position_String (At 29 4 1) /\
  Position_String (At 29 4 1)
  = "line 4 column 1 (byte offset 29)"%string.
Proof.
  assert (H1 : Position_ok (At 29 4 1)).
  { unfold Position_ok. cbn. change (2 ^ 64) with 18446744073709551616. lia. }
  assert (H2 : Position_ok (AtSkip 29 4 1)).
  { unfold Position_ok. cbn. change (2 ^ 64) with 18446744073709551616. lia. }
  split; [exact H1|]. split; [exact H2|].
  split; [|reflexivity].
  apply (proj1 (Position_String_shows_line_column_offset
                  (AtSkip 29 4 1) (At 29 4 1) H2 H1)).
  repeat split.
Defined.

Lemma UTF8Decoder_keeps_the_contract_witness :
  FullRune UTF8Decoder [xe6; x97] = false /\
  FullRune UTF8Decoder [xe6; x97; xa5] = true /\
  FullRune UTF8Decoder ([xe6; x97; xa5] ++ [x41]) = true /\
  DecodeRune UTF8Decoder ([xe6; x97; xa5] ++ [x41])
  = DecodeRune UTF8Decoder [xe6; x97; xa5] /\
  1 <= snd (DecodeRune UTF8Decoder [xe6; x97; xa5]) <= 4.
Proof.
  assert (Hf : FullRune UTF8Decoder [xe6; x97; xa5] = true) by reflexivity.
  destruct UTF8Decoder_keeps_the_contract
    as (_ & Hm & _ & _ & Hsize & Hstable).
  split; [reflexivity|]. split; [exact Hf|].
  destruct (Hstable [xe6; x97; xa5] [x41] Hf) as [H1 H2].
  split; [exact H1|]. split; [exact H2|].
  destruct (Hsize _ Hf) as [H3 _]. rewrite Hm in H3. exact H3.
Defined.

Lemma UTF8Decoder_yields_scalar_values_witness :
  FullRune UTF8Decoder [xe6; x97; xa5] = true /\
  wellformed_len [xe6; x97; xa5] = Some 3 /\
  DecodeRune UTF8Decoder [xe6; x97; xa5] = (0x65E5, 3) /\
  scalar_value 0x65E5 /\ rune_len 0x65E5 = 3.
Proof.
  assert (Hf : FullRune UTF8Decoder [xe6; x97; xa5] = true) by reflexivity.
  assert (Hw : wellformed_len [xe6; x97; xa5] = Some 3) by reflexivity.
  assert (Hd : DecodeRune UTF8Decoder [xe6; x97; xa5] = (0x65E5, 3))
    by reflexivity.
  destruct (UTF8Decoder_yields_scalar_values [xe6; x97; xa5] Hf)
    as (Hs & Hlen & _).
  rewrite Hd in Hs, Hlen. cbn [fst snd] in Hs, Hlen.
  split; [exact Hf|]. split; [exact Hw|]. split; [exact Hd|].
  split; [exact Hs|]. exact (proj2 (Hlen 3 Hw)).
Defined.

Lemma stream_runes_are_scalar_values_witness :
  let s0 := stream_over [xc3; xb1; x41] in
  let s := after strings_Read [OpAdvance; OpCommit] s0 in
  Decoder_ default_options = None /\
  RuneStream_Init zero_RuneStream (handle [xc3; xb1; x41]) default_options
  = Ret s0 /\
  run_ops strings_Read [OpAdvance; OpCommit] s0 = Ret s /\
  exists s1 rn sz,
    RuneStream_Advance strings_Read s = Ret (true, s1) /\
    RuneStream_Rune s1 = Ret rn /\ RuneStream_Size s1 = Ret sz /\
    scalar_value rn /\ 1 <= sz <= 4.
Proof.
  intros s0 s.
  pose proof (stream_over_new [xc3; xb1; x41]
              : RuneStream_Init zero_RuneStream (handle [xc3; xb1; x41])
                                default_options = Ret s0) as Hinit.
  assert (Hret : returns (run_ops strings_Read [OpAdvance; OpCommit] s0)
                 = true) by (vm_compute; reflexivity).
  pose proof (after_returns strings_Read [OpAdvance; OpCommit] s0 Hret
              : run_ops strings_Read [OpAdvance; OpCommit] s0 = Ret s)
    as Hrun.
  assert (Hadv : advanced (RuneStream_Advance strings_Read s) = Some true)
    by (vm_compute; reflexivity).
  clearbody s s0.
  destruct (advanced_ret _ _ Hadv) as [s1 Hs1].
  destruct (stream_runes_are_scalar_values strings_Read zero_RuneStream
              s0 s s1 (handle [xc3; xb1; x41]) default_options
              [OpAdvance; OpCommit] eq_refl Hinit Hrun Hs1)
    as (rn & sz & Hrn & Hsz & Hscalar & Hrange & _).
  split; [reflexivity|]. split; [exact Hinit|]. split; [exact Hrun|].
  exists s1, rn, sz. repeat (split; [assumption|]). exact Hrange.
Defined.

Lemma accessors_need_a_current_unit_witness :
  let s := after strings_Read [OpAdvance] (stream_over [x61; x62]) in
  RuneStream_Rune s = Ret 97 /\
  RuneStream_Rune (RuneStream_Rewind s) = Panic nil_dereference /\
  RuneStream_Err (RuneStream_Rewind s) = Panic nil_dereference /\
  exists s1 c,
    RuneStream_Advance strings_Read s = Ret (true, s1) /\
    RuneStream_Rune s1 = Ret (savedRune.value c) /\
    RuneStream_Position s1 = Ret (savedRune.pos c).
Proof.
  intros s.
  assert (Hr : RuneStream_Rune s = Ret 97) by (vm_compute; reflexivity).
  assert (Hadv : advanced (RuneStream_Advance strings_Read s) = Some true)
    by (vm_compute; reflexivity).
  clearbody s.
  destruct (advanced_ret _ _ Hadv) as [s1 Hs1].
  split; [exact Hr|].
  destruct (accessors_need_a_current_unit strings_Read s
              (RuneStream_Rewind s)) as [Hnil _].
  destruct (Hnil (or_introl eq_refl)) as (H1 & _ & _ & H4).
  split; [exact H1|]. split; [exact H4|].
  destruct (accessors_need_a_current_unit strings_Read s s1) as [_ Hcur].
  destruct (Hcur (ex_intro _ true Hs1)) as (c & Hc1 & _ & Hc3 & _).
  exists s1, c. split; [exact Hs1|]. split; [exact Hc1|exact Hc3].
Defined.

Lemma Advance_false_carries_the_error_witness :
  let s0 := stream_over [x61] in
  let s := after strings_Read [OpAdvance] s0 in
  RuneStream_Init zero_RuneStream (handle [x61]) default_options = Ret s0 /\
  run_ops strings_Read [OpAdvance] s0 = Ret s /\
  exists s1,
    RuneStream_Advance strings_Read s = Ret (false, s1) /\
    (exists e, RuneStream_Err s1 = Ret (Some e)) /\
    RuneStream_Rune s1 = Ret 0 /\ RuneStream_Size s1 = Ret 0.
Proof.
  intros s0 s.
  pose proof (stream_over_new [x61]
              : RuneStream_Init zero_RuneStream (handle [x61])
                                default_options = Ret s0) as Hinit.
  assert (Hret : returns (run_ops strings_Read [OpAdvance] s0) = true)
    by (vm_compute; reflexivity).
  pose proof (after_returns strings_Read [OpAdvance] s0 Hret
              : run_ops strings_Read [OpAdvance] s0 = Ret s) as Hrun.
  assert (Hadv : advanced (RuneStream_Advance strings_Read s) = Some false)
    by (vm_compute; reflexivity).
  clearbody s s0.
  destruct (advanced_ret _ _ Hadv) as [s1 Hs1].
  split; [exact Hinit|]. split; [exact Hrun|].
  exists s1. split; [exact Hs1|].
  exact (Advance_false_carries_the_error strings_Read zero_RuneStream s0 s s1
           (handle [x61]) default_options [OpAdvance] false Hinit Hrun Hs1).
Defined.

Lemma Advance_reads_only_at_the_end_of_the_log_witness :
  let s := reset (after strings_Read [OpAdvance; OpAdvance]
                        (stream_over [x61; x62])) 1 in
  at_terminal s = false /\ spec s < Z.of_nat (length (buf s)) /\
  exists s1,
    RuneStream_Advance strings_Read s = Ret (true, s1) /\
    buf s1 = buf s /\ reads_issued s1 = reads_issued s.
Proof.
  intros s.
  assert (Hlive : at_terminal s = false) by (vm_compute; reflexivity).
  assert (Hin : spec s < Z.of_nat (length (buf s)))
    by (vm_compute; reflexivity).
  assert (Hadv : advanced (RuneStream_Advance strings_Read s) = Some true)
    by (vm_compute; reflexivity).
  clearbody s.
  destruct (advanced_ret _ _ Hadv) as [s1 Hs1].
  split; [exact Hlive|]. split; [exact Hin|].
  exists s1. split; [exact Hs1|].
  destruct (Advance_reads_only_at_the_end_of_the_log strings_Read s)
    as [_ H].
  destruct (H true s1 Hs1) as [Hkeep _].
  destruct (Hkeep (or_intror Hin)) as (_ & Hb & _ & _ & Hreads).
  split; [exact Hb|exact Hreads].
Defined.

Lemma Advance_panics_when_a_read_gives_no_unit_witness :
  let s := stream_over [xe6] in
  let rd := {| rd_state := [xe6]; rd_calls := 0 |} in
  let rd' := {| rd_state := ([] : list byte); rd_calls := 1 |} in
  at_terminal s = false /\
  spec s = Z.of_nat (length (buf s)) /\
  r s = Some rd /\
  Reader_Read strings_Read rd (bs s) = ([xe6], None, rd') /\
  FullRune UTF8Decoder (pending s ++ [xe6]) = false /\
  RuneStream_Advance strings_Read s = Panic "index out of range".
Proof.
  intros s rd rd'.
  assert (Hlive : at_terminal s = false) by (vm_compute; reflexivity).
  assert (Hend : spec s = Z.of_nat (length (buf s)))
    by (vm_compute; reflexivity).
  assert (Hceil : Z.of_nat (length (buf s)) < 0x40000000)
    by (vm_compute; reflexivity).
  assert (Hr : r s = Some rd) by (vm_compute; reflexivity).
  assert (Hread : Reader_Read strings_Read rd (bs s) = ([xe6], None, rd'))
    by (vm_compute; reflexivity).
  assert (Hnf : FullRune UTF8Decoder (pending s ++ [xe6]) = false)
    by (vm_compute; reflexivity).
  pose proof (stream_over_wf [xe6] : stream_ok UTF8Decoder s) as Hwf.
  clearbody s.
  split; [exact Hlive|]. split; [exact Hend|]. split; [exact Hr|].
  split; [exact Hread|]. split; [exact Hnf|].
  exact (Advance_panics_when_a_read_gives_no_unit strings_Read UTF8Decoder
           s rd rd' [xe6] UTF8Decoder_ok UTF8Decoder_short Hwf Hlive Hend
           Hceil Hr Hread Hnf).
Defined.

Lemma Commit_keeps_what_is_read_next_witness :
  let s := after strings_Read [OpAdvance; OpAdvance]
                 (stream_over [x61; x62; x63; x64]) in
  representable s /\ at_terminal s = false /\
  clean (observe strings_Read 4 s) = true /\
  exists t,
    RuneStream_Commit s = Ret t /\
    observe strings_Read 4 t = observe strings_Read 4 s.
Proof.
  intros s.
  assert (Hrep : representable s).
  { unfold representable, window_ok.
    split; [vm_compute; split; [discriminate|reflexivity]|].
    split; [vm_compute; discriminate|].
    split; [vm_compute; discriminate|].
    vm_compute. apply Nat.leb_le. reflexivity. }
  assert (Hlive : at_terminal s = false) by (vm_compute; reflexivity).
  assert (Hclean : clean (observe strings_Read 4 s) = true)
    by (vm_compute; reflexivity).
  assert (Hret : returns (RuneStream_Commit s) = true)
    by (vm_compute; reflexivity).
  clearbody s.
  destruct (returns_ret _ Hret) as [t Ht].
  split; [exact Hrep|]. split; [exact Hlive|]. split; [exact Hclean|].
  exists t. split; [exact Ht|].
  exact (Commit_keeps_what_is_read_next strings_Read s t 4 Hrep Hlive Ht
           Hclean).
Defined.

Lemma Rewind_replays_from_the_commit_witness :
  let s := after strings_Read [OpAdvance]
                 (stream_over [x61; x62; x63; x64]) in
  exists a sM,
    RuneStream_Commit s = Ret a /\
    advances strings_Read 2 a = Ret sM /\
    observe strings_Read 4 (RuneStream_Rewind sM) = observe strings_Read 4 a.
Proof.
  intros s.
  assert (Hret : returns (obind (RuneStream_Commit s)
                                (advances strings_Read 2)) = true)
    by (vm_compute; reflexivity).
  clearbody s.
  destruct (RuneStream_Commit s) as [a| |] eqn:Ha; try discriminate.
  cbn [obind] in Hret.
  destruct (returns_ret _ Hret) as [sM HsM].
  exists a, sM. split; [reflexivity|]. split; [exact HsM|].
  exact (Rewind_replays_from_the_commit strings_Read s a sM 2 4
           (or_introl Ha) HsM).
Defined.

Lemma TakeWhile_takes_matching_runes_witness :
  let s := stream_over [x61; x62; x31] in
  let pred := fun rn => 97 <=? rn in
  -1 <= maxInt /\
  exists out s',
    RuneStream_TakeWhile strings_Read 10 s (-1) [] pred = Ret (out, s') /\
    exists taken,
      out = [] ++ taken /\
      Forall (fun rn => pred rn = true) taken /\
      gen s' = gen s /\ curr s' = None /\
      u64 (spec s') = u64 (spec s + Z.of_nat (length taken)).
Proof.
  intros s pred.
  assert (Hmax : -1 <= maxInt) by (unfold maxInt; lia).
  assert (Hret : returns (RuneStream_TakeWhile strings_Read 10 s (-1) []
                                               pred) = true)
    by (vm_compute; reflexivity).
  clearbody s.
  destruct (returns_ret _ Hret) as [[out s'] Hrun].
  split; [exact Hmax|]. exists out, s'. split; [exact Hrun|].
  destruct (TakeWhile_takes_matching_runes strings_Read 10 s (-1) [] pred
              Hmax) as [Htake _].
  destruct (Htake out s' Hrun)
    as (taken & Hout & Hall & _ & Hgen & Hcurr & Hspec & _).
  exists taken. split; [exact Hout|]. split; [exact Hall|].
  split; [exact Hgen|]. split; [exact Hcurr|exact Hspec].
Defined.

Lemma TakeWhile_stops_at_the_first_mismatch_witness :
  let s := stream_over [x61; x62; x31] in
  let pred := fun rn => 97 <=? rn in
  -1 <= maxInt /\ at_terminal s = false /\
  exists s',
    RuneStream_TakeWhile strings_Read 10 s (-1) [] pred
    = Ret ([] ++ [97; 98], s') /\
    exists ok s2 c,
      RuneStream_Advance strings_Read s' = Ret (ok, s2) /\
      curr s2 = Some c /\
      ok = negb (is_terminal c) /\
      ok && pred (savedRune.value c) = false.
Proof.
  intros s pred.
  assert (Hmax : -1 <= maxInt) by (unfold maxInt; lia).
  assert (Hlive : at_terminal s = false) by (vm_compute; reflexivity).
  assert (Hret : returns (RuneStream_TakeWhile strings_Read 10 s (-1) []
                                               pred) = true)
    by (vm_compute; reflexivity).
  assert (Hout : match RuneStream_TakeWhile strings_Read 10 s (-1) [] pred
                 with Ret (out, _) => out | _ => [] end = [97; 98])
    by (vm_compute; reflexivity).
  clearbody s.
  destruct (returns_ret _ Hret) as [[out s'] Hrun].
  rewrite Hrun in Hout. subst out.
  split; [exact Hmax|]. split; [exact Hlive|].
  exists s'. split; [exact Hrun|].
  exact (proj1 (TakeWhile_stops_at_the_first_mismatch strings_Read 10 s (-1)
                  [] pred Hmax)
               Hlive s' [97; 98] Hrun (or_introl eq_refl)).
Defined.

Lemma TakeUntil_stops_at_the_first_match_witness :
  let s := stream_over [x61; x62; x20; x63] in
  let pred := fun rn => rn =? 32 in
  5 <= maxInt /\ at_terminal s = false /\
  exists out s',
    RuneStream_TakeUntil strings_Read 5 s 5 [] pred = Ret (out, s') /\
    exists taken,
      out = [] ++ taken /\
      Forall (fun rn => pred rn = false) taken /\
      Z.of_nat (length taken) = 2 /\
      exists ok s2 c,
        RuneStream_Advance strings_Read s' = Ret (ok, s2) /\
        curr s2 = Some c /\
        (ok = false \/ pred (savedRune.value c) = true).
Proof.
  intros s pred.
  assert (Hmax : 5 <= maxInt) by (unfold maxInt; lia).
  assert (Hlive : at_terminal s = false) by (vm_compute; reflexivity).
  assert (Hret : returns (RuneStream_TakeUntil strings_Read 5 s 5 [] pred)
                 = true) by (vm_compute; reflexivity).
  assert (Hout : match RuneStream_TakeUntil strings_Read 5 s 5 [] pred
                 with Ret (out, _) => Z.of_nat (length out) | _ => 0 end = 2)
    by (vm_compute; reflexivity).
  clearbody s.
  destruct (returns_ret _ Hret) as [[out s'] Hrun].
  rewrite Hrun in Hout.
  split; [exact Hmax|]. split; [exact Hlive|].
  exists out, s'. split; [exact Hrun|].
  destruct (proj1 (TakeUntil_stops_at_the_first_match strings_Read 5 s 5 []
                     pred Hmax) out s' Hrun)
    as (taken & Hout' & Hall & _ & Hstop).
  assert (Hlen : Z.of_nat (length taken) = 2).
  { rewrite Hout' in Hout. exact Hout. }
  exists taken. split; [exact Hout'|]. split; [exact Hall|].
  split; [exact Hlen|].
  apply (Hstop Hlive). right. lia.
Defined.

Lemma loop_reads_what_one_piece_decodes_witness :
  let o := {| BlockSize := 4; Decoder_ := None |} in
  let input := [x61; xc3; xb1; xe6; x97; xa5] in
  0 <= BlockSize o /\
  Max (decoder_of (Decoder_ o)) <= block_size_of (BlockSize o) /\
  block_size_of (BlockSize o) + Max (decoder_of (Decoder_ o)) <= maxInt /\
  left_over (decoder_of (Decoder_ o)) MakePosition input = [] /\
  exists s0 s',
    New (handle input) o = Ret s0 /\
    StreamRunes_loop strings_Read 7 s0 [] =
    Ret (map item_of (units_of UTF8Decoder MakePosition input), s') /\
    RuneStream_Err s' = Ret (Some EOF).
Proof.
  intros o input.
  assert (H1 : 0 <= BlockSize o) by (cbn; lia).
  assert (H2 : Max (decoder_of (Decoder_ o)) <= block_size_of (BlockSize o))
    by (vm_compute; discriminate).
  assert (H3 : block_size_of (BlockSize o) + Max (decoder_of (Decoder_ o))
               <= maxInt) by (vm_compute; discriminate).
  assert (H4 : left_over (decoder_of (Decoder_ o)) MakePosition input = [])
    by (vm_compute; reflexivity).
  split; [exact H1|]. split; [exact H2|]. split; [exact H3|].
  split; [exact H4|].
  destruct (loop_reads_what_one_piece_decodes o input UTF8Decoder_ok
              UTF8Decoder_stable UTF8Decoder_short H1 H2 H3 H4)
    as (s0 & Hnew & Hloop).
  destruct (Hloop 7%nat ltac:(cbn; lia)) as (s' & Hrun & Herr).
  exists s0, s'. split; [exact Hnew|]. split; [exact Hrun|exact Herr].
Defined.

Lemma StreamRunes_calls_back_every_rune_witness :
  let input := [x61; xc3; xb1; x0a; xe6; x97; xa5] in
  left_over UTF8Decoder MakePosition input = [] /\
  (length input < 8)%nat /\
  StreamRunes strings_Read 8 (handle input) =
  Ret (map item_of (units_of UTF8Decoder MakePosition input), None).
Proof.
  intros input.
  assert (H1 : left_over UTF8Decoder MakePosition input = [])
    by (vm_compute; reflexivity).
  assert (H2 : (length input < 8)%nat) by (cbn; lia).
  split; [exact H1|]. split; [exact H2|].
  exact (StreamRunes_calls_back_every_rune input 8 H1 H2).
Defined.

Lemma Init_again_reads_like_New_witness :
  let stream := after strings_Read [OpAdvance] (stream_over [x61; x62]) in
  let rd := handle [x63; x64] in
  exists s1 s2,
    RuneStream_Init stream rd default_options = Ret s1 /\
    New rd default_options = Ret s2 /\
    gen s1 = u64 (gen stream + 1) /\
    observe strings_Read 3 s1 = observe strings_Read 3 s2.
Proof.
  intros stream rd.
  assert (Hret : returns (RuneStream_Init stream rd default_options) = true)
    by (vm_compute; reflexivity).
  clearbody stream.
  destruct (returns_ret _ Hret) as [s1 Hs1].
  destruct (Init_again_reads_like_New strings_Read stream rd default_options)
    as [_ Hsame].
  destruct (Hsame s1 Hs1) as (s2 & Hnew & Hgen & _ & Hobs).
  exists s1, s2. split; [exact Hs1|]. split; [exact Hnew|].
  split; [exact Hgen|exact (Hobs 3%nat)].
Defined.

Lemma Reset_restores_the_defaults_witness :
  let stream := after strings_Read [OpAdvance] (stream_over [x61; x62]) in
  let rd := handle [x63; x64] in
  0 <= gen stream < 2 ^ 64 /\
  exists s1,
    RuneStream_Reset stream rd = Ret s1 /\
    RuneStream_BlockSize s1 = 4096 /\
    RuneStream_Restore s1 (RuneStream_Save stream)
    = Panic "save point is stale".
Proof.
  intros stream rd.
  assert (Hgen : 0 <= gen stream < 2 ^ 64)
    by (vm_compute; split; [discriminate|reflexivity]).
  clearbody stream.
  destruct (Reset_restores_the_defaults strings_Read stream rd)
    as (s1 & s2 & Hreset & _ & Hbs & _ & _ & _ & _ & _ & _ & _ & _ & Hstale).
  split; [exact Hgen|].
  exists s1. split; [exact Hreset|]. split; [exact Hbs|exact (Hstale Hgen)].
Defined.

Lemma Take_is_a_guarded_Advance_witness :
  let s := stream_over [x31; x61] in
  let pred := fun rn => 97 <=? rn in
  at_terminal s = false /\
  exists s',
    RuneStream_Take strings_Read s pred = Ret (0, false, s') /\
    observe strings_Read 3 s' = observe strings_Read 3 s.
Proof.
  intros s pred.
  assert (Hlive : at_terminal s = false) by (vm_compute; reflexivity).
  assert (Hret : returns (RuneStream_Take strings_Read s pred) = true)
    by (vm_compute; reflexivity).
  assert (Hno : match RuneStream_Take strings_Read s pred with
                | Ret (_, ok, _) => ok
                | _ => true
                end = false) by (vm_compute; reflexivity).
  clearbody s.
  destruct (returns_ret _ Hret) as [[[rn ok] s'] Hrun].
  rewrite Hrun in Hno. subst ok.
  destruct (Take_is_a_guarded_Advance strings_Read s pred)
    as (_ & _ & _ & Hunseen & _).
  destruct (Hunseen Hlive rn s' Hrun) as [Hrn Hobs].
  subst rn.
  split; [exact Hlive|]. exists s'. split; [exact Hrun|exact (Hobs 3%nat)].
Defined.

Lemma first_version_is_the_default_of_the_later_witness :
  let rd := handle [x61; x62] in
  exists s : v0.RuneStream (list byte),
    v0.NewRuneStream rd = Ret s /\
    Z.of_nat (length (v0.bb s)) = 4100 /\
    RuneStream_Advance strings_Read (upgrade s) =
      omap upgrade_result (v0.Advance strings_Read s) /\
    RuneStream_Reset (upgrade s) rd = Ret (upgrade (v0.Reset s rd)).
Proof.
  intros rd.
  assert (Hret : returns (v0.NewRuneStream rd) = true)
    by (vm_compute; reflexivity).
  assert (Hlen : match v0.NewRuneStream rd with
                 | Ret s => Z.of_nat (length (v0.bb s))
                 | _ => 0
                 end = 4100) by (vm_compute; reflexivity).
  destruct (returns_ret _ Hret) as [s Hs].
  rewrite Hs in Hlen.
  exists s. split; [exact Hs|]. split; [exact Hlen|].
  destruct (first_version_is_the_default_of_the_later strings_Read s rd
              (RuneStream_Save (upgrade s)))
    as (_ & Hadv & _ & _ & _ & _ & _ & _ & _ & _ & Hreset).
  split; [exact Hadv|exact (Hreset Hlen)].
Defined.


(** After 2^64 bytes the offset has come round: the unit of index 2^64 of
    a stream over a [ZeroReader] is at offset 0, and the units before
    it have sizes that sum to 2^64. *)
Lemma offset_wraps_after_2_64_bytes :
  let n := Z.to_nat (2 ^ 64) in
  RuneStream_Init zero_RuneStream (handle new_ZeroReader) default_options
  = Ret (stream_over new_ZeroReader) /\
  exists s hist u,
    run_hist ZeroReader_source (benchmark_ops n ++ [OpAdvance])
             (stream_over new_ZeroReader) [] = Ret (s, hist) /\
    nth_error (hist ++ buf s) n = Some u /\
    is_terminal u = false /\
    sum_sizes (firstn n (hist ++ buf s)) = 2 ^ 64 /\
    Offset (savedRune.pos u) = 0 /\
    Offset (savedRune.pos u) <> sum_sizes (firstn n (hist ++ buf s)).
Proof.
  intros n.
  assert (Hn : Z.of_nat n = 2 ^ 64)
    by (apply Z2Nat.id; rewrite two64; lia).
  clearbody n.
  split; [exact (stream_over_new new_ZeroReader)|].
  destruct (bench_offset n) as (s & hist & u & Hrun & Hnth & Hu & Hsum & Hoff).
  rewrite Hn in Hsum, Hoff.
  assert (H0 : u64 (2 ^ 64) = 0) by (vm_compute; reflexivity).
  rewrite H0 in Hoff.
  exists s, hist, u. split; [exact Hrun|]. split; [exact Hnth|].
  split; [exact Hu|]. split; [exact Hsum|]. split; [exact Hoff|].
  rewrite Hoff, Hsum. rewrite two64. lia.
Qed.

(** [TakeWhile] does not always return. At the limit of 2^30 units read
    and not committed, the guard of [load] makes its [Advance] panic; so
    does a text that ends inside a rune. *)
Lemma TakeWhile_never_panics_with_Advance :
  let o := {| BlockSize := 0x40000000; Decoder_ := None |} in
  let n := Z.to_nat 0x40000000 in
  (exists s0 s,
      New (handle new_ZeroReader) o = Ret s0 /\
      advances ZeroReader_source n s0 = Ret s /\
      RuneStream_TakeWhile ZeroReader_source 1 s (-1) [33] (fun _ => false)
      = Panic "too many calls to Advance() without Commit()") /\
  RuneStream_TakeWhile strings_Read 1 (stream_over [xe6]) (-1) [33]
                       (fun _ => false)
  = Panic "index out of range".
Proof.
  intros o n. subst o.
  split; [|vm_compute; reflexivity].
  assert (Hn : exists m, n = S m /\ Z.of_nat m = 0x40000000 - 1).
  { exists (Z.to_nat (0x40000000 - 1)). split; [|apply Z2Nat.id; lia].
    unfold n. rewrite <- Z2Nat.inj_succ by lia. reflexivity. }
  clearbody n. destruct Hn as (m & -> & Hm).
  destruct (Init_returns (@zero_RuneStream ZeroReader)
              (handle new_ZeroReader)
              {| BlockSize := 0x40000000; Decoder_ := None |}) as [s0 Hs0].
  { cbn. lia. }
  { vm_compute. discriminate. }
  { vm_compute. discriminate. }
  destruct (ZeroReader_first_block
              {| BlockSize := 0x40000000; Decoder_ := None |} s0 eq_refl) as (s1 & Hadv & Hlive & Hspec
                                                     & Hall & Hlen);
    [cbn; lia|cbn; lia|exact Hs0|].
  cbn [BlockSize] in Hlen.
  destruct (advances_in_log ZeroReader_source m s1 Hlive Hall)
    as (s & Hrun & Hb & Hs & Ht).
  { lia. }
  { lia. }
  { unfold maxInt. change (2 ^ 63) with 9223372036854775808. lia. }
  exists s0, s. split; [exact Hs0|].
  split; [cbn [advances]; rewrite Hadv; cbn [obind]; exact Hrun|].
  assert (Hpanic : RuneStream_Advance ZeroReader_source s =
                   Panic "too many calls to Advance() without Commit()").
  { rewrite (Advance_live ZeroReader_source s Ht).
    rewrite Hb, Hs, Hspec, Hlen, Hm.
    change (1 + (1073741824 - 1) >=? 1073741824) with true. cbn iota.
    unfold load. rewrite Hb, Hlen.
    change (1073741824 >=? 1073741824) with true. reflexivity. }
  unfold RuneStream_TakeWhile. cbn [TakeWhile_loop].
  change ((-1 <? 0) || (0 <? -1)) with true. cbn iota.
  rewrite Hpanic. reflexivity.
Qed.
